(** * The request dispatch engine of the mock server

    A shallow embedding of [src/libs/server.ts] (class [MockoonServer]) and
    [src/libs/utils.ts], with the properties of the dispatch pipeline, the
    header merger, the live refresh and the transaction log.

    Conventions of the embedding:
    - a JavaScript string is a [string] (bytes; every character the engine
      inspects, '/', ',', ':' and the letters of header names, is ASCII);
    - a plain JavaScript object used as a dictionary is an association list
      in [Object.keys] order ([Obj]);
    - [undefined], [null] and the empty string are the falsy values of the
      fields the code tests; a missing [uuid] is the empty string;
    - a method of the class is a computation over the instance ([M]): it
      reads and replaces [this.environment], appends to the events given to
      [this.emit], and completes normally or throws;
    - a response, an outgoing request and an incoming message are records
      of what the engine hands them: the status, the header fields in the
      store of the message, the body recorded for the log and the payload
      given to [send].  What express and Node derive from these on the way
      out (the charset completed on a Content-Type, Content-Length, an
      ETag, the stripped body of a 204) is not part of the record. *)

From Stdlib Require Import String Ascii List Arith ZArith Bool Lia.
From Stdlib Require Import Sorting.Sorted Sorting.Permutation OrdersEx RelationClasses.
From Equations Require Import Equations.
Import ListNotations.
Open Scope string_scope.
Open Scope list_scope.
Open Scope nat_scope.

(* ===================================================================== *)
(** * JavaScript values used by the engine *)
(* ===================================================================== *)

(** [if (s)] on a string: the empty string is falsy. *)
Definition truthy (s : string) : bool := negb (s =? "")%string.

(** [String.prototype.toLowerCase] on ASCII letters. *)
Definition lower_ascii (c : ascii) : ascii :=
  let n := nat_of_ascii c in
  if (65 <=? n) && (n <=? 90) then ascii_of_nat (n + 32) else c.

Fixpoint toLowerCase (s : string) : string :=
  match s with
  | EmptyString => EmptyString
  | String c r => String (lower_ascii c) (toLowerCase r)
  end.

(** A dictionary object: its own enumerable string keys in insertion order. *)
Definition Obj (V : Type) : Type := list (string * V).

(** [o[k]]; [None] is [undefined]. *)
Fixpoint obj_get {V : Type} (k : string) (o : Obj V) : option V :=
  match o with
  | [] => None
  | (k', v) :: o' => if (k' =? k)%string then Some v else obj_get k o'
  end.

(** [o[k] = v]: an existing key keeps its position, a new key goes last. *)
Fixpoint obj_set {V : Type} (k : string) (v : V) (o : Obj V) : Obj V :=
  match o with
  | [] => [(k, v)]
  | (k', v') :: o' =>
      if (k' =? k)%string then (k', v) :: o' else (k', v') :: obj_set k v o'
  end.

(** [Object.keys(o)]. *)
Definition Object_keys {V : Type} (o : Obj V) : list string := map fst o.

(** An [Error] object and [Error.prototype.toString], which a template
    literal applies to it. *)
Record Error : Type := mkError { err_name : string; err_message : string }.

Definition Error_toString (e : Error) : string :=
  if (err_name e =? "")%string then err_message e
  else if (err_message e =? "")%string then err_name e
  else (err_name e ++ ": " ++ err_message e)%string.

(** The completion of a statement or call: a value, or a thrown error. *)
Inductive Completion (A : Type) : Type :=
| Normal (a : A)
| Throw (e : Error).
Arguments Normal {A} a.
Arguments Throw {A} e.

(** ** [String.prototype.replace] with a global regular expression

    The regular expression is given by its matcher at the start of a string:
    [Some n] when it matches the first [n] characters.  The scan tries every
    position from left to right, replaces a match and resumes after it; after
    an empty match it copies one character, as [lastIndex] advances by one. *)

Fixpoint string_drop (n : nat) (s : string) : string :=
  match n, s with
  | O, _ => s
  | S n', EmptyString => EmptyString
  | S n', String _ r => string_drop n' r
  end.

Equations? replace_global (matcher : string -> option nat) (replacement : string)
  (s : string) : string by wf (String.length s) lt :=
  replace_global matcher replacement EmptyString
    with matcher EmptyString := {
      | Some _ => replacement
      | None => EmptyString };
  replace_global matcher replacement (String c r)
    with matcher (String c r) := {
      | Some O => (replacement ++ String c (replace_global matcher replacement r))%string
      | Some (S n) =>
          (replacement ++ replace_global matcher replacement (string_drop n r))%string
      | None => String c (replace_global matcher replacement r) }.
Proof.
  clear replace_global. revert r.
  induction n as [|n IH]; intros [|x r]; simpl; auto with arith.
Qed.

(** The number of leading characters of [s] that satisfy [p]. *)
Fixpoint span_length (p : ascii -> bool) (s : string) : nat :=
  match s with
  | EmptyString => 0
  | String c r => if p c then S (span_length p r) else 0
  end.

Definition is_slash (c : ascii) : bool := Ascii.eqb c "/".
Definition is_space (c : ascii) : bool := Ascii.eqb c " ".

(** The matcher of [/\/{2,}/]: the quantifier is greedy, so a match takes the
    whole run of slashes at the position, when it has at least two. *)
Definition regexp_slashes (s : string) : option nat :=
  let n := span_length is_slash s in
  if 2 <=? n then Some n else None.

(** The matcher of [/ /]. *)
Definition regexp_space (s : string) : option nat :=
  match s with
  | String c _ => if is_space c then Some 1 else None
  | EmptyString => None
  end.

(** ** Runs of slashes, as the specification words them

    The runs of a string are its maximal blocks of one repeated character.
    [collapse_slash_runs] rewrites every run of two or more slashes to a
    single slash and leaves every other run as it is. *)
Fixpoint runs (s : string) : list (ascii * nat) :=
  match s with
  | EmptyString => []
  | String c r =>
      match runs r with
      | (c', n) :: t => if Ascii.eqb c c' then (c, S n) :: t else (c, 1) :: (c', n) :: t
      | [] => [(c, 1)]
      end
  end.

Fixpoint repeat_char (c : ascii) (n : nat) (tail : string) : string :=
  match n with
  | O => tail
  | S n' => String c (repeat_char c n' tail)
  end.

Fixpoint of_runs (l : list (ascii * nat)) : string :=
  match l with
  | [] => EmptyString
  | (c, n) :: t => repeat_char c n (of_runs t)
  end.

Definition collapse_run (run : ascii * nat) : ascii * nat :=
  if is_slash (fst run) && (2 <=? snd run) then (fst run, 1) else run.

Definition collapse_slash_runs (s : string) : string :=
  of_runs (map collapse_run (runs s)).

(** A list of runs is maximal when no run is empty and neighbours differ. *)
Fixpoint maximal_runs (l : list (ascii * nat)) : Prop :=
  match l with
  | [] => True
  | (c, n) :: t =>
      1 <= n
      /\ match t with
         | (c', _) :: _ => c <> c'
         | [] => True
         end
      /\ maximal_runs t
  end.

(** Whether two slashes stand side by side somewhere in a string. *)
Fixpoint has_double_slash (s : string) : bool :=
  match s with
  | EmptyString => false
  | String c r =>
      match r with
      | String c' _ => (is_slash c && is_slash c') || has_double_slash r
      | EmptyString => false
      end
  end.

(** The same rewriting, one character at a time: a slash that another slash
    follows is dropped. *)
Fixpoint squeeze (s : string) : string :=
  match s with
  | EmptyString => EmptyString
  | String c r =>
      match r with
      | String c' _ => if is_slash c && is_slash c' then squeeze r else String c (squeeze r)
      | EmptyString => String c EmptyString
      end
  end.

(** The characters of a string that satisfy [p], in order. *)
Fixpoint string_filter (p : ascii -> bool) (s : string) : string :=
  match s with
  | EmptyString => EmptyString
  | String c r => if p c then String c (string_filter p r) else string_filter p r
  end.

(** Whether some character of a string satisfies [p]. *)
Fixpoint string_exists (p : ascii -> bool) (s : string) : bool :=
  match s with
  | EmptyString => false
  | String c r => p c || string_exists p r
  end.

(** [String.prototype.includes]. *)
Fixpoint includes (s sub : string) : bool :=
  String.prefix sub s
  || match s with
     | EmptyString => false
     | String _ r => includes r sub
     end.

(** ** [Array.prototype.sort] with a comparator

    The sort is stable; the model inserts each element, from the last to the
    first, in front of the sorted rest and moves it right while the comparator
    says it goes after the next one ([comparefn(x, y) > 0]). *)
Fixpoint sort_insert {A : Type} (comparefn : A -> A -> Z) (x : A) (l : list A) : list A :=
  match l with
  | [] => [x]
  | y :: t =>
      if (0 <? comparefn x y)%Z then y :: sort_insert comparefn x t else x :: y :: t
  end.

Fixpoint Array_sort {A : Type} (comparefn : A -> A -> Z) (l : list A) : list A :=
  match l with
  | [] => []
  | x :: t => sort_insert comparefn x (Array_sort comparefn t)
  end.

(* ===================================================================== *)
(** * Data model (the types of the configuration and of the transport) *)
(* ===================================================================== *)

Record Header : Type := mkHeader { key : string; value : string }.

(** The value of a header in a Node header dictionary:
    [string | string[] | undefined]. *)
Inductive HeaderValue : Type :=
| HVUndefined
| HVString (s : string)
| HVArray (l : list string).

(** [if (v)]: [undefined] and the empty string are falsy, an array is truthy. *)
Definition hv_truthy (v : HeaderValue) : bool :=
  match v with
  | HVUndefined => false
  | HVString s => truthy s
  | HVArray _ => true
  end.

Record Rule : Type := mkRule {
  rule_target : string;
  rule_modifier : string;
  rule_value : string;
  rule_isRegex : bool }.

Record RouteResponse : Type := mkRouteResponse {
  rr_uuid : string;
  rr_statusCode : nat;
  rr_headers : list Header;
  rr_body : string;
  rr_filePath : string;
  rr_latency : nat;
  rr_disableTemplating : bool;
  rr_sendFileAsBody : bool;
  rr_rules : list Rule;
  rr_default : bool }.

Record Route : Type := mkRoute {
  route_uuid : string;
  route_method : string;
  route_endpoint : string;
  route_enabled : bool;
  route_responses : list RouteResponse;
  route_randomResponse : bool;
  route_sequentialResponse : bool }.

Record Environment : Type := mkEnvironment {
  env_uuid : string;
  env_port : nat;
  env_latency : nat;
  env_https : bool;
  env_headers : list Header;
  env_cors : bool;
  env_endpointPrefix : string;
  env_proxyMode : bool;
  env_proxyHost : string;
  env_proxyReqHeaders : list Header;
  env_proxyResHeaders : list Header;
  env_proxyRemovePrefix : bool;
  env_routes : list Route }.

Record MockoonServerOptions : Type := mkOptions {
  refreshEnvironmentFunction : option (string -> option Environment) }.

(** The express request, with the properties the engine adds to it. *)
Record Request : Type := mkRequest {
  req_method : string;
  req_url : string;
  req_originalUrl : string;
  req_route : option string;
  req_params : Obj string;
  req_query : Obj string;
  req_headers : Obj HeaderValue;
  req_body : string;
  req_rawBody : option string;
  req_proxied : bool }.

(** The express response: status, header store (keyed by lower-case name, as
    Node keeps it), the [body] property the engine records for the log, and
    what [send] was given. *)
Record Response : Type := mkResponse {
  res_statusCode : nat;
  res_headers : Obj HeaderValue;
  res_body : option string;
  res_sent : option string;
  res_routeUUID : option string;
  res_routeResponseUUID : option string }.

(** The outgoing proxied request ([http.ClientRequest]). *)
Record ClientRequest : Type := mkClientRequest {
  creq_headers : Obj HeaderValue;
  creq_path : string;
  creq_written : list string }.

(** The incoming proxied response ([http.IncomingMessage]): [headers] is a
    plain object. *)
Record IncomingMessage : Type := mkIncomingMessage {
  im_headers : Obj HeaderValue }.

(** The [target: any] of [setHeaders]; the code tells the shapes apart by the
    presence of [set], then of [setHeader]. *)
Inductive Target : Type :=
| TResponse (r : Response)
| TClientRequest (r : ClientRequest)
| TIncomingMessage (m : IncomingMessage).

Record NameValue : Type := mkNameValue { nv_name : string; nv_value : string }.

Record TransactionRequest : Type := mkTransactionRequest {
  tx_method : string;
  tx_urlPath : string;
  tx_route : option string;
  tx_params : list NameValue;
  tx_queryParams : list NameValue;
  tx_body : string;
  tx_headers : list Header }.

Record TransactionResponse : Type := mkTransactionResponse {
  txr_statusCode : nat;
  txr_headers : list Header;
  txr_body : option string }.

Record Transaction : Type := mkTransaction {
  tx_request : TransactionRequest;
  tx_response : TransactionResponse;
  tx_routeResponseUUID : option string;
  tx_routeUUID : option string;
  tx_proxied : bool }.

Inductive ServerErrorCodes : Type :=
| UNKNOWN_SERVER_ERROR
| PORT_ALREADY_USED
| PORT_INVALID
| REQUEST_BODY_PARSE
| ROUTE_CREATION_ERROR
| ROUTE_CREATION_ERROR_REGEX
| ROUTE_FILE_SERVING_ERROR
| ROUTE_SERVING_ERROR
| PROXY_ERROR.

(** What [this.emit] is called with. *)
Inductive ServerEvent : Type :=
| Ev_started
| Ev_stopped
| Ev_creating_proxy
| Ev_entering_request
| Ev_transaction_complete (t : Transaction)
| Ev_error (code : ServerErrorCodes) (error : Error).

(** The messages of [Texts.EN.MESSAGES] the engine uses. *)
Record Messages : Type := mkMessages {
  ROUTE_NO_LONGER_EXISTS : string;
  HEADER_PARSING_ERROR : string;
  PROXY_ERROR_MESSAGE : string;
  ROUTE_SERVING_ERROR_MESSAGE : string;
  ROUTE_FILE_SERVING_ERROR_MESSAGE : string }.

(** The instance: [this.environment], [this.options] and the events emitted
    so far, oldest first. *)
Record MockoonServer : Type := mkServer {
  environment : Environment;
  options : MockoonServerOptions;
  emitted : list ServerEvent }.

(* ===================================================================== *)
(** * Computations over a state that may throw *)
(* ===================================================================== *)

Definition M (S A : Type) : Type := S -> Completion A * S.

Definition ret {S A : Type} (a : A) : M S A := fun s => (Normal a, s).

Definition bind {S A B : Type} (m : M S A) (f : A -> M S B) : M S B :=
  fun s =>
    match m s with
    | (Normal a, s') => f a s'
    | (Throw e, s') => (Throw e, s')
    end.

Definition throw {S A : Type} (e : Error) : M S A := fun s => (Throw e, s).

(** [try { m } catch (error) { handler error }]. *)
Definition try_catch {S A : Type} (m : M S A) (handler : Error -> M S A) : M S A :=
  fun s =>
    match m s with
    | (Normal a, s') => (Normal a, s')
    | (Throw e, s') => handler e s'
    end.

Definition gets {S A : Type} (f : S -> A) : M S A := fun s => (Normal (f s), s).

Definition modify {S : Type} (f : S -> S) : M S unit := fun s => (Normal tt, f s).

(** The completion of a call to a collaborator. *)
Definition call {S A : Type} (c : Completion A) : M S A := fun s => (c, s).

(** A computation on a part [S] of a larger state [T]. *)
Definition zoom {S T A : Type} (get : T -> S) (put : S -> T -> T) (m : M S A) : M T A :=
  fun t => let (c, s') := m (get t) in (c, put s' t).

Declare Scope js_scope.
Delimit Scope js_scope with js.
Notation "x <- m ;; k" := (bind m (fun x => k))
  (at level 61, m at next level, right associativity) : js_scope.
Notation "m ;;; k" := (bind m (fun _ => k))
  (at level 61, right associativity) : js_scope.
Open Scope js_scope.

(** [l.forEach(x => ...)] where the callback updates [t]. *)
Fixpoint forEach {S A T : Type} (callback : T -> A -> M S T) (l : list A) (t : T) : M S T :=
  match l with
  | [] => ret t
  | x :: r => t' <- callback t x ;; forEach callback r t'
  end.

(* ===================================================================== *)
(** * The transport's header accessors *)
(* ===================================================================== *)

(** Node's [getHeader] and [setHeader] on an outgoing message: the store is
    keyed by the lower-case name. *)
Definition getHeader (name : string) (store : Obj HeaderValue) : HeaderValue :=
  match obj_get (toLowerCase name) store with
  | Some v => v
  | None => HVUndefined
  end.

Definition setHeader (name : string) (v : HeaderValue) (store : Obj HeaderValue)
  : Obj HeaderValue :=
  obj_set (toLowerCase name) v store.

Definition with_res_headers (store : Obj HeaderValue) (response : Response) : Response :=
  mkResponse (res_statusCode response) store (res_body response) (res_sent response)
    (res_routeUUID response) (res_routeResponseUUID response).

(** express's [response.set(field, val)] for a field that Node accepts: the
    value replaces the stored one.  The store keeps the value as it was
    handed over: of a Content-Type it gives the media type set and the number
    of values, not the charset express may complete it with.  A field that
    Node refuses makes the call throw; the calls whose field comes from the
    configuration go through [express_set] below, which checks it. *)
Definition Response_set (field : string) (val : HeaderValue) (response : Response) : Response :=
  with_res_headers (setHeader field val (res_headers response)) response.

(** The value express's [response.append(field, val)] hands to [set]: a
    stored truthy value is kept and the new one is put after it, in an
    array. *)
Definition append_value (prev : HeaderValue) (val : string) : HeaderValue :=
  match prev with
  | HVUndefined => HVString val
  | HVString s => if truthy s then HVArray [s; val] else HVString val
  | HVArray l => HVArray (l ++ [val])
  end.

(** express's [response.append(field, val)] for a field that Node accepts. *)
Definition Response_append (field : string) (val : string) (response : Response) : Response :=
  Response_set field (append_value (getHeader field (res_headers response)) val) response.

(** express's [response.status(code)]. *)
Definition Response_status (code : nat) (response : Response) : Response :=
  mkResponse code (res_headers response) (res_body response) (res_sent response)
    (res_routeUUID response) (res_routeResponseUUID response).

(** [response.body = body]. *)
Definition Response_assign_body (body : string) (response : Response) : Response :=
  mkResponse (res_statusCode response) (res_headers response) (Some body) (res_sent response)
    (res_routeUUID response) (res_routeResponseUUID response).

(** express's [response.send(body)], for a response whose status code Node
    accepts (100 to 999; the head is not written with another): the payload
    handed over.  What express derives from it on the way out
    (Content-Length, an ETag, a default Content-Type, the emptied body and
    the stripped Content-Type of a 204 or a 304) is not recorded. *)
Definition Response_send (body : string) (response : Response) : Response :=
  mkResponse (res_statusCode response) (res_headers response) (res_body response) (Some body)
    (res_routeUUID response) (res_routeResponseUUID response).

(** [response.routeUUID = ...; response.routeResponseUUID = ...]. *)
Definition Response_assign_uuids (routeUUID routeResponseUUID : string) (response : Response)
  : Response :=
  mkResponse (res_statusCode response) (res_headers response) (res_body response)
    (res_sent response) (Some routeUUID) (Some routeResponseUUID).

Definition ClientRequest_getHeader (name : string) (proxyReq : ClientRequest) : HeaderValue :=
  getHeader name (creq_headers proxyReq).

(** Node's [proxyReq.setHeader(name, value)] for a field that Node accepts;
    [proxyReq_setHeader] below checks the field first. *)
Definition ClientRequest_setHeader (name : string) (v : HeaderValue) (proxyReq : ClientRequest)
  : ClientRequest :=
  mkClientRequest (setHeader name v (creq_headers proxyReq)) (creq_path proxyReq)
    (creq_written proxyReq).

(** [message.headers[name]]: the key is used as it is written. *)
Definition IncomingMessage_get (name : string) (message : IncomingMessage) : HeaderValue :=
  match obj_get name (im_headers message) with
  | Some v => v
  | None => HVUndefined
  end.

(** [message.headers[name] = v]. *)
Definition IncomingMessage_assign (name : string) (v : HeaderValue) (message : IncomingMessage)
  : IncomingMessage :=
  mkIncomingMessage (obj_set name v (im_headers message)).

(* ===================================================================== *)
(** * [utils.ts] *)
(* ===================================================================== *)

(** The value [TransformHeaders] computes for [headers[key]]. *)
Definition header_text (headerValue : option HeaderValue) : string :=
  match headerValue with
  | None => ""
  | Some HVUndefined => ""
  | Some (HVArray l) => String.concat "," l
  | Some (HVString s) => s
  end.

Definition TransformHeaders (headers : Obj HeaderValue) : list Header :=
  fold_left
    (fun newHeaders key => newHeaders ++ [mkHeader key (header_text (obj_get key headers))])
    (Object_keys headers) [].

Definition AscSort (a b : Header) : Z :=
  if (key a <? key b)%string then (-1)%Z else 1%Z.

(** [a] does not come after [b] in the order of the keys. *)
Definition key_le (a b : Header) : Prop := (key a <=? key b)%string = true.

(** The [{name, value}] list of a parameter object. *)
Definition name_values (o : Obj string) : list NameValue :=
  map (fun name =>
         mkNameValue name (match obj_get name o with Some v => v | None => "" end))
      (Object_keys o).

(** [a] comes strictly before [b] in the order of the keys. *)
Definition key_lt (a b : Header) : Prop := (key a <? key b)%string = true.

(** The values [IsEmpty] may be given: [undefined], [null], a boolean, a
    number (an integer or [NaN]; a fraction is truthy as a non-zero integer
    is), a string, an array (without holes), a plain object (its own
    enumerable entries in order), and an object whose constructor is neither
    [Object] nor [Array] (an instance of a class, a [Date], a function, an
    object without prototype). *)
#[warnings="-register-all"]
Inductive JSValue : Type :=
| JSUndefined
| JSNull
| JSBoolean (b : bool)
| JSNumber (n : Z)
| JSNaN
| JSString (s : string)
| JSArray (elements : list JSValue)
| JSObject (entries : list (string * JSValue))
| JSInstance (entries : list (string * JSValue)).

(** [if (v)]. *)
Definition js_truthy (v : JSValue) : bool :=
  match v with
  | JSUndefined => false
  | JSNull => false
  | JSBoolean b => b
  | JSNumber n => negb (n =? 0)%Z
  | JSNaN => false
  | JSString s => truthy s
  | JSArray _ => true
  | JSObject _ => true
  | JSInstance _ => true
  end.

(** [[Object, Array].includes(v.constructor)], for a value that is neither
    [undefined] nor [null]. *)
Definition constructor_is_Object_or_Array (v : JSValue) : bool :=
  match v with
  | JSArray _ => true
  | JSObject _ => true
  | _ => false
  end.

(** [Object.entries(v).length]. *)
Definition entries_length (v : JSValue) : nat :=
  match v with
  | JSString s => String.length s
  | JSArray elements => length elements
  | JSObject entries => length entries
  | JSInstance entries => length entries
  | _ => 0
  end.

(** [IsEmpty(obj)]. *)
Definition IsEmpty (obj : JSValue) : bool :=
  let value := if js_truthy obj then obj else JSObject [] in
  constructor_is_Object_or_Array value && (entries_length value =? 0).

Section Utils.

(** [new URL(url, 'http://localhost/').pathname], of Node's URL parser. *)
Variable URL_pathname : string -> string.

Definition CreateTransaction (request : Request) (response : Response) : Transaction :=
  mkTransaction
    (mkTransactionRequest
       (req_method request)
       (URL_pathname (req_originalUrl request))
       (req_route request)
       (name_values (req_params request))
       (name_values (req_query request))
       (req_body request)
       (Array_sort AscSort (TransformHeaders (req_headers request))))
    (mkTransactionResponse
       (res_statusCode response)
       (Array_sort AscSort (TransformHeaders (res_headers response)))
       (res_body response))
    (res_routeResponseUUID response)
    (res_routeUUID response)
    (req_proxied request || false).

End Utils.

(* ===================================================================== *)
(** * [response-rules-interpreter.ts] *)
(* ===================================================================== *)

(** [new ResponseRulesInterpreter(routeResponses, request, isRandom, isSequential)]. *)
Record ResponseRulesInterpreter : Type := mkInterpreter {
  rri_routeResponses : list RouteResponse;
  rri_request : Request;
  rri_isRandom : bool;
  rri_isSequential : bool }.

Section Selector.

(** Whether the rules of a response hold for a request, combined by the
    configured operator: the rule grammar is outside the engine. *)
Variable rules_satisfied : RouteResponse -> Request -> bool.

(** Modelled from the spec: the class [ResponseRulesInterpreter] of
    [./response-rules-interpreter], whose method [chooseResponse] the route
    handler calls, is not among the sources.  Section 4.2: "If
    sequentialResponse: pick responses[counter mod len(responses)].  Else if
    randomResponse: pick a uniformly random index in [0, len(responses)).
    Else (rule-based): evaluate each response's Rules against the
    RequestSnapshot in declared order; return the first response whose rules
    all evaluate true; if none match, return the first response flagged as
    default, else fall back to the first response in the list."  Section 8
    fixes what the counter of the sequential policy counts: "requests 1..2N
    select responses in the exact cyclic order 0,1,...,N-1,0,1,...,N-1", so
    the first request selects the response 0 and the counter is the number
    of requests served before.  The handler numbers the requests from 1
    ([requestNumber]), which makes the counter [requestNumber - 1].  [draw]
    is the random number of the call; the result is [None] for
    [undefined]. *)
Definition chooseResponse (interpreter : ResponseRulesInterpreter) (draw : nat)
  (requestNumber : nat) : option RouteResponse :=
  let responses := rri_routeResponses interpreter in
  if rri_isSequential interpreter then
    nth_error responses ((requestNumber - 1) mod length responses)
  else if rri_isRandom interpreter then
    nth_error responses (draw mod length responses)
  else
    match find (fun response => rules_satisfied response (rri_request interpreter)) responses with
    | Some response => Some response
    | None =>
        match find rr_default responses with
        | Some response => Some response
        | None => hd_error responses
        end
    end.

End Selector.

(* ===================================================================== *)
(** * [server.ts]: class [MockoonServer] *)
(* ===================================================================== *)

Definition with_environment (updatedEnvironment : Environment) (this : MockoonServer)
  : MockoonServer :=
  mkServer updatedEnvironment (options this) (emitted this).

(** [this.emit(...)]. *)
Definition emit (event : ServerEvent) : M MockoonServer unit :=
  modify (fun this => mkServer (environment this) (options this) (emitted this ++ [event])).

(** Whether an optional value is there: a function is truthy, [undefined] is not. *)
Definition is_defined {A : Type} (o : option A) : bool :=
  match o with Some _ => true | None => false end.

(** The variables a route handler closes over: the instance and the
    [requestNumber] of its route. *)
Record RouteClosure : Type := mkClosure {
  cl_this : MockoonServer;
  cl_requestNumber : nat }.

(** A method call on [this] from inside a route handler. *)
Definition on_this {A : Type} (m : M MockoonServer A) : M RouteClosure A :=
  zoom cl_this (fun this closure => mkClosure this (cl_requestNumber closure)) m.

(** What a route handler leaves behind when it returns: the response already
    sent, or the timer that will serve the chosen response after its latency. *)
Inductive HandlerResult : Type :=
| Sent (response : Response)
| Deferred (response : Response) (enabledRouteResponse : RouteResponse) (delay : nat).

(** Reading a property of [undefined]. *)
Definition TypeError : Error := mkError "TypeError" "Cannot read properties of undefined".

(** A route registered on the express application by [setRoutes]. *)
Record RegisteredRoute : Type := mkRegistered {
  reg_method : string;
  reg_routePath : string;
  reg_declaredRoute : Route;
  reg_requestNumber : nat }.

(** The calls of [server.use] and of the route registration in [start], in
    order: express runs them in this order for a request. *)
Inductive Middleware : Type :=
| mw_emitEvent
| mw_delayResponse
| mw_deduplicateSlashes
| mw_cookieParser
| mw_parseBody
| mw_logRequest
| mw_setResponseHeaders
| mw_setRoutes
| mw_setCors
| mw_enableProxy
| mw_errorHandler.

Definition Middleware_eqb (a b : Middleware) : bool :=
  match a, b with
  | mw_emitEvent, mw_emitEvent
  | mw_delayResponse, mw_delayResponse
  | mw_deduplicateSlashes, mw_deduplicateSlashes
  | mw_cookieParser, mw_cookieParser
  | mw_parseBody, mw_parseBody
  | mw_logRequest, mw_logRequest
  | mw_setResponseHeaders, mw_setResponseHeaders
  | mw_setRoutes, mw_setRoutes
  | mw_setCors, mw_setCors
  | mw_enableProxy, mw_enableProxy
  | mw_errorHandler, mw_errorHandler => true
  | _, _ => false
  end.

Definition start_stack : list Middleware :=
  [ mw_emitEvent; mw_delayResponse; mw_deduplicateSlashes; mw_cookieParser;
    mw_parseBody; mw_logRequest; mw_setResponseHeaders;
    mw_setRoutes; mw_setCors; mw_enableProxy; mw_errorHandler ].

Definition with_url (url : string) (request : Request) : Request :=
  mkRequest (req_method request) url (req_originalUrl request) (req_route request)
    (req_params request) (req_query request) (req_headers request) (req_body request)
    (req_rawBody request) (req_proxied request).

(** The middleware [deduplicateSlashes]. *)
Definition deduplicateSlashes (request : Request) : Request :=
  with_url (replace_global regexp_slashes "/" (req_url request)) request.

(** What a stage of the stack does to [request.url]: only
    [deduplicateSlashes] assigns it. *)
Definition middleware_url (stage : Middleware) (request : Request) : Request :=
  match stage with
  | mw_deduplicateSlashes => deduplicateSlashes request
  | _ => request
  end.

(** The stages a request goes through before it reaches [stage]. *)
Fixpoint stages_before (stage : Middleware) (stack : list Middleware) : list Middleware :=
  match stack with
  | [] => []
  | s :: rest => if Middleware_eqb s stage then [] else s :: stages_before stage rest
  end.

(** The request as the routes registered by [setRoutes] see it. *)
Definition request_at_routes (request : Request) : Request :=
  fold_left (fun r stage => middleware_url stage r) (stages_before mw_setRoutes start_stack)
    request.

(** [sendError(response, errorMessage, status?)]. *)
Definition sendError (response : Response) (errorMessage : string) (status : option nat)
  : Response :=
  let response := Response_set "Content-Type" (HVString "text/plain") response in
  let response := Response_assign_body errorMessage response in
  let response :=
    match status with
    | Some code => Response_status code response
    | None => response
    end in
  Response_send errorMessage response.

(** [refreshEnvironment()]. *)
Definition refreshEnvironment : M MockoonServer unit :=
  opts <- gets options ;;
  env <- gets environment ;;
  match refreshEnvironmentFunction opts with
  | Some refresh =>
      if truthy (env_uuid env) then
        match refresh (env_uuid env) with
        | Some updatedEnvironment => modify (with_environment updatedEnvironment)
        | None => ret tt
        end
      else ret tt
  | None => ret tt
  end.

(** [getRefreshedRoute(currentRoute)]; [None] is [undefined]. *)
Definition getRefreshedRoute (currentRoute : Route) : M MockoonServer (option Route) :=
  opts <- gets options ;;
  env <- gets environment ;;
  if is_defined (refreshEnvironmentFunction opts) && truthy (env_uuid env) then
    ret (find (fun route => (route_uuid route =? route_uuid currentRoute)%string)
              (env_routes env))
  else ret (Some currentRoute).

(** [appendHeaderValue(currentValue, newValue)]. *)
Definition appendHeaderValue (currentValue : HeaderValue) (newValue : string) : HeaderValue :=
  let headerValue := HVString newValue in
  if hv_truthy currentValue then
    match currentValue with
    | HVArray l => HVArray (l ++ [newValue])
    | HVString s => HVArray [s; newValue]
    | HVUndefined => headerValue
    end
  else headerValue.

(** express's [response.end()] with no data. *)
Definition Response_end (response : Response) : Response :=
  mkResponse (res_statusCode response) (res_headers response) (res_body response) (Some "")
    (res_routeUUID response) (res_routeResponseUUID response).

(** [request.proxied = proxied]. *)
Definition with_proxied (proxied : bool) (request : Request) : Request :=
  mkRequest (req_method request) (req_url request) (req_originalUrl request)
    (req_route request) (req_params request) (req_query request) (req_headers request)
    (req_body request) (req_rawBody request) proxied.

(** [request.rawBody = rawBody; request.body = body]. *)
Definition with_bodies (rawBody body : string) (request : Request) : Request :=
  mkRequest (req_method request) (req_url request) (req_originalUrl request)
    (req_route request) (req_params request) (req_query request) (req_headers request)
    body (Some rawBody) (req_proxied request).

(** [proxyReq.path = path]. *)
Definition with_path (path : string) (proxyReq : ClientRequest) : ClientRequest :=
  mkClientRequest (creq_headers proxyReq) path (creq_written proxyReq).

(** [proxyReq.write(chunk)]. *)
Definition ClientRequest_write (chunk : string) (proxyReq : ClientRequest) : ClientRequest :=
  mkClientRequest (creq_headers proxyReq) (creq_path proxyReq)
    (creq_written proxyReq ++ [chunk]).

(** The target [setHeaders] hands back, read as the object it was given. *)
Definition as_response (target : Target) (response : Response) : Response :=
  match target with
  | TResponse response' => response'
  | _ => response
  end.

Definition as_proxyReq (target : Target) (proxyReq : ClientRequest) : ClientRequest :=
  match target with
  | TClientRequest proxyReq' => proxyReq'
  | _ => proxyReq
  end.

Definition as_proxyRes (target : Target) (proxyRes : IncomingMessage) : IncomingMessage :=
  match target with
  | TIncomingMessage proxyRes' => proxyRes'
  | _ => proxyRes
  end.

(** The objects the timer callback of a route handler works on: the instance
    and the response, which it mutates in place. *)
Record Serving : Type := mkServing {
  sv_this : MockoonServer;
  sv_response : Response }.

(** A method call on [this] from inside the callback. *)
Definition on_server {A : Type} (m : M MockoonServer A) : M Serving A :=
  zoom sv_this (fun this serving => mkServing this (sv_response serving)) m.

(** A call that mutates the response. *)
Definition on_response (f : Response -> Response) : M Serving unit :=
  modify (fun serving => mkServing (sv_this serving) (f (sv_response serving))).

(** A call on the response that may throw: it then leaves the response as it
    was. *)
Definition try_response (f : Response -> Completion Response) : M Serving unit :=
  fun serving =>
    match f (sv_response serving) with
    | Normal response => (Normal tt, mkServing (sv_this serving) response)
    | Throw error => (Throw error, serving)
    end.

(** The text between two double quotes. *)
Definition quoted (s : string) : string :=
  (String (ascii_of_nat 34) s ++ String (ascii_of_nat 34) EmptyString)%string.

(** The matcher of [/\\/]: one backslash. *)
Definition regexp_backslash (s : string) : option nat :=
  match s with
  | String c _ => if Ascii.eqb c (ascii_of_nat 92) then Some 1 else None
  | EmptyString => None
  end.

(** [s.replace(regExp, replacement)] with a regular expression that is not
    global: the first match, at index [fst] and of length [snd], is replaced. *)
Definition replace_first (exec : string -> option (nat * nat)) (replacement : string)
  (s : string) : string :=
  match exec s with
  | Some (index, len) =>
      (String.substring 0 index s ++ replacement ++ string_drop (index + len) s)%string
  | None => s
  end.

(** The value a request holds under a header name ([request.header(name)] of
    express, for a name other than Referer). *)
Definition Request_header (name : string) (request : Request) : HeaderValue :=
  match obj_get (toLowerCase name) (req_headers request) with
  | Some v => v
  | None => HVUndefined
  end.

(** [value.includes(part)], on a string or on an array. *)
Definition hv_includes (v : HeaderValue) (part : string) : bool :=
  match v with
  | HVUndefined => false
  | HVString s => includes s part
  | HVArray l => existsb (String.eqb part) l
  end.

(** What [parseBody] leaves on the request: the request with [rawBody] and
    [body], and the parsed [bodyJSON] or [bodyForm] when there is one. *)
Record ParsedRequest (JSON Form : Type) : Type := mkParsed {
  pr_request : Request;
  pr_bodyJSON : option JSON;
  pr_bodyForm : option Form }.
Arguments mkParsed {JSON Form} _ _ _.
Arguments pr_request {JSON Form} _.
Arguments pr_bodyJSON {JSON Form} _.
Arguments pr_bodyForm {JSON Form} _.

(** Whether a call returned. *)
Definition returned {A : Type} (completion : Completion A) : bool :=
  match completion with
  | Normal _ => true
  | Throw _ => false
  end.

(* ===================================================================== *)
(** * Observations on a header target *)
(* ===================================================================== *)

(** How many values a stored header value stands for. *)
Definition hv_count (v : HeaderValue) : nat :=
  match v with
  | HVUndefined => 0
  | HVString _ => 1
  | HVArray l => length l
  end.

(** The values of a stored header value, in order. *)
Definition hv_values (v : HeaderValue) : list string :=
  match v with
  | HVUndefined => []
  | HVString s => [s]
  | HVArray l => l
  end.

(** What the target holds under a name, by the accessor of its shape. *)
Definition target_get (target : Target) (name : string) : HeaderValue :=
  match target with
  | TResponse response => getHeader name (res_headers response)
  | TClientRequest proxyReq => ClientRequest_getHeader name proxyReq
  | TIncomingMessage proxyRes => IncomingMessage_get name proxyRes
  end.

(** The number of Content-Type values on a target.  The two outgoing shapes
    keep one entry per lower-case name; the plain object of an incoming
    message may hold the name in several spellings. *)
Definition content_type_count (target : Target) : nat :=
  match target with
  | TResponse response => hv_count (getHeader "content-type" (res_headers response))
  | TClientRequest proxyReq => hv_count (getHeader "content-type" (creq_headers proxyReq))
  | TIncomingMessage proxyRes =>
      list_sum
        (map (fun entry =>
                if (toLowerCase (fst entry) =? "content-type")%string
                then hv_count (snd entry) else 0)
             (im_headers proxyRes))
  end.

(** The response a handler call chose, when it chose one. *)
Definition selected (completion : Completion HandlerResult) : option RouteResponse :=
  match completion with
  | Normal (Deferred _ enabledRouteResponse _) => Some enabledRouteResponse
  | Normal (Sent _) => None
  | Throw _ => None
  end.

(** Whether a handler call answered at once, which only the branch of the
    route that no longer exists does. *)
Definition answered_gone (completion : Completion HandlerResult) : bool :=
  match completion with
  | Normal (Sent _) => true
  | _ => false
  end.

(** [body] holds [part] as a substring. *)
Definition contains (body part : string) : Prop :=
  exists before after : string, body = (before ++ part ++ after)%string.

(** The values that count when a header is appended: a falsy value is
    dropped. *)
Definition live_values (v : HeaderValue) : list string :=
  if hv_truthy v then hv_values v else [].

(** Whether two header names go to the same entry of a target: the outgoing
    shapes key their store by the lower-case name, the plain object of an
    incoming message by the name as written. *)
Definition same_slot (target : Target) (name name' : string) : bool :=
  match target with
  | TIncomingMessage _ => (name =? name')%string
  | _ => (toLowerCase name =? toLowerCase name')%string
  end.

(** Whether a header name is one that [setHeaders] replaces on the target. *)
Definition replaced_slot (target : Target) (name : string) : bool :=
  match target with
  | TResponse _ => (toLowerCase name =? "content-type")%string
  | _ => false
  end.

(** The parts of a target that are not its headers. *)
Definition target_rest (target : Target) : Target :=
  match target with
  | TResponse response => TResponse (with_res_headers [] response)
  | TClientRequest proxyReq =>
      TClientRequest (mkClientRequest [] (creq_path proxyReq) (creq_written proxyReq))
  | TIncomingMessage _ => TIncomingMessage (mkIncomingMessage [])
  end.

(* ===================================================================== *)
(** * A sample configuration *)
(* ===================================================================== *)

Definition sample_request : Request :=
  mkRequest "GET" "/api/users/1" "/api//users///1" (Some "/api/users/:id")
    [("id", "1")] [] [("host", HVString "localhost"); ("accept", HVArray ["text/html"; "*/*"])]
    "" None false.

Definition sample_response : Response :=
  mkResponse 200 [] None None None None.

Definition sample_texts : Messages :=
  mkMessages "This route no longer exists" "-- Parsing error. Check logs for more information --"
    "An error occured while trying to proxy to " "Error while serving the content: "
    "Error while serving the file content: ".

(** A template engine that renders every text as it is, except the text
    [{{boom}}], on which it throws. *)
Definition sample_TemplateParser (content : string) (request : Request) (env : Environment)
  : Completion string :=
  if (content =? "{{boom}}")%string then Throw (mkError "Error" "Parse error") else Normal content.

(** A validity test that refuses the names that hold a space. *)
Definition sample_TestHeaderValidity (name : string) : bool := includes name " ".

(** A transport that refuses the values that hold a line feed. *)
Definition line_feed : string := String (ascii_of_nat 10) EmptyString.

Definition sample_setHeader_error (name : string) (v : HeaderValue) : option Error :=
  if existsb (fun text => includes text line_feed)
       match v with
       | HVUndefined => []
       | HVString text => [text]
       | HVArray texts => texts
       end
  then Some (mkError "TypeError" "Invalid character in header content")
  else None.

Definition sample_rules_satisfied (response : RouteResponse) (request : Request) : bool :=
  match rr_rules response with
  | [] => false
  | _ :: _ => true
  end.

Definition sample_routeResponse (uuid body : string) : RouteResponse :=
  mkRouteResponse uuid 200 [mkHeader "Content-Type" "application/json"] body "" 0 false false []
    false.

Definition sample_route (sequential : bool) (responses : list RouteResponse) : Route :=
  mkRoute "route-1" "get" "users/:id" true responses false sequential.

Definition sample_environment (uuid : string) (routes : list Route) : Environment :=
  mkEnvironment uuid 3000 0 false [mkHeader "Content-Type" "text/html"] true "api" true
    "http://upstream.test" [] [] false routes.

Definition sample_server (env : Environment) (refresh : option (string -> option Environment))
  : MockoonServer :=
  mkServer env (mkOptions refresh) [].

Definition response_a : RouteResponse := sample_routeResponse "response-a" "first".
Definition response_b : RouteResponse := sample_routeResponse "response-b" "second".

Definition sequential_route : Route := sample_route true [response_a; response_b].
Definition rule_route : Route := sample_route false [response_a].
Definition other_route : Route := mkRoute "route-2" "get" "other" true [response_b] false false.

(** A server that is never refreshed. *)
Definition static_server (route : Route) : MockoonServer :=
  sample_server (sample_environment "env-1" [route]) None.

(** A server whose refresh function returns an environment from which the
    route "route-1" is gone. *)
Definition refreshed_without_route : Environment := sample_environment "env-2" [other_route].

Definition removing_server : MockoonServer :=
  sample_server (sample_environment "env-1" [rule_route])
    (Some (fun _ => Some refreshed_without_route)).

(** The same, with a refreshed environment that has no uuid. *)
Definition refreshed_without_uuid : Environment := sample_environment "" [other_route].

Definition unnamed_server : MockoonServer :=
  sample_server (sample_environment "env-1" [rule_route])
    (Some (fun _ => Some refreshed_without_uuid)).

Definition proxied_request_target : Target :=
  TClientRequest (mkClientRequest [("content-type", HVString "text/html")] "/api/users/1" []).


Definition four_requests : list (Request * Response * nat) :=
  repeat (sample_request, sample_response, 0) 4.

Definition refused_header : Header := mkHeader "Bad Name" "text".
Definition failing_header : Header := mkHeader "X-Test" "{{boom}}".
Definition content_type_header : Header := mkHeader "Content-Type" "application/json".

(** Stand-ins for the helpers of the commons package, of mime-types, of path
    and of fs on the sample configuration. *)
Definition sample_GetContentType (headers : list Header) : option string :=
  match find (fun header => (toLowerCase (key header) =? "content-type")%string) headers with
  | Some header => Some (value header)
  | None => None
  end.

Definition sample_GetRouteResponseContentType (env : Environment) (response : RouteResponse)
  : string :=
  match sample_GetContentType (rr_headers response), sample_GetContentType (env_headers env) with
  | Some contentType, _ => contentType
  | None, Some contentType => contentType
  | None, None => ""
  end.

Definition sample_mimeTypeLookup (path : string) : option string :=
  if includes path ".json" then Some "application/json"
  else if includes path ".png" then Some "image/png"
  else None.

Fixpoint sample_basename (path : string) : string :=
  match path with
  | EmptyString => EmptyString
  | String c rest =>
      if string_exists is_slash rest then sample_basename rest
      else if is_slash c then rest else path
  end.

Definition sample_readFile (path : string) : Completion string :=
  if (path =? "/data/missing.json")%string
  then Throw (mkError "Error" "ENOENT: no such file or directory")
  else Normal "file-bytes".

Definition sample_Buffer_toString (bytes : string) : string := bytes.

Definition sample_MimeTypesWithTemplating : list string :=
  ["application/json"; "text/html"; "text/plain"].

Definition sample_BINARY_BODY : string := "BINARY-BODY".

Definition sample_CORSHeaders : list Header :=
  [ mkHeader "Content-Type" "application/json";
    mkHeader "Access-Control-Allow-Origin" "*";
    mkHeader "Access-Control-Allow-Methods" "GET,POST,PUT,PATCH,DELETE,HEAD,OPTIONS" ].

(** A JSON parser that accepts the texts that start with a brace. *)
Definition sample_JSON_parse (text : string) : Completion string :=
  if String.prefix "{" text then Normal text
  else Throw (mkError "SyntaxError" "Unexpected token").

Definition sample_qsParse (text : string) : Completion string := Normal text.

(** An environment that sets an origin of its own for CORS. *)
Definition cors_server : MockoonServer :=
  sample_server
    (mkEnvironment "env-1" 3000 0 false
       [mkHeader "Access-Control-Allow-Origin" "https://app.test"] true "api" false "" [] []
       false [])
    None.

Definition json_request : Request :=
  mkRequest "POST" "/api/users" "/api/users" None [] []
    [("content-type", HVString "application/json; charset=utf-8")] "" None false.


Definition failing_response : RouteResponse :=
  mkRouteResponse "response-f" 201 [mkHeader "Content-Type" "application/json"] "{{boom}}" "" 0
    false false [] false.

Definition missing_file_response : RouteResponse :=
  mkRouteResponse "response-m" 200 [] "" "/data/missing.json" 0 false false [] false.

Definition image_response : RouteResponse :=
  mkRouteResponse "response-i" 200 [] "" "/data/logo.png" 0 false true [] false.

(** A response with a header value that the sample transport refuses. *)
Definition refused_value_response : RouteResponse :=
  mkRouteResponse "response-r" 200
    [mkHeader "X-One" "1"; mkHeader "X-Bad" ("a" ++ line_feed ++ "b")] "body" "" 0 true false
    [] false.

Section Server.

(** [TestHeaderValidity] of the commons package: [true] when the name holds a
    character that a header name may not hold. *)
Variable TestHeaderValidity : string -> bool.

(** What a write of a header field throws when Node refuses the field, by
    the name and the value handed over: the name is not a token, or the
    value holds a character that a header may not hold
    (ERR_INVALID_HTTP_TOKEN, ERR_INVALID_CHAR); [None] when the field is
    stored.  The check is the one of Node's [setHeader(name, value)];
    express's [append] ends in [set], and [set] in [setHeader]. *)
Variable setHeader_error : string -> HeaderValue -> option Error.

(** [TemplateParser(content, request, environment)] of [./template-parser]:
    the rendered text, or the error it throws. *)
Variable TemplateParser : string -> Request -> Environment -> Completion string.

(** [Texts.EN.MESSAGES] of [../i18n/en]. *)
Variable Texts : Messages.

Variable rules_satisfied : RouteResponse -> Request -> bool.

(** [server[method](routePath, handler)] of express: it throws when the path
    is not a pattern it accepts. *)
Variable express_route : string -> string -> Completion unit.

(** [new URL(url, 'http://localhost/').pathname], of Node's URL parser. *)
Variable URL_pathname : string -> string.

(** [GetRouteResponseContentType(environment, routeResponse)] and
    [GetContentType(headers)] of the commons package; [None] is [null]. *)
Variable GetRouteResponseContentType : Environment -> RouteResponse -> string.
Variable GetContentType : list Header -> option string.

(** [lookup] of mime-types ([None] is [false]) and [basename] of path. *)
Variable mimeTypeLookup : string -> option string.
Variable basename : string -> string.

(** What [readFile(path, callback)] gives its callback: the data, or the
    read error. *)
Variable readFile : string -> Completion string.

(** [buffer.toString()]: the bytes decoded as UTF-8. *)
Variable Buffer_toString : string -> string.

(** [MimeTypesWithTemplating], [BINARY_BODY] and [CORSHeaders] of the commons
    package. *)
Variable MimeTypesWithTemplating : list string.
Variable BINARY_BODY : string.
Variable CORSHeaders : list Header.

(** [JSON.parse] and [parse] of qs (with [depth: 10]), and the types of their
    results. *)
Variable JSON : Type.
Variable Form : Type.
Variable JSON_parse : string -> Completion JSON.
Variable qsParse : string -> Completion Form.

(** [new RegExp(source)], which throws a SyntaxError on a source that is not a
    regular expression; the expression made tells where it first matches a
    string (index and length), if it does. *)
Variable RegExp : string -> Completion (string -> option (nat * nat)).

(** The test of [parseHeader] that lets a header through. *)
Definition header_accepted (header : Header) : bool :=
  truthy (key header) && truthy (value header) && negb (TestHeaderValidity (key header)).

(** [parseHeader(header, request)]; [None] is [null]. *)
Definition parseHeader (header : Header) (request : Request) : M MockoonServer (option string) :=
  if header_accepted header then
    try_catch
      (env <- gets environment ;;
       parsed <- call (TemplateParser (value header) request env) ;;
       ret (Some parsed))
      (fun error =>
         let errorMessage := HEADER_PARSING_ERROR Texts in
         ret (Some errorMessage))
  else ret None.

(** express's [response.set(field, val)] and [response.append(field, val)]
    and Node's [proxyReq.setHeader(name, value)] with a field that Node may
    refuse: the call throws Node's error and stores nothing. *)
Definition express_set (field : string) (val : HeaderValue) (response : Response)
  : Completion Response :=
  match setHeader_error field val with
  | Some error => Throw error
  | None => Normal (Response_set field val response)
  end.

Definition express_append (field val : string) (response : Response) : Completion Response :=
  express_set field (append_value (getHeader field (res_headers response)) val) response.

Definition proxyReq_setHeader (name : string) (v : HeaderValue) (proxyReq : ClientRequest)
  : Completion ClientRequest :=
  match setHeader_error name v with
  | Some error => Throw error
  | None => Normal (ClientRequest_setHeader name v proxyReq)
  end.

(** The branch of [setHeaders] that writes a parsed header value on the
    target, by the shape of the target.  The plain object of an incoming
    message takes any value; the two other shapes may refuse the field. *)
Definition write_header (header : Header) (parsedHeaderValue : string) (target : Target)
  : Completion Target :=
  match target with
  | TResponse response =>
      match
        (if (toLowerCase (key header) =? "content-type")%string
         then express_set (key header) (HVString parsedHeaderValue) response
         else express_append (key header) parsedHeaderValue response)
      with
      | Normal response => Normal (TResponse response)
      | Throw error => Throw error
      end
  | TClientRequest proxyReq =>
      match
        proxyReq_setHeader (key header)
          (appendHeaderValue (ClientRequest_getHeader (key header) proxyReq)
             parsedHeaderValue)
          proxyReq
      with
      | Normal proxyReq => Normal (TClientRequest proxyReq)
      | Throw error => Throw error
      end
  | TIncomingMessage proxyRes =>
      Normal
        (TIncomingMessage
           (IncomingMessage_assign (key header)
              (appendHeaderValue (IncomingMessage_get (key header) proxyRes)
                 parsedHeaderValue)
              proxyRes))
  end.

(** The callback of [headers.forEach] in [setHeaders].  Nothing catches what
    the write throws: it ends the [forEach], and the headers after it are
    not applied. *)
Definition setHeaders_callback (request : Request) (target : Target) (header : Header)
  : M MockoonServer Target :=
  parsedHeaderValue <- parseHeader header request ;;
  match parsedHeaderValue with
  | None => ret target
  | Some parsedHeaderValue => call (write_header header parsedHeaderValue target)
  end.

(** [setHeaders(headers, target, request)].  The target is threaded through
    the callbacks; when a write throws, the call throws and the target as it
    stood at the throw is not given back. *)
Definition setHeaders (headers : list Header) (target : Target) (request : Request)
  : M MockoonServer Target :=
  forEach (setHeaders_callback request) headers target.

(** The middleware [setResponseHeaders]. *)
Definition setResponseHeaders (request : Request) (response : Response)
  : M MockoonServer Target :=
  env <- gets environment ;;
  setHeaders (env_headers env) (TResponse response) request.

(** The [onError] hook of the proxy middleware created by [enableProxy]. *)
Definition onError (error : Error) (request : Request) (response : Response)
  : M MockoonServer Response :=
  emit (Ev_error PROXY_ERROR error) ;;;
  env <- gets environment ;;
  ret (sendError response
         (PROXY_ERROR_MESSAGE Texts ++ env_proxyHost env ++ req_url request ++ ": "
            ++ Error_toString error)%string
         (Some 504)).

(** The handler [setRoutes] registers for [declaredRoute]. *)
Definition routeHandler (declaredRoute : Route) (request : Request) (response : Response)
  (draw : nat) : M RouteClosure HandlerResult :=
  on_this refreshEnvironment ;;;
  currentRoute <- on_this (getRefreshedRoute declaredRoute) ;;
  match currentRoute with
  | None => ret (Sent (sendError response (ROUTE_NO_LONGER_EXISTS Texts) (Some 404)))
  | Some currentRoute =>
      requestNumber <- gets cl_requestNumber ;;
      let enabledRouteResponse :=
        chooseResponse rules_satisfied
          (mkInterpreter (route_responses currentRoute) request
             (route_randomResponse currentRoute) (route_sequentialResponse currentRoute))
          draw requestNumber in
      modify (fun closure => mkClosure (cl_this closure) (cl_requestNumber closure + 1)) ;;;
      match enabledRouteResponse with
      | None => throw TypeError
      | Some enabledRouteResponse =>
          let response :=
            if truthy (route_uuid declaredRoute) && truthy (rr_uuid enabledRouteResponse)
            then Response_assign_uuids (route_uuid declaredRoute)
                   (rr_uuid enabledRouteResponse) response
            else response in
          ret (Deferred response enabledRouteResponse (rr_latency enabledRouteResponse))
      end
  end.

(** The path [setRoutes] registers a route under. *)
Definition routePath (env : Environment) (declaredRoute : Route) : string :=
  replace_global regexp_slashes "/"
    ("/" ++ env_endpointPrefix env ++ "/"
       ++ replace_global regexp_space "%20" (route_endpoint declaredRoute))%string.

(** [setRoutes(server)]: the routes registered on the application, each with
    its own [requestNumber]. *)
Definition setRoutes : M MockoonServer (list RegisteredRoute) :=
  env <- gets environment ;;
  forEach
    (fun registered declaredRoute =>
       if route_enabled declaredRoute then
         try_catch
           (path <- gets (fun this => routePath (environment this) declaredRoute) ;;
            call (express_route (route_method declaredRoute) path) ;;;
            ret (registered
                   ++ [mkRegistered (route_method declaredRoute) path declaredRoute 1]))
           (fun error =>
              let errorCode :=
                if includes (err_message error) "Invalid regular expression"
                then ROUTE_CREATION_ERROR_REGEX
                else ROUTE_CREATION_ERROR in
              emit (Ev_error errorCode error) ;;;
              ret registered)
       else ret registered)
    (env_routes env) [].

(** The requests of a list served one after the other by the handler of one
    route: the completion of each call, and the closure at the end. *)
Fixpoint serve (declaredRoute : Route) (requests : list (Request * Response * nat))
  (closure : RouteClosure) : list (Completion HandlerResult) * RouteClosure :=
  match requests with
  | [] => ([], closure)
  | (request, response, draw) :: rest =>
      let (completion, closure') := routeHandler declaredRoute request response draw closure in
      let (completions, closure'') := serve declaredRoute rest closure' in
      (completion :: completions, closure'')
  end.

(** The middleware [emitEvent]. *)
Definition emitEvent : M MockoonServer unit := emit Ev_entering_request.

(** The middleware [delayResponse]: the delay after which [next] is called. *)
Definition delayResponse : M MockoonServer nat :=
  refreshEnvironment ;;;
  gets (fun this => env_latency (environment this)).

(** The middleware [parseBody], once the request has emitted its chunks and
    ['end']. *)
Definition parseBody (request : Request) (chunks : list string)
  : M MockoonServer (ParsedRequest JSON Form) :=
  let requestContentType := Request_header "Content-Type" request in
  let rawBody := String.concat "" chunks in
  let request := with_bodies rawBody (Buffer_toString rawBody) request in
  try_catch
    (if hv_truthy requestContentType then
       if hv_includes requestContentType "application/json" then
         bodyJSON <- call (JSON_parse (req_body request)) ;;
         ret (mkParsed request (Some bodyJSON) None)
       else if hv_includes requestContentType "application/x-www-form-urlencoded" then
         bodyForm <- call (qsParse (req_body request)) ;;
         ret (mkParsed request None (Some bodyForm))
       else ret (mkParsed request None None)
     else ret (mkParsed request None None))
    (fun error =>
       emit (Ev_error REQUEST_BODY_PARSE error) ;;;
       ret (mkParsed request None None)).

(** The listener [logRequest] puts on the ['close'] event of the response. *)
Definition logRequest_close (request : Request) (response : Response) : M MockoonServer unit :=
  emit (Ev_transaction_complete (CreateTransaction URL_pathname request response)).

(** The callback of the timer a route handler sets: it serves the chosen
    response.  The headers of the response are applied before the [try]:
    what [setHeaders] throws leaves the callback.  The two fields computed
    from the file are set inside it. *)
Definition serveRouteResponse (enabledRouteResponse : RouteResponse) (request : Request)
  : M Serving unit :=
  env <- on_server (gets environment) ;;
  let contentType := GetRouteResponseContentType env enabledRouteResponse in
  let routeContentType := GetContentType (rr_headers enabledRouteResponse) in
  on_response (Response_status (rr_statusCode enabledRouteResponse)) ;;;
  response <- gets sv_response ;;
  target <- on_server (setHeaders (rr_headers enabledRouteResponse) (TResponse response)
                         request) ;;
  on_response (as_response target) ;;;
  try_catch
    (if truthy (rr_filePath enabledRouteResponse) then
       env <- on_server (gets environment) ;;
       filePath <- call (TemplateParser
                           (replace_global regexp_backslash "/"
                              (rr_filePath enabledRouteResponse))
                           request env) ;;
       let fileMimeType :=
         match mimeTypeLookup filePath with
         | Some mimeType => mimeType
         | None => ""
         end in
       (if match routeContentType with Some value => truthy value | None => false end
        then ret tt
        else try_response (express_set "Content-Type" (HVString fileMimeType))) ;;;
       (if rr_sendFileAsBody enabledRouteResponse
        then ret tt
        else try_response
               (express_set "Content-Disposition"
                  (HVString ("attachment; filename=" ++ quoted (basename filePath))%string))) ;;;
       try_catch
         (data <- call (readFile filePath) ;;
          if existsb (String.eqb fileMimeType) MimeTypesWithTemplating
             && negb (rr_disableTemplating enabledRouteResponse)
          then
            env <- on_server (gets environment) ;;
            fileContent <- call (TemplateParser (Buffer_toString data) request env) ;;
            on_response (Response_assign_body fileContent) ;;;
            on_response (Response_send fileContent)
          else
            on_response (Response_assign_body BINARY_BODY) ;;;
            on_response (Response_send data))
         (fun error =>
            on_server (emit (Ev_error ROUTE_FILE_SERVING_ERROR error)) ;;;
            on_response
              (fun response =>
                 sendError response
                   (ROUTE_FILE_SERVING_ERROR_MESSAGE Texts ++ err_message error)%string None))
     else
       (if includes contentType "application/json"
        then on_response (Response_set "Content-Type" (HVString "application/json"))
        else ret tt) ;;;
       body <- (if rr_disableTemplating enabledRouteResponse
                then ret (rr_body enabledRouteResponse)
                else
                  env <- on_server (gets environment) ;;
                  call (TemplateParser
                          (if truthy (rr_body enabledRouteResponse)
                           then rr_body enabledRouteResponse else "")
                          request env)) ;;
       on_response (Response_assign_body body) ;;;
       on_response (Response_send body))
    (fun error =>
       on_server (emit (Ev_error ROUTE_SERVING_ERROR error)) ;;;
       on_response
         (fun response =>
            sendError response
              (ROUTE_SERVING_ERROR_MESSAGE Texts ++ err_message error)%string None)).

(** [setCors(server)]: whether the handler of [OPTIONS /*] is registered. *)
Definition setCors : M MockoonServer bool :=
  gets (fun this => env_cors (environment this)).

(** The handler [setCors] registers. *)
Definition corsHandler (req : Request) (res : Response) : M MockoonServer Response :=
  refreshEnvironment ;;;
  env <- gets environment ;;
  target <- setHeaders (CORSHeaders ++ env_headers env) (TResponse res) req ;;
  ret (Response_end (Response_status 200 (as_response target res))).

(** The [onProxyReq] hook of the proxy middleware created by [enableProxy]. *)
Definition onProxyReq (proxyReq : ClientRequest) (request : Request)
  : M MockoonServer (ClientRequest * Request) :=
  refreshEnvironment ;;;
  let request := with_proxied true request in
  env <- gets environment ;;
  target <- setHeaders (env_proxyReqHeaders env) (TClientRequest proxyReq) request ;;
  let proxyReq := as_proxyReq target proxyReq in
  env <- gets environment ;;
  proxyReq <- (if env_proxyRemovePrefix env && (0 <? String.length (env_endpointPrefix env))
               then
                 regExp <- call (RegExp ("^/" ++ env_endpointPrefix env)%string) ;;
                 ret (with_path (replace_first regExp "" (creq_path proxyReq)) proxyReq)
               else ret proxyReq) ;;
  let proxyReq :=
    match req_rawBody request with
    | Some rawBody => ClientRequest_write rawBody proxyReq
    | None => proxyReq
    end in
  ret (proxyReq, request).

(** The [onProxyRes] hook: the headers it puts on the response of the
    upstream server. *)
Definition onProxyRes (proxyRes : IncomingMessage) (request : Request)
  : M MockoonServer IncomingMessage :=
  refreshEnvironment ;;;
  env <- gets environment ;;
  target <- setHeaders (env_proxyResHeaders env) (TIncomingMessage proxyRes) request ;;
  ret (as_proxyRes target proxyRes).

(** The listeners [onProxyRes] puts on ['data'] and ['end']: the body the
    response records for the log. *)
Definition onProxyRes_end (chunks : list string) (response : Response) : Response :=
  Response_assign_body
    (fold_left (fun body chunk => (body ++ Buffer_toString chunk)%string) chunks "")
    response.

(** The value a header list gives for a header, when [parseHeader] lets the
    header through. *)
Definition parsed_value (this : MockoonServer) (request : Request) (header : Header)
  : option string :=
  match fst (parseHeader header request this) with
  | Normal parsed => parsed
  | Throw _ => None
  end.

(** The values a header list gives for the entry of a name on a target, in
    the order of the list. *)
Fixpoint slot_values (this : MockoonServer) (request : Request) (target : Target)
  (name : string) (headers : list Header) : list string :=
  match headers with
  | [] => []
  | header :: rest =>
      match parsed_value this request header with
      | Some parsed =>
          if same_slot target name (key header)
          then parsed :: slot_values this request target name rest
          else slot_values this request target name rest
      | None => slot_values this request target name rest
      end
  end.

(** The target after a write that the transport accepts. *)
Definition stored_header (header : Header) (parsedHeaderValue : string) (target : Target)
  : Target :=
  match target with
  | TResponse response =>
      if (toLowerCase (key header) =? "content-type")%string then
        TResponse (Response_set (key header) (HVString parsedHeaderValue) response)
      else
        TResponse (Response_append (key header) parsedHeaderValue response)
  | TClientRequest proxyReq =>
      TClientRequest
        (ClientRequest_setHeader (key header)
           (appendHeaderValue (ClientRequest_getHeader (key header) proxyReq)
              parsedHeaderValue)
           proxyReq)
  | TIncomingMessage proxyRes =>
      TIncomingMessage
        (IncomingMessage_assign (key header)
           (appendHeaderValue (IncomingMessage_get (key header) proxyRes)
              parsedHeaderValue)
           proxyRes)
  end.

(** The target after a header list of which the transport accepts every
    field. *)
Fixpoint stored_headers (this : MockoonServer) (request : Request) (headers : list Header)
  (target : Target) : Target :=
  match headers with
  | [] => target
  | header :: rest =>
      stored_headers this request rest
        match parsed_value this request header with
        | Some parsed => stored_header header parsed target
        | None => target
        end
  end.

(* ===================================================================== *)
(** * Properties *)
(* ===================================================================== *)

(** ** Dictionaries and the monad *)

Lemma obj_get_set_same {V : Type} (k : string) (v : V) (o : Obj V) :
  obj_get k (obj_set k v o) = Some v.
Proof.
  induction o as [|[k' v'] o IH]; simpl.
  - now rewrite String.eqb_refl.
  - destruct (k' =? k)%string eqn:E; simpl; now rewrite E.
Qed.

Lemma obj_get_set_other {V : Type} (k k' : string) (v : V) (o : Obj V) :
  k <> k' -> obj_get k (obj_set k' v o) = obj_get k o.
Proof.
  intros Hne. induction o as [|[a w] o IH]; simpl.
  - destruct (k' =? k)%string eqn:E; [apply String.eqb_eq in E; congruence | reflexivity].
  - destruct (a =? k')%string eqn:E1; simpl.
    + apply String.eqb_eq in E1; subst a.
      destruct (k' =? k)%string eqn:E2; [apply String.eqb_eq in E2; congruence | reflexivity].
    + destruct (a =? k)%string; [reflexivity | exact IH].
Qed.

Lemma truthy_false_iff (s : string) : truthy s = false <-> s = "".
Proof.
  unfold truthy. destruct (s =? "")%string eqn:E; simpl.
  - apply String.eqb_eq in E. split; auto.
  - apply String.eqb_neq in E. split; [discriminate | contradiction].
Qed.

Lemma truthy_true_iff (s : string) : truthy s = true <-> s <> "".
Proof.
  unfold truthy. destruct (s =? "")%string eqn:E; simpl.
  - apply String.eqb_eq in E. split; [discriminate | contradiction].
  - apply String.eqb_neq in E. split; auto.
Qed.

Lemma forEach_app {S A T : Type} (callback : T -> A -> M S T) (l1 l2 : list A) (t : T) (s : S) :
  forEach callback (l1 ++ l2) t s = (t' <- forEach callback l1 t ;; forEach callback l2 t') s.
Proof.
  revert t s. induction l1 as [|x l1 IH]; intros t s; simpl.
  - reflexivity.
  - unfold bind in *. destruct (callback t x s) as [[t'|e] s']; [|reflexivity].
    apply IH.
Qed.

(** ** The header merger *)

Lemma header_refused (header : Header) :
  key header = "" \/ value header = "" \/ TestHeaderValidity (key header) = true ->
  header_accepted header = false.
Proof.
  unfold header_accepted. intros [H|[H|H]].
  - apply truthy_false_iff in H. now rewrite H.
  - apply truthy_false_iff in H. rewrite H. now destruct (truthy (key header)).
  - rewrite H. now destruct (truthy (key header)), (truthy (value header)).
Qed.

Lemma parseHeader_refused (header : Header) (request : Request) (this : MockoonServer) :
  header_accepted header = false ->
  parseHeader header request this = (Normal None, this).
Proof.
  unfold parseHeader, header_accepted. intros ->. reflexivity.
Qed.

Lemma parseHeader_accepted (header : Header) (request : Request) (this : MockoonServer) :
  header_accepted header = true ->
  parseHeader header request this =
    (Normal (Some match TemplateParser (value header) request (environment this) with
                  | Normal parsed => parsed
                  | Throw _ => HEADER_PARSING_ERROR Texts
                  end), this).
Proof.
  unfold parseHeader, header_accepted. intros ->.
  unfold try_catch, bind, gets, call, ret.
  destruct (TemplateParser (value header) request (environment this)); reflexivity.
Qed.

(** [parseHeader] never throws and never touches the instance. *)
Lemma parseHeader_total (header : Header) (request : Request) (this : MockoonServer) :
  exists parsed, parseHeader header request this = (Normal parsed, this).
Proof.
  destruct (header_accepted header) eqn:E.
  - eexists. apply parseHeader_accepted, E.
  - eexists. apply parseHeader_refused, E.
Qed.

Lemma parseHeader_parsed_value (header : Header) (request : Request) (this : MockoonServer) :
  parseHeader header request this = (Normal (parsed_value this request header), this).
Proof.
  unfold parsed_value. destruct (parseHeader_total header request this) as [parsed ->].
  reflexivity.
Qed.

(** A write that is not refused stores the value; a write that throws throws
    the error of Node's check of the field; the plain object of an incoming
    message refuses nothing. *)
Lemma write_header_stored (header : Header) (v : string) (target target' : Target) :
  write_header header v target = Normal target' -> target' = stored_header header v target.
Proof.
  destruct target as [response|proxyReq|proxyRes]; simpl.
  - unfold express_append, express_set.
    destruct (toLowerCase (key header) =? "content-type")%string;
      destruct (setHeader_error _ _); intros H; inversion H; reflexivity.
  - unfold proxyReq_setHeader.
    destruct (setHeader_error _ _); intros H; inversion H; reflexivity.
  - intros H; inversion H; reflexivity.
Qed.

Lemma write_header_incoming (header : Header) (v : string) (proxyRes : IncomingMessage) :
  write_header header v (TIncomingMessage proxyRes)
  = Normal (stored_header header v (TIncomingMessage proxyRes)).
Proof. reflexivity. Qed.

Lemma write_header_throw (header : Header) (v : string) (target : Target) (error : Error) :
  write_header header v target = Throw error ->
  exists val : HeaderValue, setHeader_error (key header) val = Some error.
Proof.
  destruct target as [response|proxyReq|proxyRes]; simpl.
  - unfold express_append, express_set.
    destruct (toLowerCase (key header) =? "content-type")%string;
      match goal with
      | |- context [setHeader_error ?name ?val] =>
          destruct (setHeader_error name val) eqn:E; intros H; inversion H; subst;
          exists val; exact E
      end.
  - unfold proxyReq_setHeader.
    match goal with
    | |- context [setHeader_error ?name ?val] =>
        destruct (setHeader_error name val) eqn:E; intros H; inversion H; subst;
        exists val; exact E
    end.
  - discriminate.
Qed.

Lemma write_header_accepted (header : Header) (v : string) (target : Target) :
  (forall val : HeaderValue, setHeader_error (key header) val = None) ->
  write_header header v target = Normal (stored_header header v target).
Proof.
  intros Hok. destruct target as [response|proxyReq|proxyRes]; simpl.
  - unfold express_append, express_set.
    destruct (toLowerCase (key header) =? "content-type")%string; now rewrite Hok.
  - unfold proxyReq_setHeader. now rewrite Hok.
  - reflexivity.
Qed.

Lemma setHeaders_callback_cases (request : Request) (target : Target) (header : Header)
  (this : MockoonServer) :
  setHeaders_callback request target header this
  = match parsed_value this request header with
    | None => (Normal target, this)
    | Some parsed => (write_header header parsed target, this)
    end.
Proof.
  unfold setHeaders_callback, bind. rewrite parseHeader_parsed_value.
  destruct (parsed_value this request header); reflexivity.
Qed.

Lemma setHeaders_cons (header : Header) (rest : list Header) (target : Target)
  (request : Request) (this : MockoonServer) :
  setHeaders (header :: rest) target request this
  = match parsed_value this request header with
    | None => setHeaders rest target request this
    | Some parsed =>
        match write_header header parsed target with
        | Normal target1 => setHeaders rest target1 request this
        | Throw error => (Throw error, this)
        end
    end.
Proof.
  unfold setHeaders. simpl. unfold bind. rewrite setHeaders_callback_cases.
  destruct (parsed_value this request header) as [parsed|]; [|reflexivity].
  destruct (write_header header parsed target); reflexivity.
Qed.

(** A header list that [setHeaders] gets through leaves the target of the
    accepted writes, and the instance as it was. *)
Lemma setHeaders_stored (headers : list Header) (request : Request) (this : MockoonServer) :
  forall (target target' : Target) (this' : MockoonServer),
    setHeaders headers target request this = (Normal target', this') ->
    this' = this /\ target' = stored_headers this request headers target.
Proof.
  induction headers as [|header rest IH]; intros target target' this' Hrun.
  - inversion Hrun. split; reflexivity.
  - rewrite setHeaders_cons in Hrun. simpl.
    destruct (parsed_value this request header) as [parsed|]; [|now apply IH].
    destruct (write_header header parsed target) as [target1|error] eqn:Hwrite;
      [|discriminate].
    apply write_header_stored in Hwrite. subst target1. now apply IH.
Qed.

(** When [setHeaders] throws, a header of the list was let through by
    [parseHeader] and Node refused its field; the instance is as it was. *)
Lemma setHeaders_throw (headers : list Header) (request : Request) (this : MockoonServer) :
  forall (target : Target) (error : Error) (this' : MockoonServer),
    setHeaders headers target request this = (Throw error, this') ->
    this' = this
    /\ exists (header : Header) (val : HeaderValue),
         In header headers
         /\ parsed_value this request header <> None
         /\ setHeader_error (key header) val = Some error.
Proof.
  induction headers as [|header rest IH]; intros target error this' Hrun.
  - discriminate.
  - rewrite setHeaders_cons in Hrun.
    destruct (parsed_value this request header) as [parsed|] eqn:Hparsed.
    + destruct (write_header header parsed target) as [target1|thrown] eqn:Hwrite.
      * destruct (IH _ _ _ Hrun) as (Hthis & h & val & Hin & Hp & Herr).
        split; [exact Hthis|]. exists h, val. split; [now right | now split].
      * inversion Hrun; subst. split; [reflexivity|].
        destruct (write_header_throw _ _ _ _ Hwrite) as [val Herr].
        exists header, val. split; [now left|]. split; [congruence | exact Herr].
    + destruct (IH _ _ _ Hrun) as (Hthis & h & val & Hin & Hp & Herr).
      split; [exact Hthis|]. exists h, val. split; [now right | now split].
Qed.

Lemma setHeaders_incoming (headers : list Header) (request : Request) (this : MockoonServer) :
  forall proxyRes : IncomingMessage,
    setHeaders headers (TIncomingMessage proxyRes) request this
    = (Normal (stored_headers this request headers (TIncomingMessage proxyRes)), this).
Proof.
  induction headers as [|header rest IH]; intros proxyRes; [reflexivity|].
  rewrite setHeaders_cons. simpl.
  destruct (parsed_value this request header) as [parsed|]; apply IH.
Qed.


(** C3. A header whose key is empty, whose value is empty, or whose key fails
    the header-name validity test is skipped by [setHeaders]: its callback
    returns normally with the target as it was and the instance as it was (no
    event is emitted, nothing is thrown), and the headers before and after it
    in the list are applied as if it were not there. *)
Theorem setHeaders_skips_refused_header (header : Header) (request : Request) :
  key header = "" \/ value header = "" \/ TestHeaderValidity (key header) = true ->
  (forall (target : Target) (this : MockoonServer),
      setHeaders_callback request target header this = (Normal target, this))
  /\ (forall (before after : list Header) (target : Target) (this : MockoonServer),
         setHeaders (before ++ header :: after) target request this
         = setHeaders (before ++ after) target request this).
Proof.
  intros Hskip. apply header_refused in Hskip.
  assert (Hcb : forall target this,
             setHeaders_callback request target header this = (Normal target, this)).
  { intros target this. unfold setHeaders_callback, bind.
    rewrite (parseHeader_refused _ _ _ Hskip). reflexivity. }
  split; [exact Hcb|].
  intros before after target this. unfold setHeaders.
  rewrite !forEach_app. unfold bind.
  destruct (forEach (setHeaders_callback request) before target this) as [[t|e] this'];
    [|reflexivity].
  simpl. unfold bind. rewrite Hcb. reflexivity.
Qed.

(** ** Live refresh *)

Lemma refreshEnvironment_cases (this : MockoonServer) :
  refreshEnvironment this =
    (Normal tt,
     match refreshEnvironmentFunction (options this) with
     | Some refresh =>
         if truthy (env_uuid (environment this)) then
           match refresh (env_uuid (environment this)) with
           | Some updatedEnvironment => with_environment updatedEnvironment this
           | None => this
           end
         else this
     | None => this
     end).
Proof.
  unfold refreshEnvironment, bind, gets.
  destruct (refreshEnvironmentFunction (options this)) as [refresh|]; [|reflexivity].
  destruct (truthy (env_uuid (environment this))); [|reflexivity].
  destruct (refresh (env_uuid (environment this))); reflexivity.
Qed.

(** C8. [refreshEnvironment] always returns normally and touches nothing but
    the held environment.  The environment becomes the value the refresh
    function returns when a refresh function is configured, the current
    environment has a uuid and the function returns a value; if the held
    environment has changed, all three hold; and with no refresh function, no
    uuid, or no value returned, the instance is exactly as before. *)
Theorem refreshEnvironment_replaces_only_on_value (this : MockoonServer) :
  fst (refreshEnvironment this) = Normal tt
  /\ options (snd (refreshEnvironment this)) = options this
  /\ emitted (snd (refreshEnvironment this)) = emitted this
  /\ (forall refresh updatedEnvironment,
         refreshEnvironmentFunction (options this) = Some refresh ->
         env_uuid (environment this) <> "" ->
         refresh (env_uuid (environment this)) = Some updatedEnvironment ->
         environment (snd (refreshEnvironment this)) = updatedEnvironment)
  /\ (environment (snd (refreshEnvironment this)) <> environment this ->
      exists refresh updatedEnvironment,
        refreshEnvironmentFunction (options this) = Some refresh
        /\ env_uuid (environment this) <> ""
        /\ refresh (env_uuid (environment this)) = Some updatedEnvironment
        /\ environment (snd (refreshEnvironment this)) = updatedEnvironment)
  /\ (refreshEnvironmentFunction (options this) = None
      \/ env_uuid (environment this) = ""
      \/ (exists refresh,
             refreshEnvironmentFunction (options this) = Some refresh
             /\ refresh (env_uuid (environment this)) = None) ->
      snd (refreshEnvironment this) = this).
Proof.
  rewrite refreshEnvironment_cases. simpl.
  destruct (refreshEnvironmentFunction (options this)) as [refresh|] eqn:Hf;
    [destruct (truthy (env_uuid (environment this))) eqn:Hu;
     [destruct (refresh (env_uuid (environment this))) as [updated|] eqn:Hr|]|].
  all: repeat match goal with |- _ /\ _ => split end; try reflexivity.
  all: try (intros refresh' updated' Hf' Hu' Hr'; injection Hf' as <-; simpl; congruence).
  all: try (intros refresh' updated' Hf' Hu' Hr'; congruence).
  all: try (intros Hne; exfalso; apply Hne; reflexivity).
  - intros _. exists refresh, updated. apply truthy_true_iff in Hu. auto.
  - intros [H|[H|[refresh' [Hf' Hr']]]].
    + discriminate.
    + apply truthy_false_iff in H. congruence.
    + injection Hf' as <-. congruence.
  - intros refresh' updated' _ Hne _. apply truthy_false_iff in Hu. contradiction.
Qed.

Lemma getRefreshedRoute_cases (currentRoute : Route) (this : MockoonServer) :
  getRefreshedRoute currentRoute this =
    (Normal
       (if is_defined (refreshEnvironmentFunction (options this))
           && truthy (env_uuid (environment this))
        then find (fun route => (route_uuid route =? route_uuid currentRoute)%string)
               (env_routes (environment this))
        else Some currentRoute),
     this).
Proof.
  unfold getRefreshedRoute, bind, gets.
  destruct (is_defined _ && truthy _); reflexivity.
Qed.

(** The handler, with the two method calls on [this] resolved. *)
Lemma routeHandler_cases (declaredRoute : Route) (request : Request) (response : Response)
  (draw : nat) (closure : RouteClosure) :
  let this' := snd (refreshEnvironment (cl_this closure)) in
  routeHandler declaredRoute request response draw closure =
    match fst (getRefreshedRoute declaredRoute this') with
    | Normal None =>
        (Normal (Sent (sendError response (ROUTE_NO_LONGER_EXISTS Texts) (Some 404))),
         mkClosure this' (cl_requestNumber closure))
    | Normal (Some currentRoute) =>
        (match chooseResponse rules_satisfied
                 (mkInterpreter (route_responses currentRoute) request
                    (route_randomResponse currentRoute)
                    (route_sequentialResponse currentRoute))
                 draw (cl_requestNumber closure) with
         | None => Throw TypeError
         | Some enabledRouteResponse =>
             Normal
               (Deferred
                  (if truthy (route_uuid declaredRoute)
                      && truthy (rr_uuid enabledRouteResponse)
                   then Response_assign_uuids (route_uuid declaredRoute)
                          (rr_uuid enabledRouteResponse) response
                   else response)
                  enabledRouteResponse (rr_latency enabledRouteResponse))
         end,
         mkClosure this' (cl_requestNumber closure + 1))
    | Throw e => (Throw e, mkClosure this' (cl_requestNumber closure))
    end.
Proof.
  intros this'. subst this'. destruct closure as [this n]. simpl.
  unfold routeHandler, on_this, zoom, bind. simpl.
  rewrite refreshEnvironment_cases. simpl.
  rewrite getRefreshedRoute_cases. simpl.
  match goal with |- context [if ?c then _ else _] => destruct c end.
  - match goal with |- context [find ?f ?l] => destruct (find f l) end; [|reflexivity].
    unfold gets, modify, throw, ret. simpl.
    match goal with |- context [chooseResponse ?a ?b ?c ?d] =>
      destruct (chooseResponse a b c d) end; reflexivity.
  - unfold gets, modify, throw, ret. simpl.
    match goal with |- context [chooseResponse ?a ?b ?c ?d] =>
      destruct (chooseResponse a b c d) end; reflexivity.
Qed.

Lemma refreshEnvironment_options (this : MockoonServer) :
  options (snd (refreshEnvironment this)) = options this.
Proof.
  rewrite refreshEnvironment_cases. simpl.
  destruct (refreshEnvironmentFunction (options this)) as [refresh|]; [|reflexivity].
  destruct (truthy (env_uuid (environment this))); [|reflexivity].
  destruct (refresh (env_uuid (environment this))); reflexivity.
Qed.

(** Without a refresh function, or without a uuid, a refresh changes nothing. *)
Lemma refreshEnvironment_inactive (this : MockoonServer) :
  refreshEnvironmentFunction (options this) = None \/ env_uuid (environment this) = "" ->
  snd (refreshEnvironment this) = this.
Proof.
  rewrite refreshEnvironment_cases. simpl. intros [H|H].
  - now rewrite H.
  - apply truthy_false_iff in H. rewrite H.
    now destruct (refreshEnvironmentFunction (options this)).
Qed.

Lemma getRefreshedRoute_inactive (this : MockoonServer) (declaredRoute : Route) :
  refreshEnvironmentFunction (options this) = None \/ env_uuid (environment this) = "" ->
  getRefreshedRoute declaredRoute this = (Normal (Some declaredRoute), this).
Proof.
  rewrite getRefreshedRoute_cases. intros [H|H].
  - now rewrite H.
  - apply truthy_false_iff in H. rewrite H, andb_false_r. reflexivity.
Qed.

(** C10. With no refresh function configured, or with an environment that
    has no uuid, [getRefreshedRoute] returns the declared route itself, and a
    call of the route handler never takes the branch that answers 404 for a
    route that no longer exists: it selects among the responses of the
    declared route. *)
Theorem getRefreshedRoute_without_refresh (this : MockoonServer) (declaredRoute : Route) :
  refreshEnvironmentFunction (options this) = None \/ env_uuid (environment this) = "" ->
  getRefreshedRoute declaredRoute this = (Normal (Some declaredRoute), this)
  /\ (forall (request : Request) (response : Response) (draw requestNumber : nat),
         answered_gone
           (fst (routeHandler declaredRoute request response draw
                   (mkClosure this requestNumber))) = false
         /\ selected
              (fst (routeHandler declaredRoute request response draw
                      (mkClosure this requestNumber)))
            = chooseResponse rules_satisfied
                (mkInterpreter (route_responses declaredRoute) request
                   (route_randomResponse declaredRoute)
                   (route_sequentialResponse declaredRoute))
                draw requestNumber).
Proof.
  intros Hoff. split; [apply getRefreshedRoute_inactive, Hoff|].
  intros request response draw requestNumber.
  rewrite routeHandler_cases. simpl.
  rewrite (refreshEnvironment_inactive _ Hoff).
  rewrite (getRefreshedRoute_inactive _ declaredRoute Hoff). simpl.
  destruct (chooseResponse _ _ _ _); split; reflexivity.
Qed.

(** ** The error responder *)

Lemma getHeader_setHeader_same (name : string) (v : HeaderValue) (store : Obj HeaderValue) :
  getHeader name (setHeader name v store) = v.
Proof.
  unfold getHeader, setHeader. now rewrite obj_get_set_same.
Qed.

Lemma getHeader_setHeader_other (name name' : string) (v : HeaderValue)
  (store : Obj HeaderValue) :
  toLowerCase name <> toLowerCase name' ->
  getHeader name (setHeader name' v store) = getHeader name store.
Proof.
  intros H. unfold getHeader, setHeader. now rewrite obj_get_set_other.
Qed.

(** What [sendError] leaves on the response. *)
Lemma sendError_response (response : Response) (errorMessage : string) (code : nat) :
  res_statusCode (sendError response errorMessage (Some code)) = code
  /\ getHeader "Content-Type" (res_headers (sendError response errorMessage (Some code)))
     = HVString "text/plain"
  /\ res_body (sendError response errorMessage (Some code)) = Some errorMessage
  /\ res_sent (sendError response errorMessage (Some code)) = Some errorMessage.
Proof.
  unfold sendError. simpl. repeat split.
  apply (getHeader_setHeader_same "Content-Type").
Qed.

Lemma find_uuid_none (uuid : string) (routes : list Route) :
  (forall route, In route routes -> route_uuid route <> uuid) ->
  find (fun route => (route_uuid route =? uuid)%string) routes = None.
Proof.
  intros H. destruct (find _ routes) as [route|] eqn:E; [|reflexivity].
  apply find_some in E. destruct E as [Hin Heq].
  apply String.eqb_eq in Heq. exfalso. exact (H route Hin Heq).
Qed.

(** C6 (as the code has it). When a refresh function is configured, the
    environment held after the refresh of the request has a uuid, and no
    route of that environment has the stable identifier of the declared
    route, the route handler answers at once with status 404, Content-Type
    text/plain and the fixed message, as body and as logged body; it selects
    no response and leaves the request counter of the route as it was. *)
Theorem routeHandler_route_gone (this : MockoonServer) (declaredRoute : Route)
  (request : Request) (response : Response) (draw requestNumber : nat) :
  refreshEnvironmentFunction (options this) <> None ->
  env_uuid (environment (snd (refreshEnvironment this))) <> "" ->
  (forall route,
      In route (env_routes (environment (snd (refreshEnvironment this)))) ->
      route_uuid route <> route_uuid declaredRoute) ->
  exists response' : Response,
    routeHandler declaredRoute request response draw (mkClosure this requestNumber)
    = (Normal (Sent response'), mkClosure (snd (refreshEnvironment this)) requestNumber)
    /\ res_statusCode response' = 404
    /\ getHeader "Content-Type" (res_headers response') = HVString "text/plain"
    /\ res_body response' = Some (ROUTE_NO_LONGER_EXISTS Texts)
    /\ res_sent response' = Some (ROUTE_NO_LONGER_EXISTS Texts)
    /\ selected
         (fst (routeHandler declaredRoute request response draw
                 (mkClosure this requestNumber))) = None.
Proof.
  intros Hf Hu Hgone.
  exists (sendError response (ROUTE_NO_LONGER_EXISTS Texts) (Some 404)).
  assert (Hcall :
            routeHandler declaredRoute request response draw (mkClosure this requestNumber)
            = (Normal (Sent (sendError response (ROUTE_NO_LONGER_EXISTS Texts) (Some 404))),
               mkClosure (snd (refreshEnvironment this)) requestNumber)).
  { rewrite routeHandler_cases. simpl.
    rewrite getRefreshedRoute_cases. simpl.
    rewrite refreshEnvironment_options.
    destruct (refreshEnvironmentFunction (options this)); [|contradiction]. simpl.
    apply truthy_true_iff in Hu. rewrite Hu.
    rewrite (find_uuid_none _ _ Hgone). reflexivity. }
  split; [exact Hcall|].
  destruct (sendError_response response (ROUTE_NO_LONGER_EXISTS Texts) 404)
    as (Hs & Hc & Hb & Hsent).
  rewrite Hcall. repeat split; assumption.
Qed.

Lemma string_app_assoc (a b c : string) : ((a ++ b) ++ c = a ++ b ++ c)%string.
Proof.
  induction a as [|x a IH]; simpl; [reflexivity | now rewrite IH].
Qed.

Lemma string_app_nil_r (a : string) : (a ++ "" = a)%string.
Proof.
  induction a as [|x a IH]; simpl; [reflexivity | now rewrite IH].
Qed.

Lemma contains_refl (s : string) : contains s s.
Proof.
  exists "", "". simpl. now rewrite string_app_nil_r.
Qed.

Lemma contains_app_l (s part rest : string) : contains s part -> contains (rest ++ s) part.
Proof.
  intros (before & after & ->). exists (rest ++ before)%string, after.
  now rewrite string_app_assoc.
Qed.

Lemma contains_app_r (s part rest : string) : contains s part -> contains (s ++ rest) part.
Proof.
  intros (before & after & ->). exists before, (after ++ rest)%string.
  now rewrite !string_app_assoc.
Qed.

Lemma Error_toString_contains_message (e : Error) : contains (Error_toString e) (err_message e).
Proof.
  unfold Error_toString.
  destruct (err_name e =? "")%string; [apply contains_refl|].
  destruct (err_message e =? "")%string eqn:E.
  - apply String.eqb_eq in E. rewrite E. exists "", (err_name e). reflexivity.
  - apply contains_app_l, contains_app_l, contains_refl.
Qed.

(** C7. On a proxy failure, [onError] emits one ['error'] event of kind
    [PROXY_ERROR] that carries the error, and sends a response with status
    504, Content-Type text/plain, and a body that holds the proxy host of the
    environment, the url of the request and the text of the error (and so its
    message). *)
Theorem onError_sends_504 (error : Error) (request : Request) (response : Response)
  (this : MockoonServer) :
  exists (response' : Response) (body : string),
    onError error request response this
    = (Normal response',
       mkServer (environment this) (options this)
         (emitted this ++ [Ev_error PROXY_ERROR error]))
    /\ res_statusCode response' = 504
    /\ getHeader "Content-Type" (res_headers response') = HVString "text/plain"
    /\ res_sent response' = Some body
    /\ res_body response' = Some body
    /\ contains body (env_proxyHost (environment this))
    /\ contains body (req_url request)
    /\ contains body (Error_toString error)
    /\ contains body (err_message error).
Proof.
  eexists. eexists. split; [reflexivity|].
  match goal with |- context [sendError ?r ?m (Some ?c)] =>
    destruct (sendError_response r m c) as (Hs & Hc & Hb & Hsent) end.
  repeat split; try eassumption.
  - apply contains_app_l, contains_app_r, contains_refl.
  - apply contains_app_l, contains_app_l, contains_app_r, contains_refl.
  - do 4 apply contains_app_l. apply contains_refl.
  - do 4 apply contains_app_l. apply Error_toString_contains_message.
Qed.

(** ** The request counter of a route *)

Lemma chooseResponse_sequential (responses : list RouteResponse) (request : Request)
  (isRandom : bool) (draw requestNumber : nat) :
  chooseResponse rules_satisfied (mkInterpreter responses request isRandom true) draw
    requestNumber
  = nth_error responses ((requestNumber - 1) mod length responses).
Proof. reflexivity. Qed.

(** The elements of a list, read by index from [start] on. *)
Lemma nth_error_seq {A : Type} (l : list A) :
  forall start : nat,
    map (fun k => nth_error l (k - start)) (seq start (length l)) = map Some l.
Proof.
  induction l as [|x l IH]; intros start; [reflexivity|].
  cbn [length seq map]. rewrite Nat.sub_diag. cbn [nth_error]. f_equal.
  rewrite <- (IH (S start)). apply map_ext_in. intros k Hk.
  apply in_seq in Hk. replace (k - start) with (S (k - S start)) by lia. reflexivity.
Qed.

(** Twice round a list by the index modulo its length. *)
Lemma nth_error_mod_twice {A : Type} (l : list A) :
  map (fun k => nth_error l (k mod length l)) (seq 0 (2 * length l)) = map Some (l ++ l).
Proof.
  replace (2 * length l) with (length l + length l) by lia.
  rewrite seq_app, !map_app. f_equal.
  - rewrite <- (nth_error_seq l 0). apply map_ext_in. intros k Hk.
    apply in_seq in Hk. rewrite Nat.mod_small by lia. now rewrite Nat.sub_0_r.
  - rewrite <- (nth_error_seq l (0 + length l)). apply map_ext_in. intros k Hk.
    apply in_seq in Hk. f_equal.
    symmetry. apply Nat.mod_unique with (q := 1); lia.
Qed.

(** The handler leaves the counter alone when it answers that the route no
    longer exists, and adds one to it otherwise. *)
Lemma routeHandler_counter (declaredRoute : Route) (request : Request) (response : Response)
  (draw : nat) (closure : RouteClosure) :
  cl_requestNumber (snd (routeHandler declaredRoute request response draw closure))
  = if answered_gone (fst (routeHandler declaredRoute request response draw closure))
    then cl_requestNumber closure
    else cl_requestNumber closure + 1.
Proof.
  rewrite routeHandler_cases. simpl. rewrite getRefreshedRoute_cases. simpl.
  match goal with |- context [if ?c then _ else _] => destruct c end.
  - match goal with |- context [find ?f ?l] => destruct (find f l) end; [|reflexivity].
    simpl. destruct (chooseResponse _ _ _ _); reflexivity.
  - simpl. destruct (chooseResponse _ _ _ _); reflexivity.
Qed.

Lemma routeHandler_this (declaredRoute : Route) (request : Request) (response : Response)
  (draw : nat) (closure : RouteClosure) :
  cl_this (snd (routeHandler declaredRoute request response draw closure))
  = snd (refreshEnvironment (cl_this closure)).
Proof.
  rewrite routeHandler_cases. simpl. rewrite getRefreshedRoute_cases. simpl.
  match goal with |- context [if ?c then _ else _] => destruct c end.
  - match goal with |- context [find ?f ?l] => destruct (find f l) end; reflexivity.
  - reflexivity.
Qed.

Section Sequential.

(** A route whose refreshed version stays sequential with the same responses:
    [kept] holds of the instance and survives every refresh, and under [kept]
    the refreshed route is sequential and has the responses [responses]. *)
Variable kept : MockoonServer -> Prop.
Variable declaredRoute : Route.
Variable responses : list RouteResponse.

Hypothesis kept_refresh : forall this, kept this -> kept (snd (refreshEnvironment this)).

Hypothesis kept_route :
  forall this, kept this ->
    exists currentRoute,
      fst (getRefreshedRoute declaredRoute this) = Normal (Some currentRoute)
      /\ route_sequentialResponse currentRoute = true
      /\ route_responses currentRoute = responses.

Lemma routeHandler_sequential (this : MockoonServer) (request : Request)
  (response : Response) (draw requestNumber : nat) :
  kept this ->
  selected
    (fst (routeHandler declaredRoute request response draw (mkClosure this requestNumber)))
  = nth_error responses ((requestNumber - 1) mod length responses)
  /\ snd (routeHandler declaredRoute request response draw (mkClosure this requestNumber))
     = mkClosure (snd (refreshEnvironment this)) (requestNumber + 1).
Proof.
  intros Hkept. rewrite routeHandler_cases. simpl.
  destruct (kept_route _ (kept_refresh _ Hkept)) as (currentRoute & -> & Hseq & Hresp).
  destruct currentRoute as [u m e en rs rnd sq]. simpl in *. subst sq rs.
  rewrite chooseResponse_sequential.
  destruct (nth_error responses ((requestNumber - 1) mod length responses));
    split; reflexivity.
Qed.

Lemma serve_sequential (requests : list (Request * Response * nat)) :
  forall (this : MockoonServer) (requestNumber : nat),
    kept this ->
    map selected (fst (serve declaredRoute requests (mkClosure this requestNumber)))
    = map (fun k => nth_error responses ((k - 1) mod length responses))
        (seq requestNumber (length requests))
    /\ cl_requestNumber (snd (serve declaredRoute requests (mkClosure this requestNumber)))
       = requestNumber + length requests.
Proof.
  induction requests as [|[[request response] draw] rest IH]; intros this n Hkept.
  - simpl. split; [reflexivity | lia].
  - cbn [serve].
    destruct (routeHandler_sequential this request response draw n Hkept) as [Hsel Hnext].
    destruct (routeHandler declaredRoute request response draw (mkClosure this n))
      as [completion closure'] eqn:Hcall.
    cbn [fst snd] in Hsel, Hnext. subst closure'.
    destruct (IH (snd (refreshEnvironment this)) (n + 1) (kept_refresh _ Hkept))
      as [IHsel IHnum].
    destruct (serve declaredRoute rest (mkClosure (snd (refreshEnvironment this)) (n + 1)))
      as [completions closure''].
    cbn [fst snd map length seq] in *. rewrite Hsel, IHsel, IHnum.
    replace (n + 1) with (S n) by lia. split; [reflexivity | lia].
Qed.

End Sequential.

(** C2. For a route whose refreshed version stays sequential with the same N
    responses, the handler gives the selector the request number of the
    route, which starts at 1, and adds exactly one to it after the selection.
    The selector of section 4.2 picks [responses[counter mod N]] where the
    counter is the number of requests served before, the request number less
    one: the k-th request served on the route selects
    [responses[(k - 1) mod N]], so the requests 1..2N select the responses in
    the cyclic order 0, 1, ..., N-1, 0, 1, ..., N-1, and after the requests
    the request number is one more than their number. *)
Theorem sequential_requests_cycle (kept : MockoonServer -> Prop) (declaredRoute : Route)
  (responses : list RouteResponse) :
  (forall this, kept this -> kept (snd (refreshEnvironment this))) ->
  (forall this, kept this ->
     exists currentRoute,
       fst (getRefreshedRoute declaredRoute this) = Normal (Some currentRoute)
       /\ route_sequentialResponse currentRoute = true
       /\ route_responses currentRoute = responses) ->
  forall this : MockoonServer,
    kept this ->
    (forall (request : Request) (response : Response) (draw requestNumber : nat),
        selected
          (fst (routeHandler declaredRoute request response draw
                  (mkClosure this requestNumber)))
        = nth_error responses ((requestNumber - 1) mod length responses)
        /\ cl_requestNumber
             (snd (routeHandler declaredRoute request response draw
                     (mkClosure this requestNumber)))
           = requestNumber + 1)
    /\ (forall requests : list (Request * Response * nat),
           map selected (fst (serve declaredRoute requests (mkClosure this 1)))
           = map (fun counter => nth_error responses (counter mod length responses))
               (seq 0 (length requests))
           /\ cl_requestNumber (snd (serve declaredRoute requests (mkClosure this 1)))
              = 1 + length requests)
    /\ (forall requests : list (Request * Response * nat),
           length requests = 2 * length responses ->
           map selected (fst (serve declaredRoute requests (mkClosure this 1)))
           = map Some (responses ++ responses)).
Proof.
  intros Hrefresh Hroute this Hkept.
  assert (Hserve : forall requests : list (Request * Response * nat),
             map selected (fst (serve declaredRoute requests (mkClosure this 1)))
             = map (fun counter => nth_error responses (counter mod length responses))
                 (seq 0 (length requests))
             /\ cl_requestNumber (snd (serve declaredRoute requests (mkClosure this 1)))
                = 1 + length requests).
  { intros requests.
    destruct (serve_sequential kept declaredRoute responses Hrefresh Hroute requests
                this 1 Hkept) as [Hsel Hnum].
    split; [|exact Hnum]. rewrite Hsel, <- seq_shift, map_map.
    apply map_ext. intros k. cbn [Nat.sub]. now rewrite Nat.sub_0_r. }
  split; [|split].
  - intros request response draw requestNumber.
    destruct (routeHandler_sequential kept declaredRoute responses Hrefresh Hroute
                this request response draw requestNumber Hkept) as [Hsel Hnext].
    split; [exact Hsel | now rewrite Hnext].
  - exact Hserve.
  - intros requests Hlen. rewrite (proj1 (Hserve requests)), Hlen.
    apply nth_error_mod_twice.
Qed.

(** ** Content-Type and multi-value headers *)

Lemma lower_content_type : toLowerCase "content-type" = "content-type".
Proof. reflexivity. Qed.

Lemma lower_Content_Type : toLowerCase "Content-Type" = "content-type".
Proof. reflexivity. Qed.

(** [appendHeaderValue] keeps a truthy current value in front of the new one,
    and returns the new value alone otherwise. *)
Lemma appendHeaderValue_cases (currentValue : HeaderValue) (newValue : string) :
  appendHeaderValue currentValue newValue
  = if hv_truthy currentValue
    then HVArray (hv_values currentValue ++ [newValue])
    else HVString newValue.
Proof.
  unfold appendHeaderValue. destruct currentValue as [|s|l]; simpl; reflexivity.
Qed.

(** express's [append] combines the values the same way. *)
Lemma append_value_cases (prev : HeaderValue) (val : string) :
  append_value prev val
  = if hv_truthy prev then HVArray (hv_values prev ++ [val]) else HVString val.
Proof.
  destruct prev as [|s|l]; simpl; [reflexivity | | reflexivity].
  destruct (truthy s); reflexivity.
Qed.

Lemma Response_append_value (field val : string) (response : Response) :
  getHeader field (res_headers (Response_append field val response))
  = if hv_truthy (getHeader field (res_headers response))
    then HVArray (hv_values (getHeader field (res_headers response)) ++ [val])
    else HVString val.
Proof.
  unfold Response_append, Response_set. simpl. rewrite getHeader_setHeader_same.
  apply append_value_cases.
Qed.

Lemma stored_header_rest (header : Header) (v : string) (target : Target) :
  target_rest (stored_header header v target) = target_rest target.
Proof.
  destruct target as [response|proxyReq|proxyRes]; simpl; [|reflexivity..].
  destruct (toLowerCase (key header) =? "content-type")%string; reflexivity.
Qed.

(** An accepted write: the value the target then holds under the key of the
    header, when the key is not a Content-Type on an express response. *)
Lemma stored_header_combines (header : Header) (v : string) (target : Target) :
  replaced_slot target (key header) = false ->
  target_get (stored_header header v target) (key header)
  = if hv_truthy (target_get target (key header))
    then HVArray (hv_values (target_get target (key header)) ++ [v])
    else HVString v.
Proof.
  intros Hkey. destruct target as [response|proxyReq|proxyRes]; simpl in *.
  - rewrite Hkey. simpl. apply Response_append_value.
  - unfold ClientRequest_getHeader, ClientRequest_setHeader. simpl.
    rewrite getHeader_setHeader_same. apply appendHeaderValue_cases.
  - unfold IncomingMessage_get, IncomingMessage_assign. simpl.
    rewrite obj_get_set_same. apply appendHeaderValue_cases.
Qed.

(** On an express response an accepted Content-Type header leaves one
    Content-Type value, whatever the response held. *)
Lemma stored_header_content_type (header : Header) (v : string) (target : Target) :
  replaced_slot target (key header) = true ->
  content_type_count (stored_header header v target) = 1.
Proof.
  destruct target as [response|proxyReq|proxyRes]; simpl; try discriminate.
  intros Hkey. rewrite Hkey. simpl. apply String.eqb_eq in Hkey.
  unfold getHeader, setHeader. rewrite Hkey, lower_content_type.
  now rewrite obj_get_set_same.
Qed.


Lemma stored_header_response (header : Header) (v : string) (response : Response) :
  exists response', stored_header header v (TResponse response) = TResponse response'.
Proof.
  simpl. destruct (toLowerCase (key header) =? "content-type")%string; eexists; reflexivity.
Qed.



(** C4. When the template engine throws on the value of a header that
    [parseHeader] lets through, [parseHeader] returns the configured
    header-parsing error text and does not throw.  The write of the header
    is made with that text: when the transport takes it, the target then
    holds the text under the key of the header, after the values it held
    (as its one Content-Type on an express response when the key is
    Content-Type), and nothing else of the target changes; [setHeaders] then
    goes on with the headers that follow.  The render failure itself never
    makes the callback throw: what the callback can throw is only Node's
    refusal of the field, and it throws nothing on the plain object of an
    incoming message or when Node accepts the key with any value. *)
Theorem setHeaders_render_failure (header : Header) (request : Request)
  (this : MockoonServer) (error : Error) :
  header_accepted header = true ->
  TemplateParser (value header) request (environment this) = Throw error ->
  parseHeader header request this = (Normal (Some (HEADER_PARSING_ERROR Texts)), this)
  /\ (forall target target1 : Target,
         write_header header (HEADER_PARSING_ERROR Texts) target = Normal target1 ->
         setHeaders_callback request target header this = (Normal target1, this)
         /\ target_rest target1 = target_rest target
         /\ (replaced_slot target (key header) = false ->
             target_get target1 (key header)
             = if hv_truthy (target_get target (key header))
               then HVArray (hv_values (target_get target (key header))
                             ++ [HEADER_PARSING_ERROR Texts])
               else HVString (HEADER_PARSING_ERROR Texts))
         /\ (replaced_slot target (key header) = true -> content_type_count target1 = 1)
         /\ (forall (before after : list Header) (target0 : Target),
                setHeaders before target0 request this = (Normal target, this) ->
                setHeaders (before ++ header :: after) target0 request this
                = setHeaders after target1 request this))
  /\ (forall (target : Target) (thrown : Error) (this' : MockoonServer),
         setHeaders_callback request target header this = (Throw thrown, this') ->
         this' = this
         /\ write_header header (HEADER_PARSING_ERROR Texts) target = Throw thrown
         /\ exists val : HeaderValue, setHeader_error (key header) val = Some thrown)
  /\ (forall proxyRes : IncomingMessage,
         exists target1 : Target,
           write_header header (HEADER_PARSING_ERROR Texts) (TIncomingMessage proxyRes)
           = Normal target1)
  /\ ((forall val : HeaderValue, setHeader_error (key header) val = None) ->
      forall target : Target,
        exists target1 : Target,
          write_header header (HEADER_PARSING_ERROR Texts) target = Normal target1).
Proof.
  intros Hacc Hthrow.
  assert (Hparse : parseHeader header request this
                   = (Normal (Some (HEADER_PARSING_ERROR Texts)), this)).
  { rewrite (parseHeader_accepted _ _ _ Hacc), Hthrow. reflexivity. }
  assert (Hvalue : parsed_value this request header = Some (HEADER_PARSING_ERROR Texts))
    by (unfold parsed_value; now rewrite Hparse).
  assert (Hcb : forall target,
             setHeaders_callback request target header this
             = (write_header header (HEADER_PARSING_ERROR Texts) target, this)).
  { intros target. now rewrite setHeaders_callback_cases, Hvalue. }
  split; [exact Hparse|]. split; [|split; [|split]].
  - intros target target1 Hwrite.
    pose proof (write_header_stored _ _ _ _ Hwrite) as Hstored.
    split; [now rewrite Hcb, Hwrite|].
    split; [subst target1; apply stored_header_rest|].
    split; [intros Hslot; subst target1; now apply stored_header_combines|].
    split; [intros Hslot; subst target1; now apply stored_header_content_type|].
    intros before after target0 Hbefore.
    unfold setHeaders in *. rewrite forEach_app. unfold bind. rewrite Hbefore.
    simpl. unfold bind. now rewrite Hcb, Hwrite.
  - intros target thrown this' Hrun. rewrite Hcb in Hrun.
    assert (Hwrite : write_header header (HEADER_PARSING_ERROR Texts) target = Throw thrown)
      by congruence.
    split; [congruence|]. split; [exact Hwrite|].
    now apply write_header_throw in Hwrite.
  - intros proxyRes. eexists. apply write_header_incoming.
  - intros Hok target. eexists. now apply write_header_accepted.
Qed.

(** ** Route registration *)

Lemma forEach_invariant {S A T : Type} (P : T -> Prop) (callback : T -> A -> M S T)
  (l : list A) :
  (forall t x s t' s', In x l -> P t -> callback t x s = (Normal t', s') -> P t') ->
  forall t s t' s', P t -> forEach callback l t s = (Normal t', s') -> P t'.
Proof.
  induction l as [|x l IH]; intros Hstep t s t' s' Ht Hrun; simpl in Hrun.
  - injection Hrun as <- _. exact Ht.
  - unfold bind in Hrun.
    destruct (callback t x s) as [[t1|e] s1] eqn:E; [|discriminate].
    eapply IH; [| |exact Hrun].
    + intros t0 x0 s0 t0' s0' Hin. apply Hstep. now right.
    + eapply Hstep; [now left | exact Ht | exact E].
Qed.

(** Every route [setRoutes] registers is an enabled route of the environment,
    and its request counter starts at 1. *)
Lemma setRoutes_registered (this this' : MockoonServer) (registered : list RegisteredRoute) :
  setRoutes this = (Normal registered, this') ->
  Forall (fun route =>
            reg_requestNumber route = 1
            /\ route_enabled (reg_declaredRoute route) = true
            /\ In (reg_declaredRoute route) (env_routes (environment this)))
         registered.
Proof.
  unfold setRoutes, bind at 1, gets at 1. intros Hrun.
  eapply (forEach_invariant
            (fun registered =>
               Forall (fun route =>
                         reg_requestNumber route = 1
                         /\ route_enabled (reg_declaredRoute route) = true
                         /\ In (reg_declaredRoute route) (env_routes (environment this)))
                      registered));
    [| |exact Hrun]; [|constructor].
  intros acc declaredRoute s acc' s' Hin Hacc Hstep. cbv beta in Hstep.
  destruct (route_enabled declaredRoute) eqn:Henabled.
  - unfold try_catch, bind, gets, call, ret in Hstep.
    destruct (express_route (route_method declaredRoute)
                (routePath (environment s) declaredRoute)) as [[]|error].
    + injection Hstep as <- _. apply Forall_app. split; [exact Hacc|].
      constructor; [|constructor]. simpl. auto.
    + unfold emit, modify in Hstep. injection Hstep as <- _. exact Hacc.
  - unfold ret in Hstep. injection Hstep as <- _. exact Hacc.
Qed.

(** ** Header lists, entry by entry *)

Lemma same_slot_rest (target target' : Target) (name name' : string) :
  target_rest target' = target_rest target ->
  same_slot target' name name' = same_slot target name name'.
Proof.
  destruct target, target'; simpl; intros H; try reflexivity; discriminate.
Qed.

Lemma replaced_slot_rest (target target' : Target) (name : string) :
  target_rest target' = target_rest target ->
  replaced_slot target' name = replaced_slot target name.
Proof.
  destruct target, target'; simpl; intros H; try reflexivity; discriminate.
Qed.

Lemma slot_values_rest (this : MockoonServer) (request : Request) (target target' : Target)
  (name : string) (headers : list Header) :
  target_rest target' = target_rest target ->
  slot_values this request target' name headers = slot_values this request target name headers.
Proof.
  intros Hrest. induction headers as [|header rest IH]; simpl; [reflexivity|].
  rewrite (same_slot_rest _ _ _ _ Hrest), IH. reflexivity.
Qed.

Lemma slot_values_response (this : MockoonServer) (request : Request)
  (response response' : Response) (name : string) (headers : list Header) :
  slot_values this request (TResponse response) name headers
  = slot_values this request (TResponse response') name headers.
Proof.
  induction headers as [|header rest IH]; simpl; [reflexivity | now rewrite IH].
Qed.

Lemma slot_values_app (this : MockoonServer) (request : Request) (target : Target)
  (name : string) (l1 l2 : list Header) :
  slot_values this request target name (l1 ++ l2)
  = slot_values this request target name l1 ++ slot_values this request target name l2.
Proof.
  induction l1 as [|header l1 IH]; simpl; [reflexivity|].
  destruct (parsed_value this request header); [|exact IH].
  destruct (same_slot target name (key header)); simpl; now rewrite IH.
Qed.

(** A header that goes to another entry leaves the entry of [name] alone. *)
Lemma stored_header_other_slot (header : Header) (v : string) (target : Target)
  (name : string) :
  same_slot target name (key header) = false ->
  target_get (stored_header header v target) name = target_get target name.
Proof.
  destruct target as [response|proxyReq|proxyRes]; simpl; intros Hslot.
  - apply String.eqb_neq in Hslot.
    destruct (toLowerCase (key header) =? "content-type")%string; simpl;
      unfold Response_append, Response_set; simpl;
      now rewrite getHeader_setHeader_other.
  - apply String.eqb_neq in Hslot.
    unfold ClientRequest_getHeader, ClientRequest_setHeader. simpl.
    now rewrite getHeader_setHeader_other.
  - apply String.eqb_neq in Hslot.
    unfold IncomingMessage_get, IncomingMessage_assign. simpl.
    now rewrite obj_get_set_other.
Qed.

Lemma getHeader_same_lower (name name' : string) (store : Obj HeaderValue) :
  toLowerCase name = toLowerCase name' -> getHeader name store = getHeader name' store.
Proof.
  unfold getHeader. now intros ->.
Qed.

Lemma live_values_append (current : HeaderValue) (v : string) :
  v <> "" ->
  live_values (if hv_truthy current then HVArray (hv_values current ++ [v]) else HVString v)
  = live_values current ++ [v].
Proof.
  intros Hv. unfold live_values. destruct (hv_truthy current); simpl; [reflexivity|].
  apply truthy_true_iff in Hv. now rewrite Hv.
Qed.

Lemma target_get_same_slot (target : Target) (name name' : string) :
  same_slot target name name' = true -> target_get target name = target_get target name'.
Proof.
  destruct target as [response|proxyReq|proxyRes]; simpl; intros Hslot;
    apply String.eqb_eq in Hslot.
  - now apply getHeader_same_lower.
  - now apply getHeader_same_lower.
  - now subst.
Qed.

(** A header that goes to the entry of [name], and is not a replaced
    Content-Type, adds its value after the values in place. *)
Lemma stored_header_same_slot (header : Header) (v : string) (target : Target)
  (name : string) :
  same_slot target name (key header) = true ->
  replaced_slot target name = false ->
  v <> "" ->
  live_values (target_get (stored_header header v target) name)
  = live_values (target_get target name) ++ [v].
Proof.
  intros Hslot Hreplaced Hv.
  assert (Hslot' : same_slot (stored_header header v target) name (key header) = true)
    by now rewrite (same_slot_rest _ _ _ _ (stored_header_rest header v target)).
  rewrite (target_get_same_slot _ _ _ Hslot'), (target_get_same_slot _ _ _ Hslot).
  rewrite stored_header_combines; [now apply live_values_append|].
  destruct target as [response|proxyReq|proxyRes]; simpl in *; try reflexivity.
  apply String.eqb_eq in Hslot. now rewrite <- Hslot.
Qed.

(** The accepted writes of a list change nothing of a target but its
    headers. *)
Lemma stored_headers_rest (this : MockoonServer) (request : Request) (headers : list Header) :
  forall target : Target,
    target_rest (stored_headers this request headers target) = target_rest target.
Proof.
  induction headers as [|header rest IH]; intros target; cbn [stored_headers];
    [reflexivity|].
  destruct (parsed_value this request header) as [parsed|]; [|apply IH].
  now rewrite IH, stored_header_rest.
Qed.

Lemma stored_headers_frame_slot (this : MockoonServer) (request : Request)
  (headers : list Header) (name : string) :
  forall target : Target,
    slot_values this request target name headers = [] ->
    target_get (stored_headers this request headers target) name = target_get target name.
Proof.
  induction headers as [|header rest IH]; intros target Hnone; cbn [stored_headers];
    [reflexivity|].
  simpl in Hnone.
  destruct (parsed_value this request header) as [parsed|]; [|now apply IH].
  destruct (same_slot target name (key header)) eqn:Hslot; [discriminate|].
  rewrite IH.
  - now apply stored_header_other_slot.
  - now rewrite (slot_values_rest _ _ _ _ _ _ (stored_header_rest header parsed target)).
Qed.

Lemma slot_values_other_keys (this : MockoonServer) (request : Request) (target : Target)
  (name : string) (headers : list Header) :
  Forall (fun header => same_slot target name (key header) = false) headers ->
  slot_values this request target name headers = [].
Proof.
  induction 1 as [|header rest Hslot _ IH]; simpl; [reflexivity|].
  rewrite Hslot. now destruct (parsed_value this request header).
Qed.

Lemma stored_headers_slot_values (this : MockoonServer) (request : Request)
  (headers : list Header) (name : string) :
  forall target : Target,
    replaced_slot target name = false ->
    Forall (fun v => v <> "") (slot_values this request target name headers) ->
    live_values (target_get (stored_headers this request headers target) name)
    = live_values (target_get target name) ++ slot_values this request target name headers.
Proof.
  induction headers as [|header rest IH]; intros target Hreplaced Hvalues;
    cbn [stored_headers].
  - simpl. now rewrite app_nil_r.
  - simpl in *.
    destruct (parsed_value this request header) as [parsed|]; [|now apply IH].
    pose proof (stored_header_rest header parsed target) as Hrest.
    destruct (same_slot target name (key header)) eqn:Hslot.
    + inversion Hvalues as [|? ? Hparsed Hothers]; subst.
      rewrite IH.
      * rewrite (slot_values_rest _ _ _ _ _ _ Hrest).
        rewrite stored_header_same_slot by assumption.
        now rewrite <- app_assoc.
      * now rewrite (replaced_slot_rest _ _ _ Hrest).
      * now rewrite (slot_values_rest _ _ _ _ _ _ Hrest).
    + rewrite IH.
      * rewrite (slot_values_rest _ _ _ _ _ _ Hrest).
        now rewrite stored_header_other_slot.
      * now rewrite (replaced_slot_rest _ _ _ Hrest).
      * now rewrite (slot_values_rest _ _ _ _ _ _ Hrest).
Qed.

(** On an express response one Content-Type value is left once a
    Content-Type header of the list has been written. *)
Lemma stored_headers_content_type (this : MockoonServer) (request : Request)
  (headers : list Header) :
  forall response : Response,
    content_type_count (TResponse response) = 1
    \/ slot_values this request (TResponse response) "content-type" headers <> [] ->
    content_type_count (stored_headers this request headers (TResponse response)) = 1.
Proof.
  induction headers as [|header rest IH]; intros response Hone; cbn [stored_headers].
  - destruct Hone as [Hone|Hnone]; [exact Hone | now contradiction Hnone].
  - cbn [slot_values] in Hone.
    destruct (parsed_value this request header) as [parsed|]; [|now apply IH].
    destruct (stored_header_response header parsed response) as [response1 Hstored].
    rewrite Hstored. apply IH.
    destruct (same_slot (TResponse response) "content-type" (key header)) eqn:Hslot.
    + left. rewrite <- Hstored. apply stored_header_content_type.
      unfold same_slot in Hslot. rewrite lower_content_type in Hslot.
      unfold replaced_slot. now rewrite String.eqb_sym.
    + destruct Hone as [Hone|Hmore].
      * left.
        change (hv_count (target_get (TResponse response1) "content-type") = 1).
        rewrite <- Hstored. now rewrite stored_header_other_slot.
      * right. now rewrite (slot_values_response _ _ response1 response).
Qed.

(** X12. [setHeaders] touches nothing it was not asked to touch: when no
    header of the list has a key that goes to the entry of a name (the
    outgoing shapes compare names without case, the plain object of an
    incoming message compares them as written), a call that completes leaves
    under that name what the target held before, everything of the target
    that is not a header (status, bodies, path, written chunks) as before,
    and the instance as it was. *)
Theorem setHeaders_frame (headers : list Header) (target target' : Target)
  (request : Request) (this this' : MockoonServer) (name : string) :
  Forall (fun header => same_slot target name (key header) = false) headers ->
  setHeaders headers target request this = (Normal target', this') ->
  this' = this
  /\ target_get target' name = target_get target name
  /\ target_rest target' = target_rest target.
Proof.
  intros Hkeys Hrun. apply setHeaders_stored in Hrun. destruct Hrun as [-> ->].
  split; [reflexivity|]. split.
  - apply stored_headers_frame_slot. now apply slot_values_other_keys.
  - apply stored_headers_rest.
Qed.

(** X13. A call of [setHeaders] that completes loses no value and keeps the
    order: for a name that is not a Content-Type on an express response, when
    the values the list gives for the entry of that name are not empty, the
    target ends with the values it held (an empty value in place does not
    count) followed by the values of the list, in the order of the list.  On
    the two proxied shapes this holds for Content-Type as for any other
    name. *)
Theorem setHeaders_accumulates (headers : list Header) (target target' : Target)
  (request : Request) (this this' : MockoonServer) (name : string) :
  replaced_slot target name = false ->
  Forall (fun v => v <> "") (slot_values this request target name headers) ->
  setHeaders headers target request this = (Normal target', this') ->
  live_values (target_get target' name)
  = live_values (target_get target name) ++ slot_values this request target name headers
  /\ hv_count (target_get target' name)
     >= length (slot_values this request target name headers).
Proof.
  intros Hreplaced Hvalues Hrun.
  apply setHeaders_stored in Hrun. destruct Hrun as [-> ->].
  pose proof (stored_headers_slot_values this request headers name target Hreplaced Hvalues)
    as Hlive.
  split; [exact Hlive|].
  assert (Hlen : length (live_values
                           (target_get (stored_headers this request headers target) name))
                 >= length (slot_values this request target name headers))
    by (rewrite Hlive, length_app; lia).
  unfold live_values in Hlen.
  destruct (target_get (stored_headers this request headers target) name) as [|s|l];
    simpl in *; try destruct (truthy s); simpl in *; lia.
Qed.

(** X14. On an express response a Content-Type header replaces: however many
    Content-Type values the response holds (an array of several included)
    and however many Content-Type headers the list has, a call that
    completes on a list of which [parseHeader] lets at least one
    Content-Type header through leaves exactly one Content-Type value. *)
Theorem setHeaders_content_type_single (headers : list Header) (response : Response)
  (target' : Target) (request : Request) (this this' : MockoonServer) :
  slot_values this request (TResponse response) "content-type" headers <> [] ->
  setHeaders headers (TResponse response) request this = (Normal target', this') ->
  content_type_count target' = 1.
Proof.
  intros Hsome Hrun. apply setHeaders_stored in Hrun. destruct Hrun as [-> ->].
  apply stored_headers_content_type. now right.
Qed.

(** ** The handler of the CORS preflight *)

Lemma refreshEnvironment_fst (this : MockoonServer) :
  fst (refreshEnvironment this) = Normal tt.
Proof. now rewrite refreshEnvironment_cases. Qed.

(** A call of [setHeaders] on an express response that completes gives the
    response back with its headers changed and nothing else. *)
Lemma setHeaders_response_rest (headers : list Header) (response : Response)
  (request : Request) (this this' : MockoonServer) (target' : Target) :
  setHeaders headers (TResponse response) request this = (Normal target', this') ->
  this' = this
  /\ target' = stored_headers this request headers (TResponse response)
  /\ exists response',
       target' = TResponse response'
       /\ res_statusCode response' = res_statusCode response
       /\ res_body response' = res_body response
       /\ res_sent response' = res_sent response
       /\ res_routeUUID response' = res_routeUUID response
       /\ res_routeResponseUUID response' = res_routeResponseUUID response.
Proof.
  intros Hrun. apply setHeaders_stored in Hrun. destruct Hrun as [-> ->].
  split; [reflexivity|]. split; [reflexivity|].
  pose proof (stored_headers_rest this request headers (TResponse response)) as Hrest.
  destruct (stored_headers this request headers (TResponse response)) as [response'| |];
    try discriminate.
  exists response'. split; [reflexivity|].
  simpl in Hrest. injection Hrest as H1 H2 H3 H4 H5. auto.
Qed.

Lemma setHeaders_returned (headers : list Header) (target : Target) (request : Request)
  (this : MockoonServer) :
  returned (fst (setHeaders headers target request this)) = true ->
  setHeaders headers target request this
  = (Normal (stored_headers this request headers target), this).
Proof.
  destruct (setHeaders headers target request this) as [[target'|error] this'] eqn:Hrun;
    [|discriminate].
  intros _. apply setHeaders_stored in Hrun. now destruct Hrun as [-> ->].
Qed.

(** X15. When the preflight handler completes, it has answered with status
    200 and an empty end, after a refresh, and the headers of the environment
    have not overridden the CORS defaults: for a name other than Content-Type,
    the response ends with the values it held, then the values of the CORS
    defaults, then the values of the headers of the refreshed environment
    (when these values are not empty). *)
Theorem corsHandler_appends_environment_headers (req : Request) (res res' : Response)
  (this this' : MockoonServer) (name : string) :
  toLowerCase name <> "content-type" ->
  Forall (fun v => v <> "")
    (slot_values (snd (refreshEnvironment this)) req (TResponse res) name
       (CORSHeaders ++ env_headers (environment (snd (refreshEnvironment this))))) ->
  corsHandler req res this = (Normal res', this') ->
  this' = snd (refreshEnvironment this)
  /\ res_statusCode res' = 200
  /\ res_sent res' = Some ""
  /\ res_body res' = res_body res
  /\ live_values (getHeader name (res_headers res'))
     = live_values (getHeader name (res_headers res))
       ++ slot_values (snd (refreshEnvironment this)) req (TResponse res) name CORSHeaders
       ++ slot_values (snd (refreshEnvironment this)) req (TResponse res) name
            (env_headers (environment (snd (refreshEnvironment this)))).
Proof.
  intros Hname. unfold corsHandler, bind.
  pose proof (refreshEnvironment_fst this) as Hfst.
  destruct (refreshEnvironment this) as [completion this1]. simpl in *. subst completion.
  intros Hvalues.
  assert (Hreplaced : replaced_slot (TResponse res) name = false)
    by (simpl; now apply String.eqb_neq).
  destruct (setHeaders (CORSHeaders ++ env_headers (environment this1)) (TResponse res) req
              this1) as [[target1|error] this2] eqn:Hrun; [|discriminate].
  pose proof (stored_headers_slot_values this1 req
                (CORSHeaders ++ env_headers (environment this1)) name (TResponse res)
                Hreplaced Hvalues) as Hlive.
  destruct (setHeaders_response_rest _ _ _ _ _ _ Hrun)
    as (-> & Hstored & res1 & -> & _ & Hbody & _).
  rewrite <- Hstored in Hlive. unfold ret. intros Hcall. injection Hcall as <- <-.
  split; [reflexivity|]. simpl. repeat split.
  - exact Hbody.
  - simpl in Hlive. now rewrite Hlive, slot_values_app.
Qed.

(** ** Serving the chosen response *)

Ltac serve_cases :=
  repeat match goal with
    | |- context [TemplateParser ?a ?b ?c] => destruct (TemplateParser a b c) eqn:?; simpl
    | |- context [readFile ?a] => destruct (readFile a) eqn:?; simpl
    | |- context [setHeader_error ?a ?b] => destruct (setHeader_error a b) eqn:?; simpl
    | |- context [if ?b then _ else _] => destruct b eqn:?; simpl
    | |- context [match GetContentType ?a with _ => _ end] =>
        destruct (GetContentType a) eqn:?; simpl
    end.

Ltac serve_unfold :=
  unfold serveRouteResponse, bind, on_server, on_response, try_response, express_set, zoom,
    gets, modify, try_catch, call, ret; simpl.

(** X16. The timer callback applies the headers of the chosen response
    before its [try]: when [setHeaders] throws there (Node refuses a field),
    the callback throws that error and sends nothing.  When the headers are
    applied and the status code is one Node accepts, the callback never
    throws and always sends: whatever the template engine, the file system
    and the fields computed from the file do, it returns normally with a
    payload given to [send], the status set is the status code of the chosen
    response (also when serving failed), the
    environment is not changed, and at most one event is emitted, which is
    then a route serving error or a route file serving error, with the fixed
    text followed by the error's message as payload and as recorded body. *)
Theorem serveRouteResponse_outcomes (enabledRouteResponse : RouteResponse)
  (request : Request) (serving : Serving) :
  (forall (error : Error) (this1 : MockoonServer),
      setHeaders (rr_headers enabledRouteResponse)
        (TResponse
           (Response_status (rr_statusCode enabledRouteResponse) (sv_response serving)))
        request (sv_this serving)
      = (Throw error, this1) ->
      fst (serveRouteResponse enabledRouteResponse request serving) = Throw error
      /\ res_sent (sv_response (snd (serveRouteResponse enabledRouteResponse request serving)))
         = res_sent (sv_response serving)
      /\ sv_this (snd (serveRouteResponse enabledRouteResponse request serving))
         = sv_this serving)
  /\ (forall (target1 : Target) (this1 : MockoonServer),
         setHeaders (rr_headers enabledRouteResponse)
           (TResponse
              (Response_status (rr_statusCode enabledRouteResponse) (sv_response serving)))
           request (sv_this serving)
         = (Normal target1, this1) ->
         100 <= rr_statusCode enabledRouteResponse <= 999 ->
         exists (this' : MockoonServer) (response' : Response) (payload : string),
           serveRouteResponse enabledRouteResponse request serving
           = (Normal tt, mkServing this' response')
           /\ res_statusCode response' = rr_statusCode enabledRouteResponse
           /\ res_sent response' = Some payload
           /\ environment this' = environment (sv_this serving)
           /\ options this' = options (sv_this serving)
           /\ (emitted this' = emitted (sv_this serving)
               \/ exists (code : ServerErrorCodes) (error : Error) (text : string),
                    emitted this' = emitted (sv_this serving) ++ [Ev_error code error]
                    /\ ((code = ROUTE_SERVING_ERROR
                         /\ text = ROUTE_SERVING_ERROR_MESSAGE Texts)
                        \/ (code = ROUTE_FILE_SERVING_ERROR
                            /\ text = ROUTE_FILE_SERVING_ERROR_MESSAGE Texts))
                    /\ payload = (text ++ err_message error)%string
                    /\ res_body response' = Some payload)).
Proof.
  destruct serving as [this response]. split.
  - intros error this1 Hrun. cbn [sv_this sv_response] in Hrun.
    serve_unfold. rewrite Hrun. simpl.
    pose proof (setHeaders_throw _ _ _ _ _ _ Hrun) as [-> _]. repeat split.
  - intros target1 this1 Hrun _. cbn [sv_this sv_response] in Hrun.
    serve_unfold. rewrite Hrun. simpl.
    destruct (setHeaders_response_rest _ _ _ _ _ _ Hrun)
      as (-> & _ & response1 & -> & Hstatus & _).
    simpl in Hstatus. simpl.
    serve_cases.
    all: eexists; eexists; eexists; (split; [reflexivity|]); simpl;
      (split; [exact Hstatus|]); (split; [reflexivity|]); (split; [reflexivity|]);
      (split; [reflexivity|]);
      first
        [ left; reflexivity
        | right; eexists; eexists; eexists; (split; [reflexivity|]);
          (split; [first [left; split; reflexivity | right; split; reflexivity]|]);
          (split; reflexivity) ].
Qed.

Ltac serve_start Hheaders :=
  serve_unfold;
  let Hrun := fresh "Hrun" in
  pose proof (setHeaders_returned _ _ _ _ Hheaders) as Hrun;
  rewrite Hrun; simpl;
  let Hresp := fresh "Hresp" in
  destruct (setHeaders_response_rest _ _ _ _ _ _ Hrun)
    as (_ & _ & response1 & Hresp & Hstatus & _);
  rewrite Hresp; simpl; simpl in Hstatus.


(** X18. When the template engine throws on the body, once the headers of
    the chosen response are applied (and for a status code Node accepts),
    the callback still answers: it gives
    [send] the fixed text followed by the message of the error, records it
    as body, keeps the status code of the chosen response (the error has no
    status of its own), and emits one route serving error event. *)
Theorem serveRouteResponse_body_failure (enabledRouteResponse : RouteResponse)
  (request : Request) (this : MockoonServer) (response : Response) (error : Error) :
  rr_filePath enabledRouteResponse = "" ->
  rr_disableTemplating enabledRouteResponse = false ->
  TemplateParser
    (if truthy (rr_body enabledRouteResponse) then rr_body enabledRouteResponse else "")
    request (environment this) = Throw error ->
  returned
    (fst (setHeaders (rr_headers enabledRouteResponse)
            (TResponse (Response_status (rr_statusCode enabledRouteResponse) response))
            request this)) = true ->
  100 <= rr_statusCode enabledRouteResponse <= 999 ->
  exists response' : Response,
    serveRouteResponse enabledRouteResponse request (mkServing this response)
    = (Normal tt,
       mkServing
         (mkServer (environment this) (options this)
            (emitted this ++ [Ev_error ROUTE_SERVING_ERROR error]))
         response')
    /\ res_sent response'
       = Some (ROUTE_SERVING_ERROR_MESSAGE Texts ++ err_message error)%string
    /\ res_body response' = res_sent response'
    /\ res_statusCode response' = rr_statusCode enabledRouteResponse.
Proof.
  intros Hfile Htemplating Hthrow Hheaders _.
  serve_start Hheaders.
  rewrite Hfile, Htemplating. simpl.
  destruct (includes _ "application/json"); simpl; rewrite Hthrow; simpl;
    eexists; (split; [reflexivity|]); simpl; repeat split; auto.
Qed.

(** X20. When the file of the chosen response cannot be read, once the
    headers of the chosen response and the two fields computed from the file
    are accepted (and for a status code Node accepts), the callback answers
    with the status code of the chosen
    response, gives [send] the fixed text followed by the message of the read
    error, and emits one route file serving error event; the
    Content-Disposition field set for a download before the read is still in
    the store of the response. *)
Theorem serveRouteResponse_file_read_failure (enabledRouteResponse : RouteResponse)
  (request : Request) (this : MockoonServer) (response : Response) (filePath : string)
  (error : Error) :
  rr_filePath enabledRouteResponse <> "" ->
  TemplateParser (replace_global regexp_backslash "/" (rr_filePath enabledRouteResponse))
    request (environment this) = Normal filePath ->
  readFile filePath = Throw error ->
  returned
    (fst (setHeaders (rr_headers enabledRouteResponse)
            (TResponse (Response_status (rr_statusCode enabledRouteResponse) response))
            request this)) = true ->
  100 <= rr_statusCode enabledRouteResponse <= 999 ->
  setHeader_error "Content-Type"
    (HVString match mimeTypeLookup filePath with
              | Some mimeType => mimeType
              | None => ""
              end) = None ->
  setHeader_error "Content-Disposition"
    (HVString ("attachment; filename=" ++ quoted (basename filePath))%string) = None ->
  exists response' : Response,
    serveRouteResponse enabledRouteResponse request (mkServing this response)
    = (Normal tt,
       mkServing
         (mkServer (environment this) (options this)
            (emitted this ++ [Ev_error ROUTE_FILE_SERVING_ERROR error]))
         response')
    /\ res_sent response'
       = Some (ROUTE_FILE_SERVING_ERROR_MESSAGE Texts ++ err_message error)%string
    /\ res_body response' = res_sent response'
    /\ res_statusCode response' = rr_statusCode enabledRouteResponse
    /\ (rr_sendFileAsBody enabledRouteResponse = false ->
        getHeader "Content-Disposition" (res_headers response')
        = HVString ("attachment; filename=" ++ quoted (basename filePath))%string).
Proof.
  intros Hfile Hpath Hread Hheaders _ Htype Hdisposition. apply truthy_true_iff in Hfile.
  simpl in Hdisposition.
  serve_start Hheaders.
  rewrite Hfile. simpl. rewrite Hpath. simpl.
  destruct (GetContentType (rr_headers enabledRouteResponse)) as [value|];
    [destruct (truthy value)|]; simpl; rewrite ?Htype; simpl;
    destruct (rr_sendFileAsBody enabledRouteResponse); simpl; rewrite ?Hdisposition;
    simpl; rewrite Hread; simpl;
    eexists; (split; [reflexivity|]); simpl;
    (split; [reflexivity|]); (split; [reflexivity|]); (split; [exact Hstatus|]);
    intros Hdownload; try discriminate.
  all: rewrite (getHeader_setHeader_other "Content-Disposition" "Content-Type")
         by (intros H; discriminate H);
       apply (getHeader_setHeader_same "Content-Disposition").
Qed.

(** X21. A file that is not rendered (its mime type is not one of the
    templated ones, or templating is disabled) is given to [send] as it was
    read, while the body recorded for the log is the binary marker, and no
    event is emitted: this once the headers of the chosen response and the
    two fields computed from the file are accepted, and for a status code
    Node accepts. *)
Theorem serveRouteResponse_binary_file (enabledRouteResponse : RouteResponse)
  (request : Request) (this : MockoonServer) (response : Response)
  (filePath data : string) :
  rr_filePath enabledRouteResponse <> "" ->
  TemplateParser (replace_global regexp_backslash "/" (rr_filePath enabledRouteResponse))
    request (environment this) = Normal filePath ->
  readFile filePath = Normal data ->
  existsb (String.eqb match mimeTypeLookup filePath with
                      | Some mimeType => mimeType
                      | None => ""
                      end) MimeTypesWithTemplating
  && negb (rr_disableTemplating enabledRouteResponse) = false ->
  returned
    (fst (setHeaders (rr_headers enabledRouteResponse)
            (TResponse (Response_status (rr_statusCode enabledRouteResponse) response))
            request this)) = true ->
  100 <= rr_statusCode enabledRouteResponse <= 999 ->
  setHeader_error "Content-Type"
    (HVString match mimeTypeLookup filePath with
              | Some mimeType => mimeType
              | None => ""
              end) = None ->
  setHeader_error "Content-Disposition"
    (HVString ("attachment; filename=" ++ quoted (basename filePath))%string) = None ->
  exists response' : Response,
    serveRouteResponse enabledRouteResponse request (mkServing this response)
    = (Normal tt, mkServing this response')
    /\ res_sent response' = Some data
    /\ res_body response' = Some BINARY_BODY
    /\ res_statusCode response' = rr_statusCode enabledRouteResponse.
Proof.
  intros Hfile Hpath Hread Hplain Hheaders _ Htype Hdisposition.
  apply truthy_true_iff in Hfile. simpl in Hdisposition.
  serve_start Hheaders.
  rewrite Hfile. simpl. rewrite Hpath. simpl.
  destruct (GetContentType (rr_headers enabledRouteResponse)) as [value|];
    [destruct (truthy value)|]; simpl; rewrite ?Htype; simpl;
    destruct (rr_sendFileAsBody enabledRouteResponse); simpl; rewrite ?Hdisposition;
    simpl; rewrite Hread; simpl; rewrite Hplain; simpl;
    eexists; (split; [reflexivity|]); simpl;
    (split; [reflexivity|]); (split; [reflexivity|]); exact Hstatus.
Qed.

(** ** Registration, refresh and the handler *)

(** X22. [setRoutes] never throws and registers exactly the enabled routes
    that express accepts, in the order of the environment, each under its
    normalized path and with a request counter of 1; a disabled route is not
    registered; a route express refuses is not registered, emits one route
    creation error (the regex kind when the message says so) and does not stop
    the routes after it; nothing else of the instance changes. *)
Theorem setRoutes_registers_accepted_routes (this : MockoonServer) :
  setRoutes this
  = (Normal
       (map (fun declaredRoute =>
               mkRegistered (route_method declaredRoute)
                 (routePath (environment this) declaredRoute) declaredRoute 1)
            (filter (fun declaredRoute =>
                       route_enabled declaredRoute
                       && returned (express_route (route_method declaredRoute)
                                      (routePath (environment this) declaredRoute)))
                    (env_routes (environment this)))),
     mkServer (environment this) (options this)
       (emitted this
        ++ flat_map
             (fun declaredRoute =>
                if route_enabled declaredRoute then
                  match express_route (route_method declaredRoute)
                          (routePath (environment this) declaredRoute) with
                  | Normal _ => []
                  | Throw error =>
                      [Ev_error
                         (if includes (err_message error) "Invalid regular expression"
                          then ROUTE_CREATION_ERROR_REGEX else ROUTE_CREATION_ERROR)
                         error]
                  end
                else [])
             (env_routes (environment this)))).
Proof.
  unfold setRoutes, bind at 1, gets at 1.
  match goal with |- forEach ?callback _ _ _ = _ => set (register := callback) end.
  assert (Hgen : forall routes acc events,
             forEach register routes acc
               (mkServer (environment this) (options this) (emitted this ++ events))
             = (Normal
                  (acc ++ map (fun declaredRoute =>
                                 mkRegistered (route_method declaredRoute)
                                   (routePath (environment this) declaredRoute)
                                   declaredRoute 1)
                            (filter (fun declaredRoute =>
                                       route_enabled declaredRoute
                                       && returned
                                            (express_route (route_method declaredRoute)
                                               (routePath (environment this)
                                                  declaredRoute)))
                                    routes)),
                mkServer (environment this) (options this)
                  (emitted this ++ events
                   ++ flat_map
                        (fun declaredRoute =>
                           if route_enabled declaredRoute then
                             match express_route (route_method declaredRoute)
                                     (routePath (environment this) declaredRoute) with
                             | Normal _ => []
                             | Throw error =>
                                 [Ev_error
                                    (if includes (err_message error)
                                          "Invalid regular expression"
                                     then ROUTE_CREATION_ERROR_REGEX
                                     else ROUTE_CREATION_ERROR)
                                    error]
                             end
                           else [])
                        routes))).
  { induction routes as [|declaredRoute routes IH]; intros acc events.
    - simpl. now rewrite !app_nil_r.
    - simpl. unfold bind at 1. unfold register at 1.
      destruct (route_enabled declaredRoute); simpl.
      + unfold try_catch, bind, gets, call, ret, emit, modify. simpl.
        destruct (express_route (route_method declaredRoute)
                    (routePath (environment this) declaredRoute)) as [[]|error]; simpl.
        * rewrite IH, <- app_assoc. reflexivity.
        * rewrite <- app_assoc. rewrite (IH acc (events ++ [_])).
          rewrite <- !app_assoc. reflexivity.
      + apply IH. }
  specialize (Hgen (env_routes (environment this)) [] []).
  rewrite app_nil_r in Hgen. destruct this as [env opts evs]. simpl in *.
  exact Hgen.
Qed.

Lemma find_first {A : Type} (p : A -> bool) (l : list A) (x : A) :
  find p l = Some x ->
  exists before after, l = before ++ x :: after /\ forallb (fun y => negb (p y)) before = true.
Proof.
  induction l as [|y l IH]; simpl; [discriminate|].
  destruct (p y) eqn:E.
  - intros H. injection H as <-. now exists [], l.
  - intros H. destruct (IH H) as (before & after & -> & Hbefore).
    exists (y :: before), after. simpl. now rewrite E, Hbefore.
Qed.

(** X23. With a refresh function and an environment that has a uuid, the
    route [getRefreshedRoute] returns is a route of the current environment
    with the uuid of the declared route, and the first one in the order of the
    environment: the routes before it have other uuids. *)
Theorem getRefreshedRoute_first_with_uuid (this : MockoonServer) (declaredRoute : Route)
  (currentRoute : Route) :
  refreshEnvironmentFunction (options this) <> None ->
  env_uuid (environment this) <> "" ->
  fst (getRefreshedRoute declaredRoute this) = Normal (Some currentRoute) ->
  route_uuid currentRoute = route_uuid declaredRoute
  /\ exists before after,
       env_routes (environment this) = before ++ currentRoute :: after
       /\ Forall (fun route => route_uuid route <> route_uuid declaredRoute) before.
Proof.
  intros Hf Hu. rewrite getRefreshedRoute_cases. simpl.
  destruct (refreshEnvironmentFunction (options this)); [|contradiction]. simpl.
  apply truthy_true_iff in Hu. rewrite Hu. intros Hfind. injection Hfind as Hfind.
  split.
  - apply find_some in Hfind. now apply String.eqb_eq.
  - destruct (find_first _ _ _ Hfind) as (before & after & Hsplit & Hbefore).
    exists before, after. split; [exact Hsplit|].
    rewrite forallb_forall in Hbefore. apply Forall_forall. intros route Hin.
    specialize (Hbefore route Hin). apply negb_true_iff in Hbefore.
    now apply String.eqb_neq.
Qed.

Lemma refreshEnvironment_emitted (this : MockoonServer) :
  emitted (snd (refreshEnvironment this)) = emitted this.
Proof.
  rewrite refreshEnvironment_cases. simpl.
  destruct (refreshEnvironmentFunction (options this)) as [refresh|]; [|reflexivity].
  destruct (truthy (env_uuid (environment this))); [|reflexivity].
  destruct (refresh (env_uuid (environment this))); reflexivity.
Qed.

(** X24. A call of a route handler emits no event and leaves the options
    alone: the instance after the call is the instance after the refresh.
    The request counter of the route is left as it was when the call answers
    that the route no longer exists, and is one more in every other case,
    also when the call throws because no response was selected. *)
Theorem routeHandler_effects (declaredRoute : Route) (request : Request)
  (response : Response) (draw : nat) (closure : RouteClosure) :
  cl_this (snd (routeHandler declaredRoute request response draw closure))
  = snd (refreshEnvironment (cl_this closure))
  /\ emitted (cl_this (snd (routeHandler declaredRoute request response draw closure)))
     = emitted (cl_this closure)
  /\ options (cl_this (snd (routeHandler declaredRoute request response draw closure)))
     = options (cl_this closure)
  /\ (answered_gone (fst (routeHandler declaredRoute request response draw closure)) = true ->
      cl_requestNumber (snd (routeHandler declaredRoute request response draw closure))
      = cl_requestNumber closure)
  /\ (answered_gone (fst (routeHandler declaredRoute request response draw closure)) = false ->
      cl_requestNumber (snd (routeHandler declaredRoute request response draw closure))
      = cl_requestNumber closure + 1)
  /\ (forall error,
         fst (routeHandler declaredRoute request response draw closure) = Throw error ->
         error = TypeError
         /\ cl_requestNumber (snd (routeHandler declaredRoute request response draw closure))
            = cl_requestNumber closure + 1).
Proof.
  rewrite routeHandler_this, refreshEnvironment_emitted, refreshEnvironment_options.
  rewrite routeHandler_counter.
  repeat (split; [try reflexivity; intros ->; reflexivity|]).
  rewrite routeHandler_cases. simpl. rewrite getRefreshedRoute_cases. simpl.
  intros error.
  match goal with |- context [if ?c then _ else _] => destruct c end; simpl.
  - match goal with |- context [find ?f ?l] => destruct (find f l) end; simpl;
      [|discriminate].
    destruct (chooseResponse _ _ _ _); simpl; [discriminate|].
    intros H. injection H as <-. auto.
  - destruct (chooseResponse _ _ _ _); simpl; [discriminate|].
    intros H. injection H as <-. auto.
Qed.

(** X25. The delay of a request is the latency of the refreshed environment:
    when the refresh function returns an environment, its latency is the one
    applied, not the latency held when the request came in. *)
Theorem delayResponse_uses_refreshed_latency (this : MockoonServer)
  (refresh : string -> option Environment) (updatedEnvironment : Environment) :
  refreshEnvironmentFunction (options this) = Some refresh ->
  env_uuid (environment this) <> "" ->
  refresh (env_uuid (environment this)) = Some updatedEnvironment ->
  delayResponse this
  = (Normal (env_latency updatedEnvironment), with_environment updatedEnvironment this).
Proof.
  intros Hf Hu Hr. unfold delayResponse, bind. rewrite refreshEnvironment_cases.
  apply truthy_true_iff in Hu. rewrite Hf, Hu, Hr. reflexivity.
Qed.

(** ** The body of the request and the proxy hooks *)

Lemma hv_includes_truthy (v : HeaderValue) (part : string) :
  part <> "" -> hv_includes v part = true -> hv_truthy v = true.
Proof.
  intros Hpart. destruct v as [|s|l]; simpl; try discriminate; [|reflexivity].
  destruct s as [|c s]; [|reflexivity].
  destruct part; [contradiction | discriminate].
Qed.

(** X26. [parseBody] never throws: whatever the chunks, the content type and
    the parsers do, it returns with the raw body (the chunks in order) and
    its text on the request, at most one of the parsed bodies, and at most one
    event, which is then a request body parse error with no parsed body; the
    environment and the options are not touched.  Without a Content-Type on
    the request no event is emitted and nothing is parsed. *)
Theorem parseBody_never_fails (request : Request) (chunks : list string)
  (this : MockoonServer) :
  exists (parsed : ParsedRequest JSON Form) (this' : MockoonServer),
    parseBody request chunks this = (Normal parsed, this')
    /\ pr_request parsed
       = with_bodies (String.concat "" chunks) (Buffer_toString (String.concat "" chunks))
           request
    /\ environment this' = environment this
    /\ options this' = options this
    /\ (pr_bodyJSON parsed = None \/ pr_bodyForm parsed = None)
    /\ (emitted this' = emitted this
        \/ exists error,
             emitted this' = emitted this ++ [Ev_error REQUEST_BODY_PARSE error]
             /\ pr_bodyJSON parsed = None /\ pr_bodyForm parsed = None)
    /\ (hv_truthy (Request_header "Content-Type" request) = false ->
        emitted this' = emitted this
        /\ pr_bodyJSON parsed = None /\ pr_bodyForm parsed = None).
Proof.
  unfold parseBody, try_catch, bind, call, ret, emit, modify. simpl.
  destruct (hv_truthy (Request_header "Content-Type" request)); simpl.
  - destruct (hv_includes _ "application/json"); simpl.
    + destruct (JSON_parse _); simpl; eexists; eexists; (split; [reflexivity|]); simpl;
        repeat split; auto; try discriminate.
      right. eexists. auto.
    + destruct (hv_includes _ "application/x-www-form-urlencoded"); simpl.
      * destruct (qsParse _); simpl; eexists; eexists; (split; [reflexivity|]); simpl;
          repeat split; auto; try discriminate.
        right. eexists. auto.
      * eexists; eexists; (split; [reflexivity|]); simpl; repeat split; auto;
          discriminate.
  - eexists; eexists; (split; [reflexivity|]); simpl; repeat split; auto.
Qed.

(** X27. A JSON body that does not parse is not fatal: with a Content-Type
    that mentions application/json and a parser that throws, [parseBody]
    returns normally with the text of the body on the request and no parsed
    body, emits one request body parse error that carries the error, and
    never consults the form parser. *)
Theorem parseBody_json_failure (request : Request) (chunks : list string)
  (this : MockoonServer) (error : Error) :
  hv_includes (Request_header "Content-Type" request) "application/json" = true ->
  JSON_parse (Buffer_toString (String.concat "" chunks)) = Throw error ->
  parseBody request chunks this
  = (Normal
       (mkParsed
          (with_bodies (String.concat "" chunks)
             (Buffer_toString (String.concat "" chunks)) request)
          None None),
     mkServer (environment this) (options this)
       (emitted this ++ [Ev_error REQUEST_BODY_PARSE error])).
Proof.
  intros Hjson Hthrow.
  unfold parseBody, try_catch, bind, call, ret, emit, modify. simpl.
  rewrite (hv_includes_truthy _ "application/json") by (try discriminate; exact Hjson).
  rewrite Hjson. simpl. rewrite Hthrow. reflexivity.
Qed.

(** X28. [onProxyReq] marks the request as proxied, so the transaction of
    the request is logged as proxied.  It throws in two cases: Node refuses
    a field of the proxy request headers, or the prefix is to be removed and
    is not a regular expression; the hook then ends with that error.
    Otherwise it writes the raw body captured by [parseBody], once and after
    what was already written, and writes nothing when no body was captured;
    and it leaves the path of the outgoing request as it is when the
    refreshed environment does not ask to remove the prefix or has an empty
    prefix. *)
Theorem onProxyReq_restreams_body (proxyReq : ClientRequest) (request : Request)
  (this : MockoonServer) :
  (forall (target1 : Target) (this2 : MockoonServer),
      setHeaders (env_proxyReqHeaders (environment (snd (refreshEnvironment this))))
        (TClientRequest proxyReq) (with_proxied true request) (snd (refreshEnvironment this))
      = (Normal target1, this2) ->
      env_proxyRemovePrefix (environment (snd (refreshEnvironment this))) = false
      \/ env_endpointPrefix (environment (snd (refreshEnvironment this))) = ""
      \/ returned (RegExp ("^/" ++ env_endpointPrefix
                                     (environment (snd (refreshEnvironment this))))%string)
         = true ->
      exists proxyReq' : ClientRequest,
        onProxyReq proxyReq request this
        = (Normal (proxyReq', with_proxied true request), snd (refreshEnvironment this))
        /\ creq_written proxyReq'
           = creq_written proxyReq
             ++ match req_rawBody request with
                | Some rawBody => [rawBody]
                | None => []
                end
        /\ (env_proxyRemovePrefix (environment (snd (refreshEnvironment this))) = false
            \/ env_endpointPrefix (environment (snd (refreshEnvironment this))) = "" ->
            creq_path proxyReq' = creq_path proxyReq)
        /\ (forall response : Response,
               tx_proxied
                 (CreateTransaction URL_pathname (with_proxied true request) response)
               = true))
  /\ (forall (error : Error) (this2 : MockoonServer),
         setHeaders (env_proxyReqHeaders (environment (snd (refreshEnvironment this))))
           (TClientRequest proxyReq) (with_proxied true request)
           (snd (refreshEnvironment this))
         = (Throw error, this2) ->
         onProxyReq proxyReq request this = (Throw error, snd (refreshEnvironment this)))
  /\ (forall (target1 : Target) (this2 : MockoonServer) (error : Error),
         setHeaders (env_proxyReqHeaders (environment (snd (refreshEnvironment this))))
           (TClientRequest proxyReq) (with_proxied true request)
           (snd (refreshEnvironment this))
         = (Normal target1, this2) ->
         env_proxyRemovePrefix (environment (snd (refreshEnvironment this))) = true ->
         env_endpointPrefix (environment (snd (refreshEnvironment this))) <> "" ->
         RegExp ("^/" ++ env_endpointPrefix
                          (environment (snd (refreshEnvironment this))))%string
         = Throw error ->
         onProxyReq proxyReq request this = (Throw error, snd (refreshEnvironment this))).
Proof.
  unfold onProxyReq, bind.
  pose proof (refreshEnvironment_fst this) as Hfst.
  destruct (refreshEnvironment this) as [completion this1]. simpl in *. subst completion.
  split; [|split].
  - intros target1 this2 Hrun Hok. rewrite Hrun.
    destruct (setHeaders_stored _ _ _ _ _ _ Hrun) as [-> Hstored].
    pose proof (stored_headers_rest this1 (with_proxied true request)
                  (env_proxyReqHeaders (environment this1)) (TClientRequest proxyReq))
      as Hrest.
    rewrite <- Hstored in Hrest.
    destruct target1 as [|proxyReq1|]; try discriminate.
    simpl in Hrest. injection Hrest as Hpath Hwritten. simpl.
    destruct (env_proxyRemovePrefix (environment this1)
              && (0 <? String.length (env_endpointPrefix (environment this1)))) eqn:Hcond.
    + apply andb_true_iff in Hcond. destruct Hcond as [Hremove Hlen].
      apply Nat.ltb_lt in Hlen.
      destruct Hok as [Hok|[Hok|Hok]];
        [congruence | rewrite Hok in Hlen; simpl in Hlen; lia |].
      unfold call, ret.
      destruct (RegExp (String "^" (String "/" (env_endpointPrefix (environment this1)))))
        as [regExp|error]; [|discriminate Hok].
      eexists. split; [reflexivity|]. simpl. split; [|split; [|reflexivity]].
      * destruct (req_rawBody request); simpl; rewrite Hwritten;
          [reflexivity | now rewrite app_nil_r].
      * intros [H|H]; [congruence | rewrite H in Hlen; simpl in Hlen; lia].
    + unfold ret. eexists. split; [reflexivity|]. simpl. split; [|split; [|reflexivity]].
      * destruct (req_rawBody request); simpl; rewrite Hwritten;
          [reflexivity | now rewrite app_nil_r].
      * intros _. destruct (req_rawBody request); simpl; exact Hpath.
  - intros error this2 Hrun. rewrite Hrun.
    now destruct (setHeaders_throw _ _ _ _ _ _ Hrun) as [-> _].
  - intros target1 this2 error Hrun Hremove Hprefix Hthrow. rewrite Hrun.
    destruct (setHeaders_stored _ _ _ _ _ _ Hrun) as [-> _]. simpl. rewrite Hremove.
    assert (Hlen : (0 <? String.length (env_endpointPrefix (environment this1))) = true)
      by (destruct (env_endpointPrefix (environment this1)); [congruence | reflexivity]).
    rewrite Hlen. simpl. unfold call. simpl in Hthrow. now rewrite Hthrow.
Qed.

Lemma fold_left_append_concat (f : string -> string) (chunks : list string) :
  forall body : string,
    fold_left (fun body chunk => (body ++ f chunk)%string) chunks body
    = (body ++ String.concat "" (map f chunks))%string.
Proof.
  induction chunks as [|chunk rest IH]; intros body.
  - simpl. induction body as [|c body IHb]; simpl; [reflexivity | now rewrite <- IHb].
  - cbn [fold_left map]. rewrite IH, string_app_assoc. f_equal.
    destruct rest as [|chunk' rest']; [|reflexivity].
    simpl. induction (f chunk) as [|c s IHs]; simpl; [reflexivity | now rewrite IHs].
Qed.

(** X30. [onProxyRes] never throws and leaves the instance as the refresh
    left it.  On the headers of the upstream response it touches only the
    names the refreshed environment lists among its proxy response headers,
    compared as written: a name the list does not spell the same way keeps
    its value.  The body the listeners record on the response is the text of
    the chunks, concatenated in the order they came, and nothing else of the
    response is changed by them. *)
Theorem onProxyRes_effects (proxyRes : IncomingMessage) (request : Request)
  (this : MockoonServer) :
  exists proxyRes' : IncomingMessage,
    onProxyRes proxyRes request this = (Normal proxyRes', snd (refreshEnvironment this))
    /\ (forall name : string,
           Forall (fun header => key header <> name)
             (env_proxyResHeaders (environment (snd (refreshEnvironment this)))) ->
           IncomingMessage_get name proxyRes' = IncomingMessage_get name proxyRes)
    /\ (forall (chunks : list string) (response : Response),
           onProxyRes_end chunks response
           = Response_assign_body (String.concat "" (map Buffer_toString chunks)) response).
Proof.
  unfold onProxyRes, bind.
  pose proof (refreshEnvironment_fst this) as Hfst.
  destruct (refreshEnvironment this) as [completion this1]. simpl in *. subst completion.
  rewrite setHeaders_incoming.
  pose proof (stored_headers_rest this1 request (env_proxyResHeaders (environment this1))
                (TIncomingMessage proxyRes)) as Hrest.
  destruct (stored_headers this1 request (env_proxyResHeaders (environment this1))
              (TIncomingMessage proxyRes)) as [| |proxyRes1] eqn:Hstored;
    try discriminate.
  exists proxyRes1. split; [reflexivity|]. split.
  - intros name Hkeys.
    change (target_get (TIncomingMessage proxyRes1) name
            = target_get (TIncomingMessage proxyRes) name).
    rewrite <- Hstored. apply stored_headers_frame_slot.
    apply slot_values_other_keys. eapply Forall_impl; [|exact Hkeys].
    intros header Hne. simpl. apply String.eqb_neq. congruence.
  - intros chunks response. unfold onProxyRes_end.
    now rewrite fold_left_append_concat.
Qed.

End Server.

(** ** Path normalization *)

Lemma string_drop_length (n : nat) (s : string) :
  String.length (string_drop n s) = String.length s - n.
Proof.
  revert s; induction n as [|n IH]; intros [|c r]; simpl; auto.
Qed.

Lemma replace_global_cons (matcher : string -> option nat) (replacement : string)
  (c : ascii) (r : string) :
  replace_global matcher replacement (String c r)
  = match matcher (String c r) with
    | Some O => (replacement ++ String c (replace_global matcher replacement r))%string
    | Some (S n) =>
        (replacement ++ replace_global matcher replacement (string_drop n r))%string
    | None => String c (replace_global matcher replacement r)
    end.
Proof.
  simp replace_global. destruct (matcher (String c r)) as [[|n]|]; reflexivity.
Qed.

Lemma is_slash_eq c : is_slash c = true -> c = "/"%char.
Proof. unfold is_slash. apply Ascii.eqb_eq. Qed.

Lemma squeeze_slash_run (r : string) :
  squeeze (String "/" r) = String "/" (squeeze (string_drop (span_length is_slash r) r)).
Proof.
  induction r as [|c r IH].
  - reflexivity.
  - cbn [span_length]. destruct (is_slash c) eqn:E.
    + apply is_slash_eq in E. subst c. cbn [string_drop].
      rewrite <- IH. reflexivity.
    + cbn [string_drop]. simpl. rewrite E. reflexivity.
Qed.

Lemma squeeze_no_run (c : ascii) (r : string) :
  is_slash c && (1 <=? span_length is_slash r) = false ->
  squeeze (String c r) = String c (squeeze r).
Proof.
  intros H. destruct r as [|c' r]; [reflexivity|].
  cbn [squeeze]. cbn [span_length] in H.
  destruct (is_slash c), (is_slash c'); simpl in *; try reflexivity; discriminate.
Qed.

Lemma regexp_slashes_cons (c : ascii) (r : string) :
  regexp_slashes (String c r)
  = if is_slash c && (1 <=? span_length is_slash r)
    then Some (S (span_length is_slash r)) else None.
Proof.
  unfold regexp_slashes. cbn [span_length].
  destruct (is_slash c); [|reflexivity].
  destruct (span_length is_slash r); reflexivity.
Qed.

Lemma replace_slashes_squeeze (s : string) :
  replace_global regexp_slashes "/" s = squeeze s.
Proof.
  remember (String.length s) as n eqn:Hn. revert s Hn.
  induction n as [n IH] using lt_wf_ind. intros s Hn.
  destruct s as [|c r].
  - reflexivity.
  - rewrite replace_global_cons, regexp_slashes_cons.
    destruct (is_slash c && (1 <=? span_length is_slash r)) eqn:Hrun.
    + apply andb_prop in Hrun. destruct Hrun as [Hc Hspan].
      apply is_slash_eq in Hc. subst c.
      rewrite squeeze_slash_run. cbn [append]. f_equal.
      apply (IH (String.length (string_drop (span_length is_slash r) r))); [|reflexivity].
      rewrite string_drop_length. apply Nat.leb_le in Hspan. subst n. simpl. lia.
    + rewrite (squeeze_no_run _ _ Hrun). f_equal.
      apply (IH (String.length r)); [subst n; simpl; lia | reflexivity].
Qed.

Lemma runs_cons_head (c : ascii) (r : string) :
  exists n t, runs (String c r) = (c, S n) :: t.
Proof.
  simpl. destruct (runs r) as [|[c' n] t]; [now exists 0, []|].
  destruct (Ascii.eqb c c'); eexists; eexists; reflexivity.
Qed.

Lemma squeeze_cons (c c' : ascii) (r : string) :
  squeeze (String c (String c' r))
  = if is_slash c && is_slash c' then squeeze (String c' r)
    else String c (squeeze (String c' r)).
Proof. reflexivity. Qed.

Lemma collapse_run_one (c : ascii) : collapse_run (c, 1) = (c, 1).
Proof.
  unfold collapse_run. cbn [fst snd]. now destruct (is_slash c).
Qed.

Lemma squeeze_runs (s : string) : squeeze s = collapse_slash_runs s.
Proof.
  unfold collapse_slash_runs. induction s as [|c r IH]; [reflexivity|].
  destruct r as [|c' r'].
  - cbn [runs map of_runs]. now rewrite collapse_run_one.
  - destruct (runs_cons_head c' r') as (n & t & Hruns).
    rewrite squeeze_cons. change (runs (String c (String c' r')))
      with (match runs (String c' r') with
            | (c'', n) :: t => if Ascii.eqb c c'' then (c, S n) :: t else (c, 1) :: (c'', n) :: t
            | [] => [(c, 1)]
            end).
    rewrite Hruns in *. 
    destruct (Ascii.eqb c c') eqn:Hcc.
    + apply Ascii.eqb_eq in Hcc. subst c'.
      rewrite andb_diag. destruct (is_slash c) eqn:Hc.
      * rewrite IH. cbn [map of_runs]. unfold collapse_run. cbn [fst snd]. rewrite Hc.
        simpl. destruct n; reflexivity.
      * rewrite IH. cbn [map of_runs]. unfold collapse_run. cbn [fst snd]. rewrite Hc.
        reflexivity.
    + assert (Hand : is_slash c && is_slash c' = false).
      { destruct (is_slash c) eqn:H1, (is_slash c') eqn:H2; try reflexivity.
        apply is_slash_eq in H1, H2. subst. rewrite Ascii.eqb_refl in Hcc. discriminate. }
      rewrite Hand, IH. cbn [map of_runs]. rewrite collapse_run_one. reflexivity.
Qed.

Lemma runs_nil (s : string) : runs s = [] -> s = "".
Proof.
  destruct s as [|c r]; [reflexivity|].
  destruct (runs_cons_head c r) as (n & t & ->). discriminate.
Qed.

(** [runs] cuts a string into its maximal runs, and loses nothing. *)
Lemma of_runs_runs (s : string) : of_runs (runs s) = s.
Proof.
  induction s as [|c r IH]; [reflexivity|]. simpl.
  destruct (runs r) as [|[c' n] t] eqn:Hruns.
  - apply runs_nil in Hruns. now subst r.
  - destruct (Ascii.eqb c c') eqn:Hcc.
    + apply Ascii.eqb_eq in Hcc. subst c'. simpl in *. now rewrite IH.
    + simpl in *. now rewrite IH.
Qed.

Lemma runs_maximal (s : string) : maximal_runs (runs s).
Proof.
  induction s as [|c r IH]; [exact I|]. simpl.
  destruct (runs r) as [|[c' n] t] eqn:Hruns.
  - simpl. auto.
  - destruct (Ascii.eqb c c') eqn:Hcc.
    + apply Ascii.eqb_eq in Hcc. subst c'. simpl in *.
      destruct IH as (Hn & Hneq & Ht). repeat split; [lia | exact Hneq | exact Ht].
    + apply Ascii.eqb_neq in Hcc. simpl in *. repeat split; [lia | exact Hcc | apply IH..].
Qed.

Lemma squeeze_head (c : ascii) (r : string) : exists t, squeeze (String c r) = String c t.
Proof.
  revert c. induction r as [|c' r IH]; intros c.
  - now exists "".
  - rewrite squeeze_cons. destruct (is_slash c && is_slash c') eqn:E.
    + apply andb_prop in E. destruct E as [Hc Hc'].
      apply is_slash_eq in Hc, Hc'. subst. apply IH.
    + eexists. reflexivity.
Qed.

(** No two slashes are left side by side. *)
Lemma squeeze_no_double_slash (s : string) : has_double_slash (squeeze s) = false.
Proof.
  induction s as [|c r IH]; [reflexivity|].
  destruct r as [|c' r']; [reflexivity|].
  rewrite squeeze_cons. destruct (is_slash c && is_slash c') eqn:E; [exact IH|].
  destruct (squeeze_head c' r') as [t Ht]. rewrite Ht in *.
  change (has_double_slash (String c (String c' t)))
    with ((is_slash c && is_slash c') || has_double_slash (String c' t)).
  now rewrite E, IH.
Qed.

(** C5. [deduplicateSlashes] gives the request the url in which every maximal
    run of two or more slashes is a single slash, and changes nothing else;
    no two slashes are left side by side; the stages that run before the
    routes do this and nothing else to the url, so the routes match on the
    collapsed url; and the url "/api//users///1" becomes "/api/users/1". *)
Theorem deduplicateSlashes_collapses_runs (request : Request) :
  deduplicateSlashes request = with_url (collapse_slash_runs (req_url request)) request
  /\ has_double_slash (req_url (deduplicateSlashes request)) = false
  /\ request_at_routes request = deduplicateSlashes request
  /\ req_url (request_at_routes (with_url "/api//users///1" request)) = "/api/users/1".
Proof.
  assert (Hurl : replace_global regexp_slashes "/" (req_url request)
                 = collapse_slash_runs (req_url request)).
  { rewrite replace_slashes_squeeze. apply squeeze_runs. }
  split; [|split; [|split]].
  - unfold deduplicateSlashes. now rewrite Hurl.
  - unfold deduplicateSlashes. simpl. rewrite replace_slashes_squeeze.
    apply squeeze_no_double_slash.
  - reflexivity.
  - reflexivity.
Qed.

(** ** The transaction log *)

Lemma compare_as_OT (a b : string) : (a ?= b)%string = String_as_OT.compare a b.
Proof.
  revert b. induction a as [|x a IH]; intros [|y b]; simpl; try reflexivity.
Qed.

Lemma string_lt_trans (a b c : string) :
  (a ?= b)%string = Lt -> (b ?= c)%string = Lt -> (a ?= c)%string = Lt.
Proof.
  rewrite !compare_as_OT. apply String_as_OT.lt_strorder.
Qed.

Lemma string_leb_trans (a b c : string) :
  (a <=? b)%string = true -> (b <=? c)%string = true -> (a <=? c)%string = true.
Proof.
  unfold String.leb.
  destruct (a ?= b)%string eqn:Hab; try discriminate; intros _;
    destruct (b ?= c)%string eqn:Hbc; try discriminate; intros _.
  - apply String.compare_eq_iff in Hab. subst. now rewrite Hbc.
  - apply String.compare_eq_iff in Hab. subst. now rewrite Hbc.
  - apply String.compare_eq_iff in Hbc. subst. now rewrite Hab.
  - now rewrite (string_lt_trans _ _ _ Hab Hbc).
Qed.


Lemma AscSort_before (a b : Header) : (0 <? AscSort a b)%Z = false -> key_le a b.
Proof.
  unfold AscSort, key_le, String.ltb, String.leb.
  destruct (key a ?= key b)%string; simpl; intros H; try reflexivity; discriminate.
Qed.

Lemma AscSort_after (a b : Header) : (0 <? AscSort a b)%Z = true -> key_le b a.
Proof.
  unfold AscSort, key_le, String.ltb, String.leb.
  rewrite (String.compare_antisym (key b) (key a)).
  destruct (key a ?= key b)%string; simpl; intros H; try reflexivity; discriminate.
Qed.

Lemma sort_insert_HdRel (a x : Header) (l : list Header) :
  key_le a x -> HdRel key_le a l -> HdRel key_le a (sort_insert AscSort x l).
Proof.
  intros Hax Hal. destruct l as [|y t]; simpl.
  - constructor. exact Hax.
  - destruct (0 <? AscSort x y)%Z; constructor; [now inversion Hal | exact Hax].
Qed.

Lemma sort_insert_Sorted (x : Header) (l : list Header) :
  Sorted key_le l -> Sorted key_le (sort_insert AscSort x l).
Proof.
  induction 1 as [|y t Hsorted IH Hhd]; simpl.
  - repeat constructor.
  - destruct (0 <? AscSort x y)%Z eqn:Hcmp.
    + constructor; [exact IH|]. apply sort_insert_HdRel; [|exact Hhd].
      apply AscSort_after, Hcmp.
    + constructor; [constructor; assumption|]. constructor. apply AscSort_before, Hcmp.
Qed.

Lemma Array_sort_Sorted (l : list Header) : Sorted key_le (Array_sort AscSort l).
Proof.
  induction l as [|x t IH]; simpl; [constructor | now apply sort_insert_Sorted].
Qed.

Lemma sort_insert_Permutation {A : Type} (comparefn : A -> A -> Z) (x : A) (l : list A) :
  Permutation (sort_insert comparefn x l) (x :: l).
Proof.
  induction l as [|y t IH]; simpl; [reflexivity|].
  destruct (0 <? comparefn x y)%Z; [|reflexivity].
  rewrite IH. apply perm_swap.
Qed.

Lemma Array_sort_Permutation {A : Type} (comparefn : A -> A -> Z) (l : list A) :
  Permutation (Array_sort comparefn l) l.
Proof.
  induction l as [|x t IH]; simpl; [reflexivity|].
  rewrite sort_insert_Permutation. now constructor.
Qed.

Lemma TransformHeaders_fold (headers : Obj HeaderValue) (keys : list string)
  (acc : list Header) :
  fold_left
    (fun newHeaders key => newHeaders ++ [mkHeader key (header_text (obj_get key headers))])
    keys acc
  = acc ++ map (fun key => mkHeader key (header_text (obj_get key headers))) keys.
Proof.
  revert acc. induction keys as [|k keys IH]; intros acc; simpl.
  - now rewrite app_nil_r.
  - rewrite IH, <- app_assoc. reflexivity.
Qed.

Lemma TransformHeaders_map (headers : Obj HeaderValue) :
  TransformHeaders headers
  = map (fun key => mkHeader key (header_text (obj_get key headers))) (Object_keys headers).
Proof.
  unfold TransformHeaders. now rewrite TransformHeaders_fold.
Qed.

Lemma obj_get_In_keys {V : Type} (k : string) (v : V) (o : Obj V) :
  obj_get k o = Some v -> In k (Object_keys o).
Proof.
  induction o as [|[k' v'] o IH]; simpl; [discriminate|].
  destruct (k' =? k)%string eqn:E.
  - apply String.eqb_eq in E. auto.
  - auto.
Qed.

Lemma TransformHeaders_array (headers : Obj HeaderValue) (name : string)
  (values : list string) :
  obj_get name headers = Some (HVArray values) ->
  In (mkHeader name (String.concat "," values)) (TransformHeaders headers).
Proof.
  intros Hget. rewrite TransformHeaders_map. apply in_map_iff.
  exists name. rewrite Hget. split; [reflexivity|]. eapply obj_get_In_keys, Hget.
Qed.


Lemma key_le_trans : Transitive key_le.
Proof.
  intros a b c. unfold key_le. apply string_leb_trans.
Qed.

(** C9. In the transaction [CreateTransaction] builds, the header list of the
    request and the header list of the response are in ascending order of
    key (every header's key is at most the key of every later header),
    whatever the order of the header objects; they hold the headers of
    [TransformHeaders], and a header whose value is an array appears with the
    elements joined by ','. *)
Theorem CreateTransaction_headers_sorted (URL_pathname : string -> string)
  (request : Request) (response : Response) :
  StronglySorted key_le
    (tx_headers (tx_request (CreateTransaction URL_pathname request response)))
  /\ StronglySorted key_le
       (txr_headers (tx_response (CreateTransaction URL_pathname request response)))
  /\ Permutation
       (tx_headers (tx_request (CreateTransaction URL_pathname request response)))
       (TransformHeaders (req_headers request))
  /\ Permutation
       (txr_headers (tx_response (CreateTransaction URL_pathname request response)))
       (TransformHeaders (res_headers response))
  /\ (forall name values,
         obj_get name (req_headers request) = Some (HVArray values) ->
         In (mkHeader name (String.concat "," values))
            (tx_headers (tx_request (CreateTransaction URL_pathname request response))))
  /\ (forall name values,
         obj_get name (res_headers response) = Some (HVArray values) ->
         In (mkHeader name (String.concat "," values))
            (txr_headers (tx_response (CreateTransaction URL_pathname request response)))).
Proof.
  simpl. repeat split.
  - apply (Sorted_StronglySorted key_le_trans), Array_sort_Sorted.
  - apply (Sorted_StronglySorted key_le_trans), Array_sort_Sorted.
  - apply Array_sort_Permutation.
  - apply Array_sort_Permutation.
  - intros name values Hget.
    eapply Permutation_in; [symmetry; apply Array_sort_Permutation|].
    now apply TransformHeaders_array.
  - intros name values Hget.
    eapply Permutation_in; [symmetry; apply Array_sort_Permutation|].
    now apply TransformHeaders_array.
Qed.

(* ===================================================================== *)
(** * The properties on the sample configuration *)
(* ===================================================================== *)

(** A header with a space in its name, between two good headers, is skipped. *)
Lemma setHeaders_skips_refused_header_witness :
  (key refused_header = "" \/ value refused_header = ""
   \/ sample_TestHeaderValidity (key refused_header) = true)
  /\ setHeaders sample_TestHeaderValidity sample_setHeader_error sample_TemplateParser
       sample_texts ([mkHeader "X-One" "1"] ++ refused_header :: [mkHeader "X-Two" "2"])
       (TResponse sample_response) sample_request (static_server rule_route)
     = setHeaders sample_TestHeaderValidity sample_setHeader_error sample_TemplateParser
         sample_texts ([mkHeader "X-One" "1"] ++ [mkHeader "X-Two" "2"])
         (TResponse sample_response) sample_request (static_server rule_route).
Proof.
  split; [right; right; reflexivity|].
  exact (proj2
           (setHeaders_skips_refused_header sample_TestHeaderValidity sample_setHeader_error
              sample_TemplateParser sample_texts refused_header sample_request
              (or_intror (or_intror eq_refl)))
           [mkHeader "X-One" "1"] [mkHeader "X-Two" "2"] (TResponse sample_response)
           (static_server rule_route)).
Defined.

(** A header whose template throws is written with the error text. *)
Lemma setHeaders_render_failure_witness :
  header_accepted sample_TestHeaderValidity failing_header = true
  /\ sample_TemplateParser (value failing_header) sample_request
       (environment (static_server rule_route))
     = Throw (mkError "Error" "Parse error")
  /\ exists target1 : Target,
       setHeaders_callback sample_TestHeaderValidity sample_setHeader_error
         sample_TemplateParser sample_texts sample_request (TResponse sample_response)
         failing_header (static_server rule_route)
       = (Normal target1, static_server rule_route)
       /\ target_get target1 "X-Test" = HVString (HEADER_PARSING_ERROR sample_texts).
Proof.
  split; [reflexivity|]. split; [reflexivity|].
  destruct (proj1 (proj2
              (setHeaders_render_failure sample_TestHeaderValidity sample_setHeader_error
                 sample_TemplateParser sample_texts failing_header sample_request
                 (static_server rule_route) (mkError "Error" "Parse error") eq_refl eq_refl))
              (TResponse sample_response)
              (stored_header failing_header (HEADER_PARSING_ERROR sample_texts)
                 (TResponse sample_response))
              eq_refl)
    as (Hcallback & _ & Hget & _).
  eexists. split; [exact Hcallback | exact (Hget eq_refl)].
Defined.

(** On a server that is never refreshed the declared route is the current one. *)
Lemma getRefreshedRoute_without_refresh_witness :
  (refreshEnvironmentFunction (options (static_server rule_route)) = None
   \/ env_uuid (environment (static_server rule_route)) = "")
  /\ getRefreshedRoute rule_route (static_server rule_route)
     = (Normal (Some rule_route), static_server rule_route).
Proof.
  split; [left; reflexivity|].
  exact (proj1
           (getRefreshedRoute_without_refresh sample_texts sample_rules_satisfied
              (static_server rule_route) rule_route (or_introl eq_refl))).
Defined.

(** The refresh removes the route: the request is answered 404. *)
Lemma routeHandler_route_gone_witness :
  (refreshEnvironmentFunction (options removing_server) <> None
   /\ env_uuid (environment (snd (refreshEnvironment removing_server))) <> ""
   /\ (forall route,
          In route (env_routes (environment (snd (refreshEnvironment removing_server)))) ->
          route_uuid route <> route_uuid rule_route))
  /\ exists response' : Response,
       routeHandler sample_texts sample_rules_satisfied rule_route sample_request
         sample_response 0 (mkClosure removing_server 1)
       = (Normal (Sent response'), mkClosure (snd (refreshEnvironment removing_server)) 1)
       /\ res_statusCode response' = 404.
Proof.
  assert (H1 : refreshEnvironmentFunction (options removing_server) <> None)
    by (simpl; discriminate).
  assert (H2 : env_uuid (environment (snd (refreshEnvironment removing_server))) <> "")
    by (simpl; discriminate).
  assert (H3 : forall route,
             In route (env_routes (environment (snd (refreshEnvironment removing_server)))) ->
             route_uuid route <> route_uuid rule_route)
    by (simpl; intros route [<-|[]]; discriminate).
  split; [exact (conj H1 (conj H2 H3))|].
  destruct (routeHandler_route_gone sample_texts sample_rules_satisfied removing_server
              rule_route sample_request sample_response 0 1 H1 H2 H3)
    as (response' & Hcall & Hstatus & _).
  exists response'. exact (conj Hcall Hstatus).
Defined.

(** Four requests on a sequential route of two responses. *)
Lemma sequential_requests_cycle_witness :
  (forall this, this = static_server sequential_route ->
                snd (refreshEnvironment this) = static_server sequential_route)
  /\ (forall this, this = static_server sequential_route ->
        exists currentRoute,
          fst (getRefreshedRoute sequential_route this) = Normal (Some currentRoute)
          /\ route_sequentialResponse currentRoute = true
          /\ route_responses currentRoute = [response_a; response_b])
  /\ length four_requests = 2 * length [response_a; response_b]
  /\ map selected
       (fst (serve sample_texts sample_rules_satisfied sequential_route four_requests
               (mkClosure (static_server sequential_route) 1)))
     = [Some response_a; Some response_b; Some response_a; Some response_b].
Proof.
  assert (H1 : forall this, this = static_server sequential_route ->
                            snd (refreshEnvironment this) = static_server sequential_route)
    by (intros this ->; reflexivity).
  assert (H2 : forall this, this = static_server sequential_route ->
               exists currentRoute,
                 fst (getRefreshedRoute sequential_route this) = Normal (Some currentRoute)
                 /\ route_sequentialResponse currentRoute = true
                 /\ route_responses currentRoute = [response_a; response_b])
    by (intros this ->; exists sequential_route; repeat split; reflexivity).
  split; [exact H1|]. split; [exact H2|]. split; [reflexivity|].
  exact (proj2 (proj2
           (sequential_requests_cycle sample_texts sample_rules_satisfied
              (fun this => this = static_server sequential_route) sequential_route
              [response_a; response_b] H1 H2 (static_server sequential_route) eq_refl))
           four_requests eq_refl).
Defined.


(** The refresh function of the sample returns a value: it is held afterwards. *)
Lemma refreshEnvironment_replaces_only_on_value_witness :
  environment (snd (refreshEnvironment removing_server)) = refreshed_without_route.
Proof.
  apply (proj1 (proj2 (proj2 (proj2
           (refreshEnvironment_replaces_only_on_value removing_server))))
           (fun _ => Some refreshed_without_route));
    [reflexivity | discriminate | reflexivity].
Defined.

(** The accept header of the sample request is logged as one joined value. *)
Lemma CreateTransaction_headers_sorted_witness :
  In (mkHeader "accept" "text/html,*/*")
     (tx_headers (tx_request (CreateTransaction (fun url => url) sample_request
                                sample_response))).
Proof.
  apply (proj1 (proj2 (proj2 (proj2 (proj2
           (CreateTransaction_headers_sorted (fun url => url) sample_request
              sample_response)))))
           "accept" ["text/html"; "*/*"]).
  reflexivity.
Defined.

(** C6, as stated, fails: the refresh returns an environment without uuid and
    without the route, and the handler does not answer 404; it selects a
    response of the declared route. *)
Lemma routeHandler_absent_route_counterexample :
  refreshEnvironmentFunction (options unnamed_server) <> None
  /\ (forall route,
         In route (env_routes (environment (snd (refreshEnvironment unnamed_server)))) ->
         route_uuid route <> route_uuid rule_route)
  /\ routeHandler sample_texts sample_rules_satisfied rule_route sample_request
       sample_response 0 (mkClosure unnamed_server 1)
     = (Normal
          (Deferred (Response_assign_uuids "route-1" "response-a" sample_response)
             response_a 0),
        mkClosure (snd (refreshEnvironment unnamed_server)) 2)
  /\ answered_gone
       (fst (routeHandler sample_texts sample_rules_satisfied rule_route sample_request
               sample_response 0 (mkClosure unnamed_server 1))) = false.
Proof.
  split; [simpl; discriminate|].
  split; [simpl; intros route [<-|[]]; discriminate|].
  split; reflexivity.
Qed.


(** Two headers of the same name on an express response are both kept. *)
Example setHeaders_response_multi_value :
  fst (setHeaders sample_TestHeaderValidity sample_setHeader_error sample_TemplateParser
         sample_texts
         [mkHeader "Set-Cookie" "a=1"; mkHeader "set-cookie" "b=2"; mkHeader "X-Empty" ""]
         (TResponse sample_response) sample_request (static_server rule_route))
  = Normal
      (TResponse
         (mkResponse 200 [("set-cookie", HVArray ["a=1"; "b=2"])] None None None None)).
Proof. reflexivity. Qed.

(** The environment sets a Content-Type on the response, then the chosen
    response sets another one: one value is left. *)
Example route_content_type_replaces_environment_one :
  exists response1 response2 : Response,
    setResponseHeaders sample_TestHeaderValidity sample_setHeader_error
      sample_TemplateParser sample_texts sample_request sample_response
      (static_server rule_route)
    = (Normal (TResponse response1), static_server rule_route)
    /\ content_type_count (TResponse response1) = 1
    /\ setHeaders sample_TestHeaderValidity sample_setHeader_error sample_TemplateParser
         sample_texts (rr_headers response_a) (TResponse response1) sample_request
         (static_server rule_route)
       = (Normal (TResponse response2), static_server rule_route)
    /\ content_type_count (TResponse response2) = 1.
Proof.
  eexists. eexists. repeat split; reflexivity.
Qed.

(** A value with a line feed is refused by the transport: the call throws,
    and the header after it is not applied. *)
Example setHeaders_refused_value_throws :
  setHeaders sample_TestHeaderValidity sample_setHeader_error sample_TemplateParser
    sample_texts
    [mkHeader "X-One" "1"; mkHeader "X-Bad" ("a" ++ line_feed ++ "b"); mkHeader "X-Two" "2"]
    (TResponse sample_response) sample_request (static_server rule_route)
  = (Throw (mkError "TypeError" "Invalid character in header content"),
     static_server rule_route).
Proof. reflexivity. Qed.

(** The logged headers of the sample request: sorted, the array joined. *)
Example CreateTransaction_sample_headers :
  tx_headers (tx_request (CreateTransaction (fun url => url) sample_request sample_response))
  = [mkHeader "accept" "text/html,*/*"; mkHeader "host" "localhost"].
Proof. reflexivity. Qed.

(** The body of the 504 sent for a refused connection. *)
Example onError_sample_body :
  res_sent
    (match fst (onError sample_texts (mkError "Error" "connect ECONNREFUSED")
                  sample_request sample_response (static_server rule_route)) with
     | Normal response => response
     | Throw _ => sample_response
     end)
  = Some "An error occured while trying to proxy to http://upstream.test/api/users/1: Error: connect ECONNREFUSED".
Proof. reflexivity. Qed.

(* ===================================================================== *)
(** * Further properties *)
(* ===================================================================== *)

(** ** More on path normalization *)

Lemma squeeze_fixed (s : string) : has_double_slash s = false -> squeeze s = s.
Proof.
  induction s as [|c r IH]; [reflexivity|].
  destruct r as [|c' r']; [reflexivity|].
  change (has_double_slash (String c (String c' r')))
    with ((is_slash c && is_slash c') || has_double_slash (String c' r')).
  intros H. apply orb_false_elim in H. destruct H as [Hcc Hr].
  rewrite squeeze_cons, Hcc, (IH Hr). reflexivity.
Qed.

Lemma with_url_same (request : Request) (url : string) :
  with_url url request = request <-> url = req_url request.
Proof.
  destruct request; unfold with_url; simpl. split; intros H; [now injection H | now subst].
Qed.

(** X1. [deduplicateSlashes] is idempotent: a second pass changes nothing. *)
Theorem deduplicateSlashes_idempotent (request : Request) :
  deduplicateSlashes (deduplicateSlashes request) = deduplicateSlashes request.
Proof.
  unfold deduplicateSlashes at 1.
  apply with_url_same.
  rewrite replace_slashes_squeeze. apply squeeze_fixed.
  unfold deduplicateSlashes. simpl. rewrite replace_slashes_squeeze.
  apply squeeze_no_double_slash.
Qed.

(** X2. [deduplicateSlashes] leaves a request as it is exactly when its url
    has no two slashes side by side. *)
Theorem deduplicateSlashes_fixed_iff (request : Request) :
  deduplicateSlashes request = request <-> has_double_slash (req_url request) = false.
Proof.
  unfold deduplicateSlashes. rewrite with_url_same, replace_slashes_squeeze. split.
  - intros H. rewrite <- H. apply squeeze_no_double_slash.
  - apply squeeze_fixed.
Qed.

Lemma squeeze_filter (p : ascii -> bool) (s : string) :
  p "/"%char = false -> string_filter p (squeeze s) = string_filter p s.
Proof.
  intros Hp. induction s as [|c r IH]; [reflexivity|].
  destruct r as [|c' r']; [reflexivity|].
  rewrite squeeze_cons. destruct (is_slash c && is_slash c') eqn:E.
  - apply andb_prop in E. destruct E as [Hc _]. apply is_slash_eq in Hc. subst c.
    rewrite IH. cbn [string_filter]. now rewrite Hp.
  - cbn [string_filter] in *. now rewrite IH.
Qed.

Lemma squeeze_length (s : string) : String.length (squeeze s) <= String.length s.
Proof.
  induction s as [|c r IH]; [reflexivity|].
  destruct r as [|c' r']; [reflexivity|].
  rewrite squeeze_cons. destruct (is_slash c && is_slash c'); simpl in *; lia.
Qed.

(** X3. [deduplicateSlashes] removes slashes and nothing else: the characters
    of the url that are not slashes are all kept, in order, the url never gets
    longer, and every other field of the request is kept. *)
Theorem deduplicateSlashes_removes_only_slashes (request : Request) :
  string_filter (fun c => negb (is_slash c)) (req_url (deduplicateSlashes request))
  = string_filter (fun c => negb (is_slash c)) (req_url request)
  /\ String.length (req_url (deduplicateSlashes request)) <= String.length (req_url request)
  /\ (String.length (req_url (deduplicateSlashes request)) = String.length (req_url request) ->
      deduplicateSlashes request = request)
  /\ deduplicateSlashes request
     = with_url (req_url (deduplicateSlashes request)) request.
Proof.
  unfold deduplicateSlashes. simpl. rewrite replace_slashes_squeeze.
  split; [apply squeeze_filter; reflexivity|].
  split; [apply squeeze_length|]. split; [|reflexivity].
  intros Hlen. apply with_url_same.
  generalize (req_url request) Hlen. clear. intros s.
  induction s as [|c r IH]; [reflexivity|].
  destruct r as [|c' r']; [reflexivity|].
  rewrite squeeze_cons. destruct (is_slash c && is_slash c') eqn:E.
  - intros H. pose proof (squeeze_length (String c' r')) as Hle. simpl in H, Hle. lia.
  - intros H. simpl in H. injection H as H. f_equal. apply IH. simpl. exact H.
Qed.

(** ** The path a route is registered under *)

Lemma string_exists_app (p : ascii -> bool) (a b : string) :
  string_exists p (a ++ b)%string = string_exists p a || string_exists p b.
Proof.
  induction a as [|c a IH]; simpl; [reflexivity|]. now rewrite IH, orb_assoc.
Qed.

Lemma squeeze_exists (p : ascii -> bool) (s : string) :
  string_exists p s = false -> string_exists p (squeeze s) = false.
Proof.
  induction s as [|c r IH]; [reflexivity|].
  destruct r as [|c' r']; [auto|].
  rewrite squeeze_cons. intros H.
  change (string_exists p (String c (String c' r')))
    with (p c || string_exists p (String c' r')) in H.
  apply orb_false_elim in H. destruct H as [Hc Hr].
  destruct (is_slash c && is_slash c'); [now apply IH|].
  change (p c || string_exists p (squeeze (String c' r')) = false).
  now rewrite Hc, IH.
Qed.

(** Every space becomes [%20]: no space is left. *)
Lemma replace_space_no_space (s : string) :
  string_exists is_space (replace_global regexp_space "%20" s) = false.
Proof.
  induction s as [|c r IH]; [reflexivity|].
  rewrite replace_global_cons. cbn [regexp_space].
  destruct (is_space c) eqn:E.
  - cbn [string_drop append]. cbn [string_exists]. rewrite IH. reflexivity.
  - cbn [string_exists]. now rewrite E, IH.
Qed.

(** X4. Whatever the endpoint prefix and the endpoint of the route (empty,
    or with slashes at their ends), the path [setRoutes] registers starts
    with a slash and has no two slashes side by side. *)
Theorem routePath_normalized (env : Environment) (declaredRoute : Route) :
  (exists rest, routePath env declaredRoute = String "/" rest)
  /\ has_double_slash (routePath env declaredRoute) = false.
Proof.
  unfold routePath. rewrite replace_slashes_squeeze. split.
  - cbn [append]. apply squeeze_head.
  - apply squeeze_no_double_slash.
Qed.

(** X5. The spaces of the endpoint of a route are escaped: when the endpoint
    prefix holds no space, the registered path holds none, whatever the
    endpoint. *)
Theorem routePath_escapes_spaces (env : Environment) (declaredRoute : Route) :
  string_exists is_space (env_endpointPrefix env) = false ->
  string_exists is_space (routePath env declaredRoute) = false.
Proof.
  intros Hprefix. unfold routePath. rewrite replace_slashes_squeeze.
  apply squeeze_exists.
  change ("/" ++ env_endpointPrefix env ++ "/"
          ++ replace_global regexp_space "%20" (route_endpoint declaredRoute))%string
    with (String "/" (env_endpointPrefix env ++ String "/"
            (replace_global regexp_space "%20" (route_endpoint declaredRoute))))%string.
  cbn [string_exists]. rewrite string_exists_app. cbn [string_exists].
  rewrite Hprefix, replace_space_no_space. reflexivity.
Qed.

Lemma routePath_escapes_spaces_witness :
  string_exists is_space (env_endpointPrefix (sample_environment "env-1" [])) = false
  /\ string_exists is_space
       (routePath (sample_environment "env-1" [])
          (mkRoute "route-3" "get" "my files/:name" true [] false false)) = false.
Proof.
  split; [reflexivity|].
  apply (routePath_escapes_spaces (sample_environment "env-1" [])
           (mkRoute "route-3" "get" "my files/:name" true [] false false)).
  reflexivity.
Defined.

(** ** More on the transaction log *)

Lemma obj_get_head_fresh {V : Type} (k : string) (v : V) (o : Obj V) :
  obj_get k ((k, v) :: o) = Some v.
Proof. simpl. now rewrite String.eqb_refl. Qed.

Lemma map_obj_get_NoDup {V W : Type} (f : string -> option V -> W) (o : Obj V) :
  NoDup (Object_keys o) ->
  map (fun k => f k (obj_get k o)) (Object_keys o)
  = map (fun entry => f (fst entry) (Some (snd entry))) o.
Proof.
  unfold Object_keys. induction o as [|[k v] o IH]; intros Hnd; [reflexivity|].
  inversion Hnd as [|? ? Hnotin Hnd']; subst.
  cbn [map fst snd]. rewrite obj_get_head_fresh. f_equal.
  rewrite <- (IH Hnd'). apply map_ext_in. intros k' Hin.
  simpl. destruct (k =? k')%string eqn:E; [|reflexivity].
  apply String.eqb_eq in E. subst. contradiction.
Qed.

(** X6. For a header object (its keys are distinct), [TransformHeaders]
    gives one header per entry, in the order of the entries: the key as it
    is, and the value as text (the string itself, the elements of an array
    joined by ',', the empty string for [undefined]). *)
Theorem TransformHeaders_entries (headers : Obj HeaderValue) :
  NoDup (Object_keys headers) ->
  TransformHeaders headers
  = map (fun entry => mkHeader (fst entry) (header_text (Some (snd entry)))) headers.
Proof.
  intros Hnd. rewrite TransformHeaders_map.
  apply (map_obj_get_NoDup (fun k v => mkHeader k (header_text v))), Hnd.
Qed.

Lemma TransformHeaders_entries_witness :
  NoDup (Object_keys (req_headers sample_request))
  /\ TransformHeaders (req_headers sample_request)
     = [mkHeader "host" "localhost"; mkHeader "accept" "text/html,*/*"].
Proof.
  assert (Hnd : NoDup (Object_keys (req_headers sample_request))).
  { simpl. repeat constructor; simpl; intuition discriminate. }
  split; [exact Hnd|]. exact (TransformHeaders_entries _ Hnd).
Defined.

Lemma TransformHeaders_keys (headers : Obj HeaderValue) :
  map key (TransformHeaders headers) = Object_keys headers.
Proof.
  rewrite TransformHeaders_map, map_map. simpl. apply map_id.
Qed.

Lemma key_le_lt (a b : Header) : key_le a b -> key a <> key b -> key_lt a b.
Proof.
  unfold key_le, key_lt, String.leb, String.ltb. intros Hle Hne.
  destruct (key a ?= key b)%string eqn:E; try reflexivity; try discriminate.
  apply String.compare_eq_iff in E. contradiction.
Qed.

Lemma key_lt_le (a b : Header) : key_lt a b -> key_le a b.
Proof.
  unfold key_le, key_lt, String.leb, String.ltb.
  destruct (key a ?= key b)%string; try reflexivity; discriminate.
Qed.

Lemma key_lt_asym (a b : Header) : key_lt a b -> key_lt b a -> False.
Proof.
  unfold key_lt, String.ltb. rewrite (String.compare_antisym (key b) (key a)).
  destruct (key a ?= key b)%string; simpl; discriminate.
Qed.

Lemma StronglySorted_strict (l : list Header) :
  NoDup (map key l) -> StronglySorted key_le l -> StronglySorted key_lt l.
Proof.
  induction l as [|a l IH]; intros Hnd Hs; [constructor|].
  inversion Hnd as [|? ? Hnotin Hnd']; subst.
  inversion Hs as [|? ? Hs' Hall]; subst.
  constructor; [now apply IH|].
  rewrite Forall_forall in *. intros b Hb. apply key_le_lt; [now apply Hall|].
  intros Heq. apply Hnotin. rewrite Heq. now apply in_map.
Qed.

(** Two lists with the same elements, both strictly ascending, are equal. *)
Lemma strictly_sorted_unique (l1 l2 : list Header) :
  StronglySorted key_lt l1 -> StronglySorted key_lt l2 -> Permutation l1 l2 -> l1 = l2.
Proof.
  revert l2. induction l1 as [|a l1 IH]; intros l2 H1 H2 Hperm.
  - apply Permutation_nil in Hperm. now subst.
  - destruct l2 as [|b l2]; [apply Permutation_sym, Permutation_nil in Hperm; discriminate|].
    inversion H1 as [|? ? H1' Hall1]; subst. inversion H2 as [|? ? H2' Hall2]; subst.
    rewrite Forall_forall in Hall1, Hall2.
    assert (Hab : a = b).
    { assert (Ha : In a (b :: l2)) by (eapply Permutation_in; [exact Hperm | now left]).
      assert (Hb : In b (a :: l1))
        by (eapply Permutation_in; [apply Permutation_sym; exact Hperm | now left]).
      destruct Ha as [Ha|Ha]; [now symmetry|].
      destruct Hb as [Hb|Hb]; [assumption|].
      exfalso. exact (key_lt_asym _ _ (Hall1 _ Hb) (Hall2 _ Ha)). }
    subst b. f_equal. apply IH; try assumption.
    now apply Permutation_cons_inv in Hperm.
Qed.

Lemma sorted_headers_strict (headers : Obj HeaderValue) :
  NoDup (Object_keys headers) ->
  StronglySorted key_lt (Array_sort AscSort (TransformHeaders headers)).
Proof.
  intros Hnd. apply StronglySorted_strict.
  - eapply Permutation_NoDup.
    + apply Permutation_map, Permutation_sym, Array_sort_Permutation.
    + now rewrite TransformHeaders_keys.
  - apply (Sorted_StronglySorted key_le_trans), Array_sort_Sorted.
Qed.

(** X7. When the keys of the header object of the request are distinct, the
    header list of the transaction is strictly ascending in the keys, and it
    is the only strictly ascending arrangement of the transformed headers:
    the sorting method plays no part. *)
Theorem CreateTransaction_headers_strictly_sorted (URL_pathname : string -> string)
  (request : Request) (response : Response) :
  NoDup (Object_keys (req_headers request)) ->
  StronglySorted key_lt
    (tx_headers (tx_request (CreateTransaction URL_pathname request response)))
  /\ (forall arrangement : list Header,
         Permutation arrangement (TransformHeaders (req_headers request)) ->
         StronglySorted key_lt arrangement ->
         arrangement
         = tx_headers (tx_request (CreateTransaction URL_pathname request response))).
Proof.
  intros Hnd. simpl. split; [now apply sorted_headers_strict|].
  intros arrangement Hperm Hsorted.
  apply strictly_sorted_unique; [exact Hsorted | now apply sorted_headers_strict|].
  rewrite Hperm. apply Permutation_sym, Array_sort_Permutation.
Qed.

Lemma CreateTransaction_headers_strictly_sorted_witness :
  NoDup (Object_keys (req_headers sample_request))
  /\ StronglySorted key_lt
       (tx_headers (tx_request (CreateTransaction (fun url => url) sample_request
                                  sample_response))).
Proof.
  assert (Hnd : NoDup (Object_keys (req_headers sample_request))).
  { simpl. repeat constructor; simpl; intuition discriminate. }
  split; [exact Hnd|].
  exact (proj1 (CreateTransaction_headers_strictly_sorted (fun url => url) sample_request
                  sample_response Hnd)).
Defined.

(** X8. The logged headers do not depend on the order in which the headers
    stand in the header object: two responses whose header objects hold the
    same entries (with distinct keys) in different orders give the same
    header list in the transaction. *)
Theorem CreateTransaction_headers_order_independent (URL_pathname : string -> string)
  (request : Request) (response1 response2 : Response) :
  NoDup (Object_keys (res_headers response1)) ->
  Permutation (res_headers response1) (res_headers response2) ->
  txr_headers (tx_response (CreateTransaction URL_pathname request response1))
  = txr_headers (tx_response (CreateTransaction URL_pathname request response2)).
Proof.
  intros Hnd1 Hperm. simpl.
  assert (Hnd2 : NoDup (Object_keys (res_headers response2))).
  { eapply Permutation_NoDup; [|exact Hnd1]. now apply Permutation_map. }
  apply strictly_sorted_unique; try now apply sorted_headers_strict.
  rewrite !Array_sort_Permutation.
  rewrite !TransformHeaders_map.
  rewrite (map_obj_get_NoDup (fun k v => mkHeader k (header_text v)) _ Hnd1).
  rewrite (map_obj_get_NoDup (fun k v => mkHeader k (header_text v)) _ Hnd2).
  now apply Permutation_map.
Qed.

Lemma CreateTransaction_headers_order_independent_witness :
  NoDup (Object_keys [("x-b", HVString "2"); ("x-a", HVArray ["1"; "0"])])
  /\ Permutation [("x-b", HVString "2"); ("x-a", HVArray ["1"; "0"])]
       [("x-a", HVArray ["1"; "0"]); ("x-b", HVString "2")]
  /\ txr_headers
       (tx_response
          (CreateTransaction (fun url => url) sample_request
             (mkResponse 200 [("x-b", HVString "2"); ("x-a", HVArray ["1"; "0"])]
                None None None None)))
     = txr_headers
         (tx_response
            (CreateTransaction (fun url => url) sample_request
               (mkResponse 200 [("x-a", HVArray ["1"; "0"]); ("x-b", HVString "2")]
                  None None None None))).
Proof.
  assert (Hnd : NoDup (Object_keys [("x-b", HVString "2"); ("x-a", HVArray ["1"; "0"])])).
  { simpl. repeat constructor; simpl; intuition discriminate. }
  assert (Hperm : Permutation [("x-b", HVString "2"); ("x-a", HVArray ["1"; "0"])]
                    [("x-a", HVArray ["1"; "0"]); ("x-b", HVString "2")])
    by apply perm_swap.
  split; [exact Hnd|]. split; [exact Hperm|].
  exact (CreateTransaction_headers_order_independent (fun url => url) sample_request
           (mkResponse 200 [("x-b", HVString "2"); ("x-a", HVArray ["1"; "0"])]
              None None None None)
           (mkResponse 200 [("x-a", HVArray ["1"; "0"]); ("x-b", HVString "2")]
              None None None None)
           Hnd Hperm).
Defined.

(** X9. Unlike the headers, the path and query parameters are logged in the
    order of the parameter object, each name with its value: read back as
    pairs they are the entries of the object. *)
Theorem CreateTransaction_params_in_order (URL_pathname : string -> string)
  (request : Request) (response : Response) :
  NoDup (Object_keys (req_params request)) ->
  NoDup (Object_keys (req_query request)) ->
  map (fun p => (nv_name p, nv_value p))
      (tx_params (tx_request (CreateTransaction URL_pathname request response)))
  = req_params request
  /\ map (fun p => (nv_name p, nv_value p))
         (tx_queryParams (tx_request (CreateTransaction URL_pathname request response)))
     = req_query request.
Proof.
  intros Hp Hq. simpl. unfold name_values.
  rewrite (map_obj_get_NoDup
             (fun name v => mkNameValue name match v with Some v => v | None => "" end)
             _ Hp).
  rewrite (map_obj_get_NoDup
             (fun name v => mkNameValue name match v with Some v => v | None => "" end)
             _ Hq).
  rewrite !map_map. simpl.
  split; (erewrite map_ext; [apply map_id | now intros [k v]]).
Qed.

Lemma CreateTransaction_params_in_order_witness :
  NoDup (Object_keys [("b", "2"); ("a", "1")])
  /\ NoDup (Object_keys (req_query sample_request))
  /\ map (fun p => (nv_name p, nv_value p))
         (tx_params
            (tx_request
               (CreateTransaction (fun url => url)
                  (mkRequest "GET" "/x" "/x" None [("b", "2"); ("a", "1")] [] [] "" None false)
                  sample_response)))
     = [("b", "2"); ("a", "1")].
Proof.
  assert (Hp : NoDup (Object_keys [("b", "2"); ("a", "1")])).
  { simpl. repeat constructor; simpl; intuition discriminate. }
  assert (Hq : NoDup (Object_keys (req_query sample_request))) by constructor.
  split; [exact Hp|]. split; [exact Hq|].
  exact (proj1 (CreateTransaction_params_in_order (fun url => url)
                  (mkRequest "GET" "/x" "/x" None [("b", "2"); ("a", "1")] [] [] "" None false)
                  sample_response Hp Hq)).
Defined.

Lemma string_compare_refl (s : string) : (s ?= s)%string = Eq.
Proof.
  generalize (String.compare_antisym s s). destruct (s ?= s)%string; simpl; congruence.
Qed.

(** X10. [AscSort] never answers 0.  For two headers with different keys it
    answers -1 one way and 1 the other way, so it orders them; for two headers
    with the same key it answers 1 both ways. *)
Theorem AscSort_never_zero (a b : Header) :
  AscSort a b <> 0%Z
  /\ (key a <> key b ->
      (AscSort a b = (-1)%Z /\ AscSort b a = 1%Z)
      \/ (AscSort a b = 1%Z /\ AscSort b a = (-1)%Z))
  /\ (key a = key b -> AscSort a b = 1%Z /\ AscSort b a = 1%Z).
Proof.
  split; [unfold AscSort; destruct (key a <? key b)%string; discriminate|].
  unfold AscSort, String.ltb.
  rewrite (String.compare_antisym (key b) (key a)).
  split.
  - intros Hne. destruct (key a ?= key b)%string eqn:E; simpl; auto.
    apply String.compare_eq_iff in E. contradiction.
  - intros Heq. rewrite Heq, string_compare_refl. simpl. auto.
Qed.

(** ** [IsEmpty] *)

(** X11. [IsEmpty] answers true for every falsy value ([undefined], [null],
    [false], 0, [NaN], the empty string) and, among the truthy values, for the
    empty array and the empty plain object only: a non-empty string, a
    non-zero number, [true] and an object of another class are never empty. *)
Theorem IsEmpty_cases (obj : JSValue) :
  IsEmpty obj = true
  <-> js_truthy obj = false \/ obj = JSArray [] \/ obj = JSObject [].
Proof.
  unfold IsEmpty.
  destruct obj as [| |[|]|n| |s|[|x elements]|[|entry entries]|entries]; simpl;
    try destruct (n =? 0)%Z; try destruct (truthy s); simpl;
    (split;
     [intros H; try discriminate H; auto
     |intros [H|[H|H]]; try discriminate H; reflexivity]).
Qed.

(** ** The extended properties on the sample configuration *)

(** The outgoing request keeps its [content-type] when the list has no
    header of that name. *)
Lemma setHeaders_frame_witness :
  Forall (fun header => same_slot proxied_request_target "content-type" (key header) = false)
    [mkHeader "X-One" "1"; mkHeader "X-Two" "2"]
  /\ exists target' : Target,
       setHeaders sample_TestHeaderValidity sample_setHeader_error sample_TemplateParser
         sample_texts
         [mkHeader "X-One" "1"; mkHeader "X-Two" "2"] proxied_request_target sample_request
         (static_server rule_route)
       = (Normal target', static_server rule_route)
       /\ target_get target' "content-type" = target_get proxied_request_target "content-type"
       /\ target_rest target' = target_rest proxied_request_target.
Proof.
  assert (H : Forall (fun header =>
                        same_slot proxied_request_target "content-type" (key header) = false)
                [mkHeader "X-One" "1"; mkHeader "X-Two" "2"]).
  { repeat constructor. }
  split; [exact H|].
  eexists. split; [reflexivity|].
  exact (proj2 (setHeaders_frame sample_TestHeaderValidity sample_setHeader_error
                  sample_TemplateParser sample_texts
                  [mkHeader "X-One" "1"; mkHeader "X-Two" "2"] proxied_request_target _
                  sample_request (static_server rule_route) (static_server rule_route)
                  "content-type" H eq_refl)).
Defined.

(** Two cookies of the list follow each other on the outgoing request. *)
Lemma setHeaders_accumulates_witness :
  replaced_slot proxied_request_target "Set-Cookie" = false
  /\ slot_values sample_TestHeaderValidity sample_TemplateParser sample_texts
       (static_server rule_route) sample_request proxied_request_target "Set-Cookie"
       [mkHeader "Set-Cookie" "a=1"; mkHeader "X-One" "1"; mkHeader "set-cookie" "b=2"]
     = ["a=1"; "b=2"]
  /\ exists target' : Target,
       setHeaders sample_TestHeaderValidity sample_setHeader_error sample_TemplateParser
         sample_texts
         [mkHeader "Set-Cookie" "a=1"; mkHeader "X-One" "1"; mkHeader "set-cookie" "b=2"]
         proxied_request_target sample_request (static_server rule_route)
       = (Normal target', static_server rule_route)
       /\ live_values (target_get target' "Set-Cookie")
          = live_values (target_get proxied_request_target "Set-Cookie") ++ ["a=1"; "b=2"].
Proof.
  split; [reflexivity|]. split; [reflexivity|].
  eexists. split; [reflexivity|].
  refine (proj1 (setHeaders_accumulates sample_TestHeaderValidity sample_setHeader_error
                   sample_TemplateParser sample_texts
                   [mkHeader "Set-Cookie" "a=1"; mkHeader "X-One" "1";
                    mkHeader "set-cookie" "b=2"]
                   proxied_request_target _ sample_request (static_server rule_route)
                   (static_server rule_route) "Set-Cookie" eq_refl _ eq_refl)).
  repeat constructor; discriminate.
Defined.

(** A response that holds three Content-Type values is left with one. *)
Lemma setHeaders_content_type_single_witness :
  content_type_count
    (TResponse (mkResponse 200 [("content-type", HVArray ["a/b"; "c/d"; "e/f"])]
                  None None None None)) = 3
  /\ exists target' : Target,
       setHeaders sample_TestHeaderValidity sample_setHeader_error sample_TemplateParser
         sample_texts
         [mkHeader "X-One" "1"; content_type_header; mkHeader "content-type" "text/csv"]
         (TResponse (mkResponse 200 [("content-type", HVArray ["a/b"; "c/d"; "e/f"])]
                       None None None None))
         sample_request (static_server rule_route)
       = (Normal target', static_server rule_route)
       /\ content_type_count target' = 1.
Proof.
  split; [reflexivity|].
  eexists. split; [reflexivity|].
  refine (setHeaders_content_type_single sample_TestHeaderValidity sample_setHeader_error
            sample_TemplateParser sample_texts
            [mkHeader "X-One" "1"; content_type_header; mkHeader "content-type" "text/csv"]
            (mkResponse 200 [("content-type", HVArray ["a/b"; "c/d"; "e/f"])]
               None None None None)
            _ sample_request (static_server rule_route) (static_server rule_route) _
            eq_refl).
  discriminate.
Defined.

(** The origin of the environment comes after the wildcard of the defaults. *)
Lemma corsHandler_appends_environment_headers_witness :
  slot_values sample_TestHeaderValidity sample_TemplateParser sample_texts
    (snd (refreshEnvironment cors_server)) sample_request (TResponse sample_response)
    "Access-Control-Allow-Origin"
    (sample_CORSHeaders ++ env_headers (environment (snd (refreshEnvironment cors_server))))
  = ["*"; "https://app.test"]
  /\ exists res' : Response,
       corsHandler sample_TestHeaderValidity sample_setHeader_error sample_TemplateParser
         sample_texts sample_CORSHeaders sample_request sample_response cors_server
       = (Normal res', cors_server)
       /\ res_statusCode res' = 200
       /\ res_sent res' = Some ""
       /\ live_values (getHeader "Access-Control-Allow-Origin" (res_headers res'))
          = ["*"; "https://app.test"].
Proof.
  split; [reflexivity|].
  eexists. split; [reflexivity|].
  match goal with
  | |- res_statusCode ?res' = 200 /\ _ =>
      destruct (corsHandler_appends_environment_headers sample_TestHeaderValidity
                  sample_setHeader_error sample_TemplateParser sample_texts
                  sample_CORSHeaders sample_request sample_response res' cors_server
                  cors_server "Access-Control-Allow-Origin")
        as (_ & Hstatus & Hsent & _ & Hlive);
      [discriminate | repeat constructor; discriminate | reflexivity |]
  end.
  split; [exact Hstatus|]. split; [exact Hsent | exact Hlive].
Defined.


(** The same body with templating enabled is answered with the error text
    under the status 201 of the chosen response. *)
Lemma serveRouteResponse_body_failure_witness :
  returned
      (fst (setHeaders sample_TestHeaderValidity sample_setHeader_error
              sample_TemplateParser sample_texts (rr_headers failing_response)
              (TResponse (Response_status (rr_statusCode failing_response) sample_response))
              sample_request (static_server rule_route))) = true
  /\ 100 <= rr_statusCode failing_response <= 999
  /\ exists response' : Response,
       serveRouteResponse sample_TestHeaderValidity sample_setHeader_error
         sample_TemplateParser sample_texts sample_GetRouteResponseContentType
         sample_GetContentType sample_mimeTypeLookup sample_basename sample_readFile
         sample_Buffer_toString sample_MimeTypesWithTemplating sample_BINARY_BODY
         failing_response sample_request
         (mkServing (static_server rule_route) sample_response)
       = (Normal tt,
          mkServing
            (mkServer (environment (static_server rule_route))
               (options (static_server rule_route))
               (emitted (static_server rule_route)
                ++ [Ev_error ROUTE_SERVING_ERROR (mkError "Error" "Parse error")]))
            response')
       /\ res_sent response'
          = Some (ROUTE_SERVING_ERROR_MESSAGE sample_texts
                  ++ err_message (mkError "Error" "Parse error"))%string
       /\ res_body response' = res_sent response'
       /\ res_statusCode response' = 201.
Proof.
  split; [reflexivity|]. split; [simpl; lia|].
  apply (serveRouteResponse_body_failure sample_TestHeaderValidity sample_setHeader_error
           sample_TemplateParser sample_texts sample_GetRouteResponseContentType
           sample_GetContentType sample_mimeTypeLookup sample_basename sample_readFile
           sample_Buffer_toString sample_MimeTypesWithTemplating sample_BINARY_BODY
           failing_response sample_request (static_server rule_route) sample_response
           (mkError "Error" "Parse error"));
    [reflexivity | reflexivity | reflexivity | reflexivity | simpl; lia].
Defined.

(** A file that is not there. *)
Lemma serveRouteResponse_file_read_failure_witness :
  sample_readFile "/data/missing.json"
  = Throw (mkError "Error" "ENOENT: no such file or directory")
  /\ returned
      (fst (setHeaders sample_TestHeaderValidity sample_setHeader_error
              sample_TemplateParser sample_texts (rr_headers missing_file_response)
              (TResponse (Response_status (rr_statusCode missing_file_response) sample_response))
              sample_request (static_server rule_route))) = true
  /\ 100 <= rr_statusCode missing_file_response <= 999
  /\ exists response' : Response,
       serveRouteResponse sample_TestHeaderValidity sample_setHeader_error
         sample_TemplateParser sample_texts sample_GetRouteResponseContentType
         sample_GetContentType sample_mimeTypeLookup sample_basename sample_readFile
         sample_Buffer_toString sample_MimeTypesWithTemplating sample_BINARY_BODY
         missing_file_response sample_request
         (mkServing (static_server rule_route) sample_response)
       = (Normal tt,
          mkServing
            (mkServer (environment (static_server rule_route))
               (options (static_server rule_route))
               (emitted (static_server rule_route)
                ++ [Ev_error ROUTE_FILE_SERVING_ERROR
                      (mkError "Error" "ENOENT: no such file or directory")]))
            response')
       /\ res_sent response'
          = Some (ROUTE_FILE_SERVING_ERROR_MESSAGE sample_texts
                  ++ err_message (mkError "Error" "ENOENT: no such file or directory"))%string
       /\ res_body response' = res_sent response'
       /\ res_statusCode response' = rr_statusCode missing_file_response
       /\ (rr_sendFileAsBody missing_file_response = false ->
           getHeader "Content-Disposition" (res_headers response')
           = HVString ("attachment; filename="
                       ++ quoted (sample_basename "/data/missing.json"))%string).
Proof.
  split; [reflexivity|]. split; [reflexivity|]. split; [simpl; lia|].
  apply (serveRouteResponse_file_read_failure sample_TestHeaderValidity
           sample_setHeader_error sample_TemplateParser sample_texts
           sample_GetRouteResponseContentType sample_GetContentType sample_mimeTypeLookup
           sample_basename sample_readFile sample_Buffer_toString
           sample_MimeTypesWithTemplating sample_BINARY_BODY missing_file_response
           sample_request (static_server rule_route) sample_response "/data/missing.json"
           (mkError "Error" "ENOENT: no such file or directory"));
    [discriminate | reflexivity | reflexivity | reflexivity | simpl; lia | reflexivity
    | reflexivity].
Defined.

(** An image is sent as read and logged as binary. *)
Lemma serveRouteResponse_binary_file_witness :
  sample_mimeTypeLookup "/data/logo.png" = Some "image/png"
  /\ returned
      (fst (setHeaders sample_TestHeaderValidity sample_setHeader_error
              sample_TemplateParser sample_texts (rr_headers image_response)
              (TResponse (Response_status (rr_statusCode image_response) sample_response))
              sample_request (static_server rule_route))) = true
  /\ 100 <= rr_statusCode image_response <= 999
  /\ exists response' : Response,
       serveRouteResponse sample_TestHeaderValidity sample_setHeader_error
         sample_TemplateParser sample_texts sample_GetRouteResponseContentType
         sample_GetContentType sample_mimeTypeLookup sample_basename sample_readFile
         sample_Buffer_toString sample_MimeTypesWithTemplating sample_BINARY_BODY
         image_response sample_request
         (mkServing (static_server rule_route) sample_response)
       = (Normal tt, mkServing (static_server rule_route) response')
       /\ res_sent response' = Some "file-bytes"
       /\ res_body response' = Some sample_BINARY_BODY
       /\ res_statusCode response' = rr_statusCode image_response.
Proof.
  split; [reflexivity|]. split; [reflexivity|]. split; [simpl; lia|].
  apply (serveRouteResponse_binary_file sample_TestHeaderValidity sample_setHeader_error
           sample_TemplateParser sample_texts sample_GetRouteResponseContentType
           sample_GetContentType sample_mimeTypeLookup sample_basename sample_readFile
           sample_Buffer_toString sample_MimeTypesWithTemplating sample_BINARY_BODY
           image_response sample_request (static_server rule_route) sample_response
           "/data/logo.png" "file-bytes");
    [discriminate | reflexivity | reflexivity | reflexivity | reflexivity | simpl; lia
    | reflexivity | reflexivity].
Defined.

(** A header value that the transport refuses: the callback throws, and
    nothing is sent. *)
Example serveRouteResponse_refused_header :
  fst (serveRouteResponse sample_TestHeaderValidity sample_setHeader_error
         sample_TemplateParser sample_texts sample_GetRouteResponseContentType
         sample_GetContentType sample_mimeTypeLookup sample_basename sample_readFile
         sample_Buffer_toString sample_MimeTypesWithTemplating sample_BINARY_BODY
         refused_value_response sample_request
         (mkServing (static_server rule_route) sample_response))
  = Throw (mkError "TypeError" "Invalid character in header content")
  /\ res_sent
       (sv_response
          (snd (serveRouteResponse sample_TestHeaderValidity sample_setHeader_error
                  sample_TemplateParser sample_texts sample_GetRouteResponseContentType
                  sample_GetContentType sample_mimeTypeLookup sample_basename
                  sample_readFile sample_Buffer_toString sample_MimeTypesWithTemplating
                  sample_BINARY_BODY refused_value_response sample_request
                  (mkServing (static_server rule_route) sample_response))))
     = None.
Proof. split; reflexivity. Qed.

(** The route found by uuid in the environment of a refreshed server. *)
Lemma getRefreshedRoute_first_with_uuid_witness :
  fst (getRefreshedRoute rule_route (sample_server (sample_environment "env-1"
                                                       [other_route; rule_route])
                                       (Some (fun _ => None))))
  = Normal (Some rule_route)
  /\ route_uuid rule_route = route_uuid rule_route
  /\ exists before after,
       env_routes (environment (sample_server (sample_environment "env-1"
                                                 [other_route; rule_route])
                                  (Some (fun _ => None))))
       = before ++ rule_route :: after
       /\ Forall (fun route => route_uuid route <> route_uuid rule_route) before.
Proof.
  split; [reflexivity|].
  apply (getRefreshedRoute_first_with_uuid
           (sample_server (sample_environment "env-1" [other_route; rule_route])
              (Some (fun _ => None)))
           rule_route rule_route).
  - discriminate.
  - discriminate.
  - reflexivity.
Defined.

(** The latency applied is the one of the environment the refresh returns. *)
Lemma delayResponse_uses_refreshed_latency_witness :
  delayResponse
    (sample_server (sample_environment "env-1" [rule_route])
       (Some (fun _ => Some (mkEnvironment "env-1" 3000 250 false [] false "" false "" [] []
                               false [rule_route]))))
  = (Normal 250,
     with_environment
       (mkEnvironment "env-1" 3000 250 false [] false "" false "" [] [] false [rule_route])
       (sample_server (sample_environment "env-1" [rule_route])
          (Some (fun _ => Some (mkEnvironment "env-1" 3000 250 false [] false "" false "" []
                                  [] false [rule_route]))))).
Proof.
  apply (delayResponse_uses_refreshed_latency
           (sample_server (sample_environment "env-1" [rule_route])
              (Some (fun _ => Some (mkEnvironment "env-1" 3000 250 false [] false "" false ""
                                      [] [] false [rule_route]))))
           (fun _ => Some (mkEnvironment "env-1" 3000 250 false [] false "" false "" [] []
                             false [rule_route]))
           (mkEnvironment "env-1" 3000 250 false [] false "" false "" [] [] false
              [rule_route])).
  - reflexivity.
  - discriminate.
  - reflexivity.
Defined.

(** A JSON request whose body is not JSON. *)
Lemma parseBody_json_failure_witness :
  hv_includes (Request_header "Content-Type" json_request) "application/json" = true
  /\ parseBody sample_Buffer_toString string string sample_JSON_parse sample_qsParse
       json_request ["not "; "json"] (static_server rule_route)
     = (Normal
          (mkParsed
             (with_bodies (String.concat "" ["not "; "json"])
                (sample_Buffer_toString (String.concat "" ["not "; "json"])) json_request)
             None None),
        mkServer (environment (static_server rule_route))
          (options (static_server rule_route))
          (emitted (static_server rule_route)
           ++ [Ev_error REQUEST_BODY_PARSE (mkError "SyntaxError" "Unexpected token")])).
Proof.
  split; [reflexivity|].
  exact (parseBody_json_failure sample_Buffer_toString string string sample_JSON_parse
           sample_qsParse json_request ["not "; "json"] (static_server rule_route)
           (mkError "SyntaxError" "Unexpected token") eq_refl eq_refl).
Defined.
